(** * OS-MultiThread-KernelModule: MT_matrix.c and My_proc.c

    A shallow embedding of the multi-threaded matrix multiplier
    (src/MT_matrix.c, include/matrix.h) and of the /proc/thread_info kernel
    module (src/My_proc.c, include/proc_module.h), with the properties of
    the design document stated and proved over it.

    Conventions.
    - A C [int] is a [Z] together with the two's-complement wrap [to_int]
      written at every arithmetic operation of the source ([gcc] without
      [-ftrapv], as the Makefile builds it).
    - A [char] array is a [list ascii] of fixed length.  A store outside an
      array, or a read of a matrix cell that was never allocated, makes the
      embedded function return [None]: [Some] results are the executions
      free of such accesses.
    - A loop [for (x = a; x < b; x++)] runs over [seqZ a (b - a)].
    - What the C code receives from its environment (return values of
      [fork], [pipe], [open], the contents of uninitialised memory, the
      kernel's task list, clock readings) is an explicit argument.
      [malloc] of a non-negative size and [pthread_create] are taken to
      succeed; [malloc] of [sizeof(int) * n] bytes with [n] negative,
      which asks for about [2^64] bytes, fails.
    - Standard output is the stream of the characters the process prints
      ([console]) together with what its forked children write when they
      end ([child_stdout]): a child inherits a copy of the characters that
      [stdout] still buffers.

    Part I holds the embedding, Part II the proofs. *)

From Stdlib Require Import ZArith Lia Bool Ascii String.
From stdpp Require Import base tactics option list numbers.

Local Open Scope Z_scope.

(** * Part I: the embedding *)

(** ** Machine integers *)

Definition wrap_signed (bits : Z) (z : Z) : Z :=
  (z + 2 ^ (bits - 1)) mod 2 ^ bits - 2 ^ (bits - 1).

Definition wrap_unsigned (bits : Z) (z : Z) : Z := z mod 2 ^ bits.

Definition INT_MAX : Z := 2147483647.
Definition INT_MIN : Z := -2147483648.
Definition LONG_MAX : Z := 9223372036854775807.
Definition LONG_MIN : Z := -9223372036854775808.
Definition ULLONG_MAX : Z := 18446744073709551615.

(** [int], [pid_t]: 32 bits, signed. *)
Definition to_int (z : Z) : Z := wrap_signed 32 z.
Definition is_int (z : Z) : Prop := INT_MIN <= z <= INT_MAX.

(** [long], [long long], [ssize_t], [time_t]: 64 bits, signed. *)
Definition to_long (z : Z) : Z := wrap_signed 64 z.
Definition is_long (z : Z) : Prop := LONG_MIN <= z <= LONG_MAX.

(** [unsigned long], [u64], [size_t]: 64 bits, unsigned. *)
Definition to_ulong (z : Z) : Z := wrap_unsigned 64 z.
Definition is_ulong (z : Z) : Prop := 0 <= z <= ULLONG_MAX.

(** ** Characters, C strings and arrays of [char] *)

Definition NUL : ascii := "000"%char.
Definition LF : ascii := "010"%char.
Definition TAB : ascii := "009"%char.

Definition chars (s : string) : list ascii := list_ascii_of_string s.

Definition char_code (c : ascii) : Z := Z.of_nat (nat_of_ascii c).

Definition is_nul (c : ascii) : bool := char_code c =? 0.

(** The string a [char*] denotes: the bytes before the first NUL.  (On an
    array without NUL the C code would run past its end; the model stops at
    the end of the list.) *)
Fixpoint c_str (buf : list ascii) : list ascii :=
  match buf with
  | [] => []
  | c :: rest => if is_nul c then [] else c :: c_str rest
  end.

Definition strlen (buf : list ascii) : Z := Z.of_nat (length (c_str buf)).

(** [memcpy(buf + pos, src, |src|)]: refused when it leaves the array. *)
Definition store_bytes (pos : nat) (src buf : list ascii)
  : option (list ascii) :=
  if decide (pos + length src <= length buf)%nat
  then Some (take pos buf ++ src ++ drop (pos + length src) buf)
  else None.

(** [buf[i] = c] *)
Definition store_byte (i : Z) (c : ascii) (buf : list ascii)
  : option (list ascii) :=
  if decide (0 <= i < Z.of_nat (length buf))
  then Some (<[Z.to_nat i := c]> buf)
  else None.

(** ** libc and kernel library routines used by the sources

    [sprintf], [atoi] (libc) and [kstrtoint] (lib/kstrtox.c of the kernel)
    are not part of the repository; they are modelled after their
    documented behaviour. *)

Definition digit_char (d : Z) : ascii := ascii_of_nat (Z.to_nat (48 + d)).

Definition is_digit (c : ascii) : bool :=
  (48 <=? char_code c) && (char_code c <=? 57).

Definition digit_val (c : ascii) : Z := char_code c - 48.

(** Decimal digits of [n >= 0], most significant first.  [fuel] bounds the
    number of digits; 20 digits cover every 64-bit value. *)
Fixpoint dec_digits (fuel : nat) (n : Z) (acc : list ascii) : list ascii :=
  match fuel with
  | O => acc
  | S fuel' =>
      let acc' := digit_char (n mod 10) :: acc in
      if n <? 10 then acc' else dec_digits fuel' (n / 10) acc'
  end.

Definition fmt_unsigned (n : Z) : list ascii := dec_digits 20 n [].

(** The conversions [%d], [%ld], [%lld] of a signed value. *)
Definition fmt_signed (z : Z) : list ascii :=
  if z <? 0 then "-"%char :: fmt_unsigned (- z) else fmt_unsigned z.

(** [sprintf(buf, ...)] producing [text]: the text and its terminating NUL
    are stored from [buf[0]]; the rest of the array keeps its bytes. *)
Definition sprintf (buf : list ascii) (text : list ascii)
  : option (list ascii) :=
  store_bytes 0 (text ++ [NUL]) buf.

(** Value of the longest prefix of decimal digits, and what follows it. *)
Fixpoint scan_digits (acc : Z) (count : nat) (s : list ascii)
  : Z * nat * list ascii :=
  match s with
  | c :: rest =>
      if is_digit c then scan_digits (acc * 10 + digit_val c) (S count) rest
      else (acc, count, s)
  | [] => (acc, count, s)
  end.

Definition isspace (c : ascii) : bool :=
  (char_code c =? 32) || ((9 <=? char_code c) && (char_code c <=? 13)).

Fixpoint skip_space (s : list ascii) : list ascii :=
  match s with
  | c :: rest => if isspace c then skip_space rest else s
  | [] => []
  end.

Definition clamp_long (z : Z) : Z := Z.max LONG_MIN (Z.min LONG_MAX z).

(** [strtol(s, NULL, 10)]: white space, an optional sign, digits; the
    result saturates at the bounds of [long]. *)
Definition strtol (s : list ascii) : Z :=
  match skip_space s with
  | c :: rest =>
      if Ascii.eqb c "-"%char then
        clamp_long (- (scan_digits 0 0 rest).1.1)
      else if Ascii.eqb c "+"%char then
        clamp_long (scan_digits 0 0 rest).1.1
      else clamp_long (scan_digits 0 0 (c :: rest)).1.1
  | [] => 0
  end.

(** [atoi(s)] is [(int) strtol(s, NULL, 10)]. *)
Definition atoi (s : list ascii) : Z := to_int (strtol s).

(** [_kstrtoull(s, 10, &res)]: at least one digit, then an optional single
    newline, then the terminating NUL; [None] stands for a non-zero return
    ([-EINVAL] or [-ERANGE]).  The overflow flag of [_parse_integer] is
    raised exactly when the value of the digits exceeds [ULLONG_MAX]. *)
Definition _kstrtoull (s : list ascii) : option Z :=
  let '(v, count, rest) := scan_digits 0 0 s in
  if ULLONG_MAX <? v then None
  else if decide (count = 0%nat) then None
  else
    let rest' := match rest with
                 | c :: r => if Ascii.eqb c LF then r else rest
                 | [] => rest
                 end in
    match rest' with
    | [] => Some v
    | c :: _ => if is_nul c then Some v else None
    end.

Definition kstrtoull (s : list ascii) : option Z :=
  match s with
  | c :: rest => if Ascii.eqb c "+"%char then _kstrtoull rest else _kstrtoull s
  | [] => _kstrtoull s
  end.

Definition kstrtoll (s : list ascii) : option Z :=
  match s with
  | c :: rest =>
      if Ascii.eqb c "-"%char then
        tmp ← _kstrtoull rest;
        if 0 <? to_long (- tmp) then None else Some (to_long (- tmp))
      else
        tmp ← kstrtoull s;
        if to_long tmp <? 0 then None else Some (to_long tmp)
  | [] =>
      tmp ← kstrtoull s;
      if to_long tmp <? 0 then None else Some (to_long tmp)
  end.

(** [kstrtoint(s, 10, &res)]: [Some res] when it returns 0. *)
Definition kstrtoint (s : list ascii) : option Z :=
  tmp ← kstrtoll s;
  if tmp =? to_int tmp then Some (to_int tmp) else None.

(** ** include/proc_module.h and the kernel side of My_proc.c *)

Definition PROCFS_MAX_SIZE : Z := 1024.
Definition EFAULT : Z := 14.

(** The fields of [struct task_struct] the module reads:
    [pid_t pid; u64 utime; unsigned long nvcsw, nivcsw]. *)
Record task_struct := mk_task_struct {
  pid : Z;
  utime : Z;
  nvcsw : Z;
  nivcsw : Z
}.

(** The module's static variables. *)
Record procfs := mk_procfs {
  procfs_buffer : list ascii;
  procfs_buffer_size : Z
}.

(** [copy_from_user(to, from, n)]: [from] lists the bytes readable at the
    user pointer.  Returns the new contents of [to] and the number of bytes
    that could not be copied; the uncopied tail of the destination is
    zeroed, as the kernel does.  [None]: the copy would leave the array
    [to]. *)
Definition copy_from_user (to from : list ascii) (n : Z)
  : option (list ascii * Z) :=
  if (n <? 0) || (Z.of_nat (length to) <? n) then None
  else
    let got := take (Z.to_nat n) from in
    let missing := (Z.to_nat n - length got)%nat in
    to' ← store_bytes 0 (got ++ replicate missing NUL) to;
    Some (to', Z.of_nat missing).

(** [copy_to_user(to, from, n)]: [ucap] is the number of writable bytes at
    the user pointer.  Returns the bytes delivered and the number not
    copied.  [None]: the copy would read outside the array [from]. *)
Definition copy_to_user (ucap : Z) (from : list ascii) (n : Z)
  : option (list ascii * Z) :=
  if (n <? 0) || (Z.of_nat (length from) <? n) then None
  else if ucap <? n then Some (take (Z.to_nat ucap) from, n - ucap)
  else Some (take (Z.to_nat n) from, 0).

(** The text [sprintf] produces at My_proc.c:146-148.  [p->utime / 1000 /
    1000] is a [u64] printed by [%lld]; [p->nvcsw + p->nivcsw] is an
    [unsigned long] sum printed by [%ld]. *)
Definition thread_info_text (p : task_struct) : list ascii :=
  chars "ThreadID:" ++ fmt_signed (to_int (pid p)) ++
  chars " Time:" ++ fmt_signed (to_long (utime p / 1000 / 1000)) ++
  chars "(ms) context switch times:" ++
  fmt_signed (to_long (to_ulong (nvcsw p + nivcsw p))) ++ [LF].

(** Outcome of lines 104-117 of [procfile_write]. *)
Inductive accepted :=
  | Faulted (st : procfs)               (* [return -EFAULT] *)
  | Accepted (off : Z) (st : procfs).   (* ready for [kstrtoint] *)

(** Lines 104-117 of [procfile_write]: clamp the size, copy, terminate,
    advance the offset.  On a failed copy the size has already been
    assigned and the readable bytes, zero-padded, are in the buffer. *)
Definition procfile_write_accept (buff : list ascii) (len off : Z)
    (st : procfs) : option accepted :=
  let size := to_long len in
  let size := if PROCFS_MAX_SIZE <? size then PROCFS_MAX_SIZE else size in
  '(buf1, uncopied) ← copy_from_user (procfs_buffer st) buff size;
  if negb (uncopied =? 0) then
    Some (Faulted {| procfs_buffer := buf1; procfs_buffer_size := size |})
  else
    buf2 ← store_byte (Z.land size (PROCFS_MAX_SIZE - 1)) NUL buf1;
    Some (Accepted (to_long (off + size))
            {| procfs_buffer := buf2; procfs_buffer_size := size |}).

(** [list_for_each (pos, &init_task.tasks)] with [break] at the first entry
    whose [pid] matches: [tasks] lists the entries after [init_task]. *)
Definition find_task (tasks : list task_struct) (id : Z)
  : option task_struct :=
  List.find (fun p => to_int (pid p) =? id) tasks.

(** [procfile_write(file, buff, len, off)]: the return value, the new
    [*off] and the new static variables. *)
Definition procfile_write (tasks : list task_struct) (buff : list ascii)
    (len off : Z) (st : procfs) : option (Z * Z * procfs) :=
  r ← procfile_write_accept buff len off st;
  match r with
  | Faulted st' => Some (- EFAULT, off, st')
  | Accepted off' st1 =>
      match kstrtoint (procfs_buffer st1) with
      | None => Some (0, off', st1)
      | Some id =>
          match find_task tasks id with
          | Some p =>
              buf3 ← sprintf (procfs_buffer st1) (thread_info_text p);
              let st2 := {| procfs_buffer := buf3;
                            procfs_buffer_size := strlen buf3 |} in
              Some (procfs_buffer_size st2, off', st2)
          | None => Some (procfs_buffer_size st1, off', st1)
          end
      end
  end.

(** [procfile_read(filePointer, buffer, buffer_length, offset)]: the return
    value, the new [*offset] and the bytes delivered to the user buffer.
    [buffer_length] is not consulted by the source. *)
Definition procfile_read (ucap buffer_length off : Z) (st : procfs)
  : option (Z * Z * list ascii) :=
  let len := procfs_buffer_size st in
  if len <=? off then Some (0, off, [])
  else
    '(sent, uncopied) ← copy_to_user ucap (procfs_buffer st) len;
    if negb (uncopied =? 0) then Some (0, off, sent)
    else Some (len, to_long (off + len), sent).

(** *** The system-call layer above the handlers (fs/read_write.c)

    [write(2)] and [read(2)] clamp the count to [MAX_RW_COUNT], pass the
    file position of the descriptor and store it back when the handler's
    return value is not negative. *)
Definition MAX_RW_COUNT : Z := 2147479552.

Definition sys_write (tasks : list task_struct) (ubuf : list ascii)
    (count f_pos : Z) (st : procfs) : option (Z * Z * procfs) :=
  '(ret, pos, st') ←
     procfile_write tasks ubuf (Z.min count MAX_RW_COUNT) f_pos st;
  Some (ret, if 0 <=? ret then pos else f_pos, st').

Definition sys_read (ucap count f_pos : Z) (st : procfs)
  : option (Z * Z * list ascii) :=
  '(ret, pos, sent) ←
     procfile_read ucap (Z.min count MAX_RW_COUNT) f_pos st;
  Some (ret, if 0 <=? ret then pos else f_pos, sent).

(** ** include/matrix.h *)

Definition BUF_SIZE : Z := 1000.

Record Matrix := mkMatrix {
  row : Z;
  col : Z;
  data : list (list Z)
}.

Record Task := mkTask {
  start_row : Z;
  end_row : Z
}.

(** [M->data[r][c]] as an rvalue and as an lvalue.  [data] lists the rows
    that were allocated; anything else is outside the allocation. *)
Definition get_cell (M : Matrix) (r c : Z) : option Z :=
  if decide (0 <= r /\ 0 <= c) then
    cells ← data M !! Z.to_nat r; cells !! Z.to_nat c
  else None.

Definition set_cell (M : Matrix) (r c v : Z) : option Matrix :=
  if decide (0 <= r /\ 0 <= c) then
    cells ← data M !! Z.to_nat r;
    if decide (Z.to_nat c < length cells)%nat then
      Some {| row := row M; col := col M;
              data := <[Z.to_nat r := <[Z.to_nat c := v]> cells]> (data M) |}
    else None
  else None.

(** ** Control structure *)

Fixpoint for_each {S A : Type} (body : S -> A -> option S) (xs : list A)
    (s : S) : option S :=
  match xs with
  | [] => Some s
  | x :: xs' => s' ← body s x; for_each body xs' s'
  end.

(** [for (x = a; x < b; x++) body] *)
Definition for_range {S : Type} (a b : Z) (body : S -> Z -> option S)
    (s : S) : option S :=
  for_each body (seqZ a (b - a)) s.

(** ** MT_matrix.c: thread() *)

(** Lines 134-138: [sum = 0; for (i ...) sum += m1[r][i] * m2[i][c]]. *)
Definition dot_body (A B : Matrix) (r c : Z) (sum i : Z) : option Z :=
  a ← get_cell A r i;
  b ← get_cell B i c;
  Some (to_int (sum + to_int (a * b))).

Definition dot_product (A B : Matrix) (r c : Z) : option Z :=
  for_range 0 (col A) (dot_body A B r c) 0.

(** The child process: its copy of [buffer] and the bytes it has written
    to [fd[1]], oldest first. *)
Record child_state := mk_child {
  c_buffer : list ascii;
  c_pipe : list ascii
}.

(** Lines 134-141, one cell: compute, [sprintf(buffer, "%d", sum)],
    [write(fd[1], buffer, BUF_SIZE)]. *)
Definition child_cell (A B : Matrix) (r : Z) (st : child_state) (c : Z)
  : option child_state :=
  sum ← dot_product A B r c;
  buffer ← sprintf (c_buffer st) (fmt_signed sum);
  Some {| c_buffer := buffer;
          c_pipe := c_pipe st ++ take (Z.to_nat BUF_SIZE) buffer |}.

(** Lines 126-143: the child branch. *)
Definition thread_child (A B : Matrix) (t : Task) (buffer : list ascii)
  : option child_state :=
  for_range (start_row t) (end_row t)
    (fun st r => for_range 0 (col B) (child_cell A B r) st)
    {| c_buffer := buffer; c_pipe := [] |}.

(** The parent side: its [buffer], the bytes waiting in the pipe, the
    result matrix [m] and, for the record, what each [read] returned. *)
Record parent_state := mk_parent {
  p_buffer : list ascii;
  p_pipe : list ascii;
  p_m : option Matrix;
  p_reads : list (list ascii)
}.

(** Lines 152-153, one cell: [read(fd[0], buffer, BUF_SIZE)] takes up to
    [BUF_SIZE] bytes from the pipe, then [m->data[r][c] = atoi(buffer)]. *)
Definition parent_cell (r : Z) (st : parent_state) (c : Z)
  : option parent_state :=
  let got := take (Z.to_nat BUF_SIZE) (p_pipe st) in
  buffer ← store_bytes 0 got (p_buffer st);
  M ← p_m st;
  M' ← set_cell M r c (atoi buffer);
  Some {| p_buffer := buffer;
          p_pipe := drop (Z.to_nat BUF_SIZE) (p_pipe st);
          p_m := Some M';
          p_reads := p_reads st ++ [got] |}.

(** Lines 146-155: the parent's collection loop. *)
Definition thread_parent (B : Matrix) (t : Task) (st : parent_state)
  : option parent_state :=
  for_range (start_row t) (end_row t)
    (fun st r => for_range 0 (col B) (parent_cell r) st) st.

(** Lines 169-177, between [pthread_mutex_lock] and [printf]: the buffer
    is zeroed and receives the decimal pid and a newline, is written to
    /proc/thread_info and read back into the same array. *)
Definition proc_request (child_pid : Z) : option (list ascii) :=
  sprintf (replicate (Z.to_nat BUF_SIZE) NUL)
          (fmt_signed child_pid ++ [LF]).

Definition proc_write (tasks : list task_struct) (buffer : list ascii)
    (f_pos : Z) (st : procfs) : option (Z * procfs) :=
  '(_, pos, st') ← sys_write tasks buffer (strlen buffer) f_pos st;
  Some (pos, st').

(** The array lives on the caller's stack, which is writable beyond the
    array: the kernel delivers whatever the handler sends, and more than
    [BUF_SIZE] bytes overrun the array. *)
Definition proc_read (buffer : list ascii) (f_pos : Z) (st : procfs)
  : option (Z * list ascii) :=
  '(_, pos, sent) ← sys_read MAX_RW_COUNT BUF_SIZE f_pos st;
  buffer' ← store_bytes 0 sent buffer;
  Some (pos, buffer').

(** What one call of [thread] obtains from the operating system. *)
Record thread_env := mk_thread_env {
  pipe_ok : bool;                 (* [pipe(fd) >= 0] *)
  fork_ret : Z;                   (* [fork()] in the caller *)
  stack_junk : nat -> ascii;      (* the uninitialised [buffer] *)
  stdout_pending : nat;           (* how many of the characters printed so
                                     far [stdout] still buffers at [fork]:
                                     none when it is unbuffered, those
                                     after the last newline when it is line
                                     buffered (a terminal), up to the size
                                     of the buffer otherwise (a pipe, a
                                     file) *)
  open_ok : bool;                 (* [open(proc_file, O_RDWR) != -1] *)
  tasks_now : list task_struct    (* the task list when the write arrives *)
}.

(** The process-wide state [thread] and [multiply] act on. *)
Record World := mk_World {
  m : option Matrix;              (* the global [m]; [None] is NULL *)
  totalTime : Z;
  console : list ascii;           (* what the process has printed: the
                                     stream [stdout], in order *)
  child_stdout : list (list ascii);
                                  (* what each forked child wrote to
                                     standard output when it ended *)
  result_txt : option (list ascii);   (* result.txt, once created *)
  spawned : list Task;            (* the [Task] each created thread took *)
  module : procfs                 (* the loaded My_proc module *)
}.

Definition print (text : list ascii) (w : World) : World :=
  {| m := m w; totalTime := totalTime w;
     console := console w ++ text;
     result_txt := result_txt w; spawned := spawned w; module := module w;
     child_stdout := child_stdout w |}.

Definition set_m (M : option Matrix) (w : World) : World :=
  {| m := M; totalTime := totalTime w; console := console w;
     result_txt := result_txt w; spawned := spawned w; module := module w;
     child_stdout := child_stdout w |}.

Definition set_module (st : procfs) (w : World) : World :=
  {| m := m w; totalTime := totalTime w; console := console w;
     result_txt := result_txt w; spawned := spawned w; module := st;
     child_stdout := child_stdout w |}.

(** The characters [stdout] still buffers when [fork] is called, out of
    those printed so far. *)
Definition unflushed (te : thread_env) (printed : list ascii) : list ascii :=
  drop (length printed - stdout_pending te) printed.

(** A forked child ends: it writes out its copy of the buffer of
    [stdout]. *)
Definition child_exit (text : list ascii) (w : World) : World :=
  {| m := m w; totalTime := totalTime w; console := console w;
     result_txt := result_txt w; spawned := spawned w; module := module w;
     child_stdout := child_stdout w ++ [text] |}.

Definition uninit_chars (junk : nat -> ascii) (n : Z) : list ascii :=
  map junk (seq 0 (Z.to_nat n)).

(** [thread(param)] with [t = *(Task * ) param], child and parent taken
    together: the child's writes feed the parent's reads.  The child runs
    to its end before the parent starts to read; [work_step] below
    interleaves the two.  The child's branch (lines 126-143) falls off the
    end of [thread]: the only thread of the child returns, the child
    process exits as by [exit(0)], and [stdout] is flushed in it. *)
Definition thread (A B : Matrix) (te : thread_env) (t : Task) (w : World)
  : option World :=
  if negb (pipe_ok te) then
    Some (print (chars "Create pipe error." ++ [LF]) w)
  else if fork_ret te <? 0 then
    Some (print (chars "Fork error." ++ [LF]) w)
  else
    let buffer := uninit_chars (stack_junk te) BUF_SIZE in
    child ← thread_child A B t buffer;
    let w := child_exit (unflushed te (console w)) w in
    parent ← thread_parent B t
      {| p_buffer := buffer; p_pipe := c_pipe child; p_m := m w;
         p_reads := [] |};
    let w := set_m (p_m parent) w in
    if negb (open_ok te) then
      Some (print (chars "Cannot open /proc/thread_info." ++ [LF]) w)
    else
      request ← proc_request (fork_ret te);
      '(pos, st) ← proc_write (tasks_now te) request 0 (module w);
      '(_, answer) ← proc_read request pos st;
      Some (print (TAB :: c_str answer) (set_module st w)).

(** ** MT_matrix.c: write_result(), multiply(), main() *)

Record timespec := mk_timespec {
  tv_sec : Z;
  tv_nsec : Z
}.

(** The statics [main] sets before it calls [multiply]. *)
Record Globals := mk_Globals {
  n_thread : Z;
  m1 : Matrix;
  m2 : Matrix
}.

(** What [multiply] obtains from the operating system. *)
Record Os := mk_Os {
  getpid : Z;
  uninit_cell : Z -> Z -> Z;      (* contents of the rows [malloc] returns *)
  uninit_end_row : Z -> Z;        (* contents of [t[n].end_row] after [malloc] *)
  early : Z -> bool;              (* thread [n] copies [*param] before
                                     [multiply] has stored [t[n].end_row] *)
  thread_os : Z -> thread_env;
  fopen_ok : bool;                (* [fopen(out_file, "w") != NULL] *)
  startTime : timespec;           (* the two readings of CLOCK_MONOTONIC *)
  endTime : timespec
}.

(** Lines 201-210: the text of result.txt. *)
Definition result_line (M : Matrix) (text : list ascii) (r : Z)
  : option (list ascii) :=
  line ← for_range 0 (col M)
            (fun text c => v ← get_cell M r c;
                           Some (text ++ fmt_signed v ++ chars " "))
            text;
  Some (line ++ [LF]).

Definition result_text (M : Matrix) : option (list ascii) :=
  for_range 0 (row M) (result_line M)
    (fmt_signed (row M) ++ chars " " ++ fmt_signed (col M) ++ [LF]).

Definition write_result (os : Os) (w : World) : option World :=
  if negb (fopen_ok os) then
    Some (print (chars "Cannot create file result.txt." ++ [LF]) w)
  else
    M ← m w;
    text ← result_text M;
    Some {| m := m w; totalTime := totalTime w; console := console w;
            result_txt := Some text; spawned := spawned w;
            module := module w;
            child_stdout := child_stdout w |}.

(** Line 248 asks for [sizeof(int) * m->col] bytes, [m->col] converted to
    [size_t]: once there is a row to allocate, a negative column count
    makes the request fail. *)
Definition alloc_fails (rows cols : Z) : bool := (0 <? rows) && (cols <? 0).

(** Lines 237-253: the result matrix as allocated, cells not yet written.
    When [alloc_fails] a row is a NULL pointer or was never assigned: it
    has no cell. *)
Definition alloc_matrix (os : Os) (rows cols : Z) : Matrix :=
  {| row := rows; col := cols;
     data := map (fun r => map (uninit_cell os r) (seqZ 0 cols))
                 (seqZ 0 rows) |}.

(** Lines 284-287: [t[n].end_row], for worker [n] entering with
    [start_row].  [/] and [%] of C truncate toward zero ([Z.quot],
    [Z.rem]); the body runs with [0 <= n < n_thread] only, so the divisor
    is positive. *)
Definition task_of (m_row nthread n start : Z) : Task :=
  {| start_row := start;
     end_row :=
       if n <? Z.rem m_row nthread
       then to_int (to_int (start + Z.quot m_row nthread) + 1)
       else to_int (start + Z.quot m_row nthread) |}.

(** Lines 273-290 as far as the array [t] is concerned: the contents of
    [t] when the loop [for (n = 0; n < n_thread; n++)] is over. *)
Fixpoint partition_loop (m_row nthread : Z) (iters : nat) (n start : Z)
  : list Task :=
  match iters with
  | O => []
  | S iters' =>
      let t := task_of m_row nthread n start in
      t :: partition_loop m_row nthread iters' (to_int (n + 1)) (end_row t)
  end.

Definition partition (m_row nthread : Z) : list Task :=
  partition_loop m_row nthread (Z.to_nat nthread) 0 0.

(** Line 277 creates thread [n] after [t[n].start_row] is stored and
    before [t[n].end_row] is: [thread_arg] is the [Task] the thread copies
    at its line 110. *)
Definition thread_arg (os : Os) (n : Z) (t : Task) : Task :=
  if early os n
  then {| start_row := start_row t; end_row := uninit_end_row os n |}
  else t.

Definition thread_args (os : Os) (tasks : list Task) : list (Z * Task) :=
  imap (fun i t => (Z.of_nat i, thread_arg os (Z.of_nat i) t)) tasks.

Definition run_thread (os : Os) (g : Globals) (w : World) (nt : Z * Task)
  : option World :=
  w' ← thread (m1 g) (m2 g) (thread_os os nt.1) nt.2 w;
  Some {| m := m w'; totalTime := totalTime w'; console := console w';
          result_txt := result_txt w'; spawned := spawned w' ++ [nt.2];
          module := module w';
          child_stdout := child_stdout w' |}.

(** [multiply()].  The threads of lines 273-295 are run one after the
    other, in the order [order] lists them (creation order in
    [multiply]); [work_step] below lets them run side by side. *)
Definition multiply_with (order : list (Z * Task) -> list (Z * Task))
    (os : Os) (g : Globals) (w : World) : option World :=
  if negb (col (m1 g) =? row (m2 g)) then
    Some (print (chars "Cannot do matrix multiplication." ++ [LF]) w)
  else
    let w := set_m (Some (alloc_matrix os (row (m1 g)) (col (m2 g)))) w in
    if alloc_fails (row (m1 g)) (col (m2 g)) then
      (* lines 249-252: [m->data[0] == NULL] *)
      Some (print (chars "Malloc failed." ++ [LF]) w)
    else if n_thread g <? 0 then
      (* [malloc(sizeof(pthread_t) * n_thread)] of a negative count *)
      Some (print (chars "Malloc failed." ++ [LF]) w)
    else
      let w := print (chars "PID:" ++ fmt_signed (getpid os) ++ [LF]) w in
      let tasks := partition (row (m1 g)) (n_thread g) in
      w ← for_each (run_thread os g) (order (thread_args os tasks)) w;
      let w := {| m := m w;
                  totalTime :=
                    to_int (to_long (tv_sec (endTime os)
                                     - tv_sec (startTime os)));
                  console := console w; result_txt := result_txt w;
                  spawned := spawned w; module := module w;
                  child_stdout := child_stdout w |} in
      write_result os w.

Definition multiply : Os -> Globals -> World -> option World :=
  multiply_with (fun l => l).

(** [main], from the point where [argv] has been read: [loaded1] and
    [loaded2] are the results of [load_matric]. *)
Definition main (os : Os) (argc : Z) (argv1 : list ascii)
    (loaded1 loaded2 : option Matrix) (w : World) : option World :=
  if negb (argc =? 4) then
    Some (print (chars "Usage: ./MT_matrix [number of worker threads] [file name of input matrix1] [file name of input matrix2]" ++ [LF]) w)
  else
    match loaded1, loaded2 with
    | Some A, Some B =>
        w' ← multiply os {| n_thread := atoi argv1; m1 := A; m2 := B |} w;
        Some (print ([LF] ++ chars "Elapsed Time: " ++
                     fmt_signed (totalTime w') ++ chars " (s)" ++ [LF]) w')
    | _, _ => Some w
    end.

(** The program starts with [m == NULL], [totalTime == 0], nothing
    printed, no result.txt, and the module in state [st]. *)
Definition initial_world (st : procfs) : World :=
  {| m := None; totalTime := 0; console := []; result_txt := None;
     spawned := []; module := st; child_stdout := [] |}.

(** ** Reference notions of the design document *)

(** A matrix as the data model has it: [row] rows of [col] cells, each an
    [int], as are [row] and [col]. *)
Definition wf_matrix (M : Matrix) : Prop :=
  0 <= row M <= INT_MAX /\ 0 <= col M <= INT_MAX /\
  length (data M) = Z.to_nat (row M) /\
  Forall (fun cells => length cells = Z.to_nat (col M) /\ Forall is_int cells)
         (data M).

Definition cell (M : Matrix) (r c : Z) : Z := default 0 (get_cell M r c).

(** The standard product: entry [(r, c)] is the sum over [i] of
    [A[r][i] * B[i][c]], in unbounded integers. *)
Definition math_dot (A B : Matrix) (r c : Z) : Z :=
  foldr Z.add 0 (map (fun i => cell A r i * cell B i c) (seqZ 0 (col A))).

Definition math_product (A B : Matrix) : list (list Z) :=
  map (fun r => map (math_dot A B r) (seqZ 0 (col B))) (seqZ 0 (row A)).

(** The cells of a task in row-major order. *)
Definition task_cells (cols : Z) (t : Task) : list (Z * Z) :=
  r ← seqZ (start_row t) (end_row t - start_row t);
  c ← seqZ 0 cols;
  [(r, c)].

Definition in_task (r : Z) (t : Task) : Prop := start_row t <= r < end_row t.
Definition task_rows (t : Task) : Z := end_row t - start_row t.

(** Elapsed time between two clock readings, in nanoseconds. *)
Definition elapsed_ns (t0 t1 : timespec) : Z :=
  (tv_sec t1 - tv_sec t0) * 1000000000 + (tv_nsec t1 - tv_nsec t0).

Definition wf_timespec (t : timespec) : Prop :=
  0 <= tv_sec t /\ 0 <= tv_nsec t < 1000000000.

(** The record of the design document for an identifier, its user time in
    milliseconds and its number of context switches. *)
Definition record_text (id ms switches : Z) : list ascii :=
  chars "ThreadID:" ++ fmt_signed id ++ chars " Time:" ++ fmt_signed ms ++
  chars "(ms) context switch times:" ++ fmt_signed switches.

Definition wf_task_struct (p : task_struct) : Prop :=
  is_int (pid p) /\ is_ulong (utime p) /\ is_ulong (nvcsw p) /\
  is_ulong (nivcsw p).

Definition wf_procfs (st : procfs) : Prop :=
  Z.of_nat (length (procfs_buffer st)) = PROCFS_MAX_SIZE /\
  0 <= procfs_buffer_size st <= PROCFS_MAX_SIZE.

(** The statics when the module is loaded: a zeroed array, size 0. *)
Definition module_at_load : procfs :=
  {| procfs_buffer := replicate (Z.to_nat PROCFS_MAX_SIZE) NUL;
     procfs_buffer_size := 0 |}.

(** Start of the range of worker [n] in closed form. *)
Definition nth_start (m_row nthread n : Z) : Z :=
  n * (m_row / nthread) + Z.min n (m_row mod nthread).

(** ** Concurrent callers of /proc/thread_info

    The critical section of [thread] (lines 165-180) as a transition
    system: every caller owns a descriptor (its own file position) and a
    buffer; the module's statics and the mutex are shared.  One event is
    one of [pthread_mutex_lock], the [write], the [read],
    [pthread_mutex_unlock], each atomic; a run is any sequence of events
    the callers can take. *)

Inductive pc := AtLock | AtWrite | AtRead | AtUnlock | AtEnd.

Record caller := mk_caller {
  c_pc : pc;
  c_pid : Z;                 (* the value [fork] returned to it *)
  c_pos : Z;                 (* file position of its descriptor *)
  c_buf : list ascii         (* its [buffer] *)
}.

Record channel := mk_channel {
  mutex : option nat;        (* the caller holding [mutex], if any *)
  chan : procfs;
  callers : list caller
}.

Inductive event :=
  | Lock (i : nat)
  | Write (i : nat) (tasks : list task_struct)
  | Read (i : nat)
  | Unlock (i : nat).

Definition pc_eqb (a b : pc) : bool :=
  match a, b with
  | AtLock, AtLock | AtWrite, AtWrite | AtRead, AtRead
  | AtUnlock, AtUnlock | AtEnd, AtEnd => true
  | _, _ => false
  end.

Definition set_caller (i : nat) (c : caller) (s : channel) : channel :=
  {| mutex := mutex s; chan := chan s; callers := <[i := c]> (callers s) |}.

(** [locking = false] is the program with lines 165 and 180 removed. *)
Definition step (locking : bool) (ev : event) (s : channel)
  : option channel :=
  match ev with
  | Lock i =>
      c ← callers s !! i;
      if pc_eqb (c_pc c) AtLock && (negb locking || bool_decide (mutex s = None))
      then Some {| mutex := if locking then Some i else mutex s;
                   chan := chan s;
                   callers := <[i := {| c_pc := AtWrite; c_pid := c_pid c;
                                        c_pos := c_pos c; c_buf := c_buf c |}]>
                                (callers s) |}
      else None
  | Write i tasks =>
      c ← callers s !! i;
      if pc_eqb (c_pc c) AtWrite then
        request ← proc_request (c_pid c);
        '(pos, st) ← proc_write tasks request (c_pos c) (chan s);
        Some {| mutex := mutex s; chan := st;
                callers := <[i := {| c_pc := AtRead; c_pid := c_pid c;
                                     c_pos := pos; c_buf := request |}]>
                             (callers s) |}
      else None
  | Read i =>
      c ← callers s !! i;
      if pc_eqb (c_pc c) AtRead then
        '(pos, answer) ← proc_read (c_buf c) (c_pos c) (chan s);
        Some (set_caller i {| c_pc := AtUnlock; c_pid := c_pid c;
                              c_pos := pos; c_buf := answer |} s)
      else None
  | Unlock i =>
      c ← callers s !! i;
      if pc_eqb (c_pc c) AtUnlock then
        Some {| mutex := if locking then None else mutex s;
                chan := chan s;
                callers := <[i := {| c_pc := AtEnd; c_pid := c_pid c;
                                     c_pos := c_pos c; c_buf := c_buf c |}]>
                             (callers s) |}
      else None
  end.

Definition run (locking : bool) (evs : list event) (s : channel)
  : option channel :=
  for_each (fun s ev => step locking ev s) evs s.

(** Every caller has opened the file and not yet locked. *)
Definition start (pids : list Z) (st : procfs) : channel :=
  {| mutex := None; chan := st;
     callers := map (fun id => {| c_pc := AtLock; c_pid := id; c_pos := 0;
                                  c_buf := [] |}) pids |}.

(** The handler finds a match for the identifier of every write. *)
Definition always_matched (pids : list Z) (evs : list event) : Prop :=
  forall i tasks id, In (Write i tasks) evs -> pids !! i = Some id ->
    exists p, find_task tasks id = Some p.

(** The caller is past its [read]. *)
Definition has_read (c : caller) : Prop :=
  c_pc c = AtUnlock \/ c_pc c = AtEnd.

(** [M] has [rows] rows of [cols] cells allocated. *)
Definition has_shape (M : Matrix) (rows cols : Z) : Prop :=
  row M = rows /\ col M = cols /\
  length (data M) = Z.to_nat rows /\
  Forall (fun cells => length cells = Z.to_nat cols) (data M).

(** The contents of [buffer] after [sprintf(buffer, "%d", v)], when it
    held [prev] before: the message the child writes for the value [v]. *)
Definition message (prev : list ascii) (v : Z) : list ascii :=
  fmt_signed v ++ NUL :: drop (S (length (fmt_signed v))) prev.

(** The messages written for the values [vs] in turn, from a buffer that
    first holds [prev]. *)
Fixpoint messages (prev : list ascii) (vs : list Z) : list (list ascii) :=
  match vs with
  | [] => []
  | v :: vs' => message prev v :: messages (message prev v) vs'
  end.

(** An environment for the examples: every system call succeeds, the
    task list holds the child of the asking worker, allocated cells hold
    -7, every thread copies its completed [Task], and standard output is
    a terminal: each line is written out as it is printed. *)
Definition example_thread_env (n : Z) : thread_env :=
  {| pipe_ok := true; fork_ret := 4001 + n;
     stack_junk := fun _ => "x"%char; stdout_pending := 0%nat;
     open_ok := true;
     tasks_now := [ {| pid := 4001 + n; utime := 2000000;
                       nvcsw := 1; nivcsw := 0 |} ] |}.

Definition example_os (t0 t1 : timespec) : Os :=
  {| getpid := 4000; uninit_cell := fun _ _ => -7;
     uninit_end_row := fun _ => 0; early := fun _ => false;
     thread_os := example_thread_env; fopen_ok := true;
     startTime := t0; endTime := t1 |}.

(** The same, except that worker 0 copies its [Task] before line 285 or
    287 has stored [end_row], finding 0 there. *)
Definition hasty_os (t0 t1 : timespec) : Os :=
  {| getpid := 4000; uninit_cell := fun _ _ => -7;
     uninit_end_row := fun _ => 0; early := fun n => n =? 0;
     thread_os := example_thread_env; fopen_ok := true;
     startTime := t0; endTime := t1 |}.

Definition noon : timespec := {| tv_sec := 43200; tv_nsec := 0 |}.

(** The matrices of scenarios A and B of the design document. *)
Definition matrix_a : Matrix :=
  {| row := 2; col := 2; data := [[1; 2]; [3; 4]] |}.
Definition matrix_b : Matrix :=
  {| row := 2; col := 2; data := [[5; 6]; [7; 8]] |}.

(** A row and a column of 2148 cells, each holding 1000. *)
Definition long_row : Matrix :=
  {| row := 1; col := 2148; data := [replicate 2148 1000] |}.
Definition long_col : Matrix :=
  {| row := 2148; col := 1; data := replicate 2148 [1000] |}.

(** The request caller [id] prepares at lines 169-170. *)
Definition request_of (id : Z) : list ascii :=
  (fmt_signed id ++ [LF]) ++
  NUL :: replicate (998 - length (fmt_signed id)) NUL.

(** Caller [i] holds the answer to a write of its own: some [Write i]
    event of the history found the entry [p] for the caller's identifier,
    and the caller's buffer reads as the text for [p]. *)
Definition answered (hist : list event) (i : nat) (c : caller) : Prop :=
  exists tasks p,
    In (Write i tasks) hist /\ find_task tasks (c_pid c) = Some p /\
    c_str (c_buf c) = thread_info_text p.

(** What holds of caller [i] in a state reached by the events [hist]. *)
Definition caller_ok (hist : list event) (s : channel) (i : nat)
    (c : caller) : Prop :=
  is_int (c_pid c) /\
  match c_pc c with
  | AtLock => mutex s <> Some i /\ c_pos c = 0
  | AtWrite => mutex s = Some i /\ c_pos c = 0
  | AtRead =>
      mutex s = Some i /\
      c_buf c = request_of (c_pid c) /\
      c_pos c = Z.of_nat (length (fmt_signed (c_pid c))) + 1 /\
      exists tasks p rest,
        In (Write i tasks) hist /\ find_task tasks (c_pid c) = Some p /\
        chan s = {| procfs_buffer := thread_info_text p ++ NUL :: rest;
                    procfs_buffer_size :=
                      Z.of_nat (length (thread_info_text p)) |}
  | AtUnlock => mutex s = Some i /\ answered hist i c
  | AtEnd => mutex s <> Some i /\ answered hist i c
  end.

Definition channel_inv (hist : list event) (pids : list Z) (s : channel)
  : Prop :=
  wf_procfs (chan s) /\ map c_pid (callers s) = pids /\
  forall i c, callers s !! i = Some c -> caller_ok hist s i c.

(** ** Workers running side by side (MT_matrix.c:126-155)

    Worker [i] is a thread of the parent process together with the child
    it forked, the two joined by a pipe of their own; the threads share
    [m].  The position of the child in its loops is the list of cells it
    has yet to compute, that of the thread the list of cells it has yet to
    collect.  One event is one pass of a child through lines 134-141 or one
    pass of a thread through lines 152-153; a [read] on a pipe without
    bytes blocks.  A run is any sequence of events the workers can take. *)

Record worker := mk_worker {
  w_child_todo : list (Z * Z);
  w_child_buf : list ascii;       (* [buffer] in the child *)
  w_pipe : list ascii;            (* written to [fd[1]], not yet read *)
  w_parent_todo : list (Z * Z);
  w_parent_buf : list ascii;      (* [buffer] in the thread *)
  w_reads : list (list ascii)     (* what the thread's [read]s returned *)
}.

Record crew := mk_crew {
  crew_m : option Matrix;         (* the global [m] *)
  crew_workers : list worker
}.

Inductive work_event :=
  | ChildCell (i : nat)
  | ParentCell (i : nat).

Definition work_step (A B : Matrix) (ev : work_event) (s : crew)
  : option crew :=
  match ev with
  | ChildCell i =>
      w ← crew_workers s !! i;
      match w_child_todo w with
      | (r, c) :: todo =>
          st ← child_cell A B r
                 {| c_buffer := w_child_buf w; c_pipe := w_pipe w |} c;
          Some {| crew_m := crew_m s;
                  crew_workers :=
                    <[i := {| w_child_todo := todo;
                              w_child_buf := c_buffer st;
                              w_pipe := c_pipe st;
                              w_parent_todo := w_parent_todo w;
                              w_parent_buf := w_parent_buf w;
                              w_reads := w_reads w |}]> (crew_workers s) |}
      | [] => None
      end
  | ParentCell i =>
      w ← crew_workers s !! i;
      match w_parent_todo w, w_pipe w with
      | (r, c) :: todo, _ :: _ =>
          st ← parent_cell r
                 {| p_buffer := w_parent_buf w; p_pipe := w_pipe w;
                    p_m := crew_m s; p_reads := w_reads w |} c;
          Some {| crew_m := p_m st;
                  crew_workers :=
                    <[i := {| w_child_todo := w_child_todo w;
                              w_child_buf := w_child_buf w;
                              w_pipe := p_pipe st;
                              w_parent_todo := todo;
                              w_parent_buf := p_buffer st;
                              w_reads := p_reads st |}]> (crew_workers s) |}
      | _, _ => None
      end
  end.

Definition work_run (A B : Matrix) (evs : list work_event) (s : crew)
  : option crew :=
  for_each (fun s ev => work_step A B ev s) evs s.

(** The workers of the tasks [ts] right after their [fork]s: nothing
    written, nothing read, [junk i] in the buffer of worker [i]. *)
Definition work_start (cols : Z) (ts : list Task) (junk : nat -> nat -> ascii)
    (M : option Matrix) : crew :=
  {| crew_m := M;
     crew_workers :=
       imap (fun i t =>
               {| w_child_todo := task_cells cols t;
                  w_child_buf := uninit_chars (junk i) BUF_SIZE;
                  w_pipe := [];
                  w_parent_todo := task_cells cols t;
                  w_parent_buf := uninit_chars (junk i) BUF_SIZE;
                  w_reads := [] |}) ts |}.

(** Every thread has left its collection loop. *)
Definition all_collected (s : crew) : Prop :=
  forall i w, crew_workers s !! i = Some w -> w_parent_todo w = [].

(** What holds of a worker on the cells [cells], started with [buf0] in
    its buffers, when [m] is [M]: [pre] are the cells collected, [mid] the
    cells written and not yet read, [pend] the messages in the pipe. *)
Definition worker_inv (v : Z * Z -> Z) (cells : list (Z * Z))
    (buf0 : list ascii) (M : Matrix) (w : worker) : Prop :=
  exists pre mid pend,
    cells = pre ++ mid ++ w_child_todo w /\
    w_parent_todo w = mid ++ w_child_todo w /\
    messages buf0 (map v cells) =
      w_reads w ++ pend ++ messages (w_child_buf w) (map v (w_child_todo w)) /\
    w_pipe w = concat pend /\
    Forall2 (fun rc msg => length msg = Z.to_nat BUF_SIZE /\ atoi msg = v rc)
            mid pend /\
    length (w_child_buf w) = Z.to_nat BUF_SIZE /\
    length (w_parent_buf w) = Z.to_nat BUF_SIZE /\
    length (w_reads w) = length pre /\
    forall rc, rc ∈ pre -> get_cell M rc.1 rc.2 = Some (v rc).

Definition crew_inv (A B : Matrix) (ts : list Task)
    (junk : nat -> nat -> ascii) (M0 : Matrix) (s : crew) : Prop :=
  exists M,
    crew_m s = Some M /\ has_shape M (row A) (col B) /\
    (forall r c, (forall t, t ∈ ts -> (r, c) ∉ task_cells (col B) t) ->
       get_cell M r c = get_cell M0 r c) /\
    length (crew_workers s) = length ts /\
    forall i w t, crew_workers s !! i = Some w -> ts !! i = Some t ->
      worker_inv (fun rc => to_int (math_dot A B rc.1 rc.2))
                 (task_cells (col B) t) (uninit_chars (junk i) BUF_SIZE) M w.

(** Passes through the loop bodies the workers have yet to make. *)
Definition work_left (s : crew) : nat :=
  sum_list (map (fun w => (length (w_child_todo w)
                           + length (w_parent_todo w))%nat)
                (crew_workers s)).

(** One call of [procfile_write], as the module may receive them in turn. *)
Record write_call := mk_write_call {
  wc_tasks : list task_struct;
  wc_buff : list ascii;
  wc_len : Z;
  wc_off : Z
}.

Definition write_calls (calls : list write_call) (st : procfs)
  : option procfs :=
  for_each (fun st q =>
              '(_, _, st') ← procfile_write (wc_tasks q) (wc_buff q)
                                            (wc_len q) (wc_off q) st;
              Some st') calls st.

(** The worker gets past lines 114-125 of [thread]: [pipe] and [fork]
    both succeed. *)
Definition worker_ok (te : thread_env) : bool :=
  pipe_ok te && negb (fork_ret te <? 0).

(** The environment of the examples, except that [pipe] fails in
    worker 1. *)
Definition faulty_os (t0 t1 : timespec) : Os :=
  {| getpid := 4000; uninit_cell := fun _ _ => -7;
     uninit_end_row := fun _ => 0; early := fun _ => false;
     thread_os := fun n =>
       {| pipe_ok := negb (n =? 1); fork_ret := 4001 + n;
          stack_junk := fun _ => "x"%char; stdout_pending := 0%nat;
          open_ok := true;
          tasks_now := [ {| pid := 4001 + n; utime := 2000000;
                            nvcsw := 1; nivcsw := 0 |} ] |};
     fopen_ok := true; startTime := t0; endTime := t1 |}.

(** The environment of the examples with standard output on a pipe:
    [stdout] is fully buffered, and the little the program prints stays in
    its buffer until the program ends. *)
Definition piped_thread_env (n : Z) : thread_env :=
  {| pipe_ok := true; fork_ret := 4001 + n;
     stack_junk := fun _ => "x"%char; stdout_pending := 4096%nat;
     open_ok := true;
     tasks_now := [ {| pid := 4001 + n; utime := 2000000;
                       nvcsw := 1; nivcsw := 0 |} ] |}.


(** The caller is between [pthread_mutex_lock] and [pthread_mutex_unlock]
    (lines 166-179). *)
Definition in_critical_section (c : caller) : Prop :=
  c_pc c = AtWrite \/ c_pc c = AtRead \/ c_pc c = AtUnlock.

Definition lock_inv (s : channel) : Prop :=
  (forall i c, callers s !! i = Some c -> in_critical_section c ->
     mutex s = Some i) /\
  (forall i, mutex s = Some i -> is_Some (callers s !! i)).

(** ** MT_matrix.c: load_matric(), and main() from its arguments *)

(** [fscanf(fp, "%d", &x)] on a stream whose unread characters are [s]:
    the value stored in [x], if any, and the characters left unread.
    White space is skipped; a sign and the digits after it are read; the
    character after them stays unread.  Without a digit nothing is stored
    (a sign, if there was one, has been read).  The digits are converted
    as by [strtol] and the result is stored as an [int]. *)
Definition fscanf_d (s : list ascii) : option Z * list ascii :=
  match skip_space s with
  | [] => (None, [])
  | c :: rest =>
      let neg := Ascii.eqb c "-"%char in
      let body := if neg || Ascii.eqb c "+"%char then rest else c :: rest in
      let '(v, count, rest') := scan_digits 0 0 body in
      if decide (count = 0%nat) then (None, body)
      else (Some (to_int (clamp_long (if neg then - v else v))), rest')
  end.

(** What one call of [load_matric] obtains from the operating system. *)
Record Loader := mk_Loader {
  ld_file : option (list ascii);  (* the file, when [fopen] succeeds *)
  ld_row : Z;                     (* [m->row], [m->col] as [malloc] left them *)
  ld_col : Z;
  ld_cell : Z -> Z -> Z           (* the rows as [malloc] left them *)
}.

(** Lines 74-81: the rows as allocated. *)
Definition alloc_rows (junk : Z -> Z -> Z) (rows cols : Z) : list (list Z) :=
  map (fun r => map (junk r) (seqZ 0 cols)) (seqZ 0 rows).

(** Line 86: [fscanf(fp, "%d", &(m->data[r][c]))]; the return value is not
    looked at, and a cell for which nothing is stored keeps its
    contents. *)
Definition load_cell (r : Z) (st : list ascii * Matrix) (c : Z)
  : option (list ascii * Matrix) :=
  let '(ov, rest) := fscanf_d st.1 in
  match ov with
  | Some v => M' ← set_cell st.2 r c v; Some (rest, M')
  | None => Some (rest, st.2)
  end.

(** [load_matric(filename)]: the matrix returned ([None] is NULL) and the
    world, in which a message may have been printed.  [malloc] of
    [sizeof(int) * m->col] fails when [m->col] is negative. *)
Definition load_matric (ld : Loader) (filename : list ascii) (w : World)
  : option (option Matrix * World) :=
  match ld_file ld with
  | None =>
      Some (None, print (chars "File not found: " ++ filename ++ [LF]) w)
  | Some text =>
      let '(orow, s1) := fscanf_d text in
      let rows := default (ld_row ld) orow in
      let '(ocol, s2) := fscanf_d s1 in
      let cols := default (ld_col ld) ocol in
      if (0 <? rows) && (cols <? 0) then
        Some (None, print (chars "Malloc failed." ++ [LF]) w)
      else
        let M := {| row := rows; col := cols;
                    data := alloc_rows (ld_cell ld) rows cols |} in
        '(_, M') ← for_range 0 rows
                     (fun st r => for_range 0 cols (load_cell r) st) (s2, M);
        Some (Some M', w)
  end.

(** [main(argc, argv)] from its arguments: [ld1] and [ld2] are what the
    two calls of [load_matric] find. *)
Definition main_argv (os : Os) (ld1 ld2 : Loader) (argv : list (list ascii))
    (w : World) : option World :=
  match argv with
  | [_; a1; a2; a3] =>
      '(loaded1, w1) ← load_matric ld1 a2 w;
      '(loaded2, w2) ← load_matric ld2 a3 w1;
      main os 4 a1 loaded1 loaded2 w2
  | _ => main os (Z.of_nat (length argv)) [] None None w
  end.

(** The stream does not go on with a digit. *)
Definition no_digit_ahead (s : list ascii) : Prop :=
  match s with
  | [] => True
  | c :: _ => is_digit c = false
  end.

Definition blank (ws : list ascii) : Prop :=
  Forall (fun c => isspace c = true) ws.

(** The line [write_result] prints for row [r] (lines 206-209). *)
Definition row_text (M : Matrix) (cols r : Z) : list ascii :=
  concat (map (fun c => fmt_signed (cell M r c) ++ chars " ") (seqZ 0 cols))
  ++ [LF].

(** * Part II: proofs *)

#[global] Arguments thread_info_text : simpl never.
#[global] Arguments fmt_signed : simpl never.
#[global] Arguments fmt_unsigned : simpl never.
#[global] Arguments chars : simpl never.
#[global] Arguments to_int : simpl never.
#[global] Arguments to_long : simpl never.
#[global] Arguments to_ulong : simpl never.

(** ** Machine integers *)

Lemma to_int_id z : is_int z -> to_int z = z.
Proof.
  unfold is_int, INT_MIN, INT_MAX, to_int, wrap_signed. intros H.
  change (2 ^ (32 - 1)) with 2147483648. change (2 ^ 32) with 4294967296.
  rewrite Z.mod_small; lia.
Qed.

Lemma to_int_range z : is_int (to_int z).
Proof.
  unfold is_int, INT_MIN, INT_MAX, to_int, wrap_signed.
  change (2 ^ (32 - 1)) with 2147483648. change (2 ^ 32) with 4294967296.
  pose proof (Z.mod_pos_bound (z + 2147483648) 4294967296). lia.
Qed.

Lemma to_long_id z : is_long z -> to_long z = z.
Proof.
  unfold is_long, LONG_MIN, LONG_MAX, to_long, wrap_signed. intros H.
  change (2 ^ (64 - 1)) with 9223372036854775808.
  change (2 ^ 64) with 18446744073709551616.
  rewrite Z.mod_small; lia.
Qed.

Lemma to_ulong_id z : is_ulong z -> to_ulong z = z.
Proof.
  unfold is_ulong, ULLONG_MAX, to_ulong, wrap_unsigned. intros H.
  change (2 ^ 64) with 18446744073709551616.
  rewrite Z.mod_small; lia.
Qed.

Lemma is_int_is_long z : is_int z -> is_long z.
Proof. unfold is_int, is_long, INT_MIN, INT_MAX, LONG_MIN, LONG_MAX. lia. Qed.

(** The wrap is a ring morphism modulo [2^32]: a sum of wrapped products
    wraps to the wrap of the exact sum. *)
Lemma to_int_spec z : exists k, to_int z = z + k * 4294967296.
Proof.
  unfold to_int, wrap_signed.
  change (2 ^ (32 - 1)) with 2147483648. change (2 ^ 32) with 4294967296.
  exists (- ((z + 2147483648) / 4294967296)).
  pose proof (Z.div_mod (z + 2147483648) 4294967296). lia.
Qed.

Lemma to_int_congr x y k : x = y + k * 4294967296 -> to_int x = to_int y.
Proof.
  intros ->. unfold to_int, wrap_signed.
  change (2 ^ (32 - 1)) with 2147483648. change (2 ^ 32) with 4294967296.
  replace (y + k * 4294967296 + 2147483648)
    with (y + 2147483648 + k * 4294967296) by lia.
  by rewrite Z.mod_add by lia.
Qed.

Lemma to_int_add_mul s a b :
  to_int (to_int s + to_int (a * b)) = to_int (s + a * b).
Proof.
  destruct (to_int_spec s) as [k1 ->]. destruct (to_int_spec (a * b)) as [k2 ->].
  apply (to_int_congr _ _ (k1 + k2)). lia.
Qed.

(** ** Decimal conversion: [sprintf] against [atoi] and [kstrtoint] *)

Lemma char_code_digit_char d : 0 <= d <= 9 -> char_code (digit_char d) = 48 + d.
Proof.
  intros Hd. unfold char_code, digit_char.
  rewrite nat_ascii_embedding by lia. lia.
Qed.

Lemma is_digit_digit_char d : 0 <= d <= 9 -> is_digit (digit_char d) = true.
Proof.
  intros Hd. unfold is_digit. rewrite char_code_digit_char by done.
  apply andb_true_iff. split; apply Z.leb_le; lia.
Qed.

Lemma digit_val_digit_char d : 0 <= d <= 9 -> digit_val (digit_char d) = d.
Proof. intros Hd. unfold digit_val. rewrite char_code_digit_char by done. lia. Qed.

Lemma dec_digits_app fuel n tail :
  dec_digits fuel n tail = dec_digits fuel n [] ++ tail.
Proof.
  revert n tail. induction fuel as [|fuel IH]; intros n tail; [done|].
  cbn [dec_digits]. destruct (n <? 10); [done|].
  rewrite (IH _ (_ :: tail)), (IH _ [_]). by rewrite <- app_assoc.
Qed.

Lemma dec_digits_length fuel n :
  (length (dec_digits fuel n []) <= fuel)%nat /\
  (fuel <> 0%nat -> dec_digits fuel n [] <> []).
Proof.
  revert n. induction fuel as [|fuel IH]; intros n; [done|].
  cbn [dec_digits]. destruct (n <? 10).
  - cbn. split; [lia|done].
  - rewrite dec_digits_app, length_app. destruct (IH (n / 10)) as [IH1 _].
    cbn. split; [lia|]. intros _ Heq. by apply app_eq_nil in Heq as [_ ?].
Qed.

Lemma dec_digits_are_digits fuel n : 0 <= n ->
  Forall (fun c => is_digit c = true) (dec_digits fuel n []).
Proof.
  revert n. induction fuel as [|fuel IH]; intros n Hn; [constructor|].
  cbn [dec_digits].
  assert (is_digit (digit_char (n mod 10)) = true) as Hd.
  { apply is_digit_digit_char. pose proof (Z.mod_pos_bound n 10). lia. }
  destruct (n <? 10).
  - by repeat constructor.
  - rewrite dec_digits_app. apply Forall_app. split.
    + apply IH. apply Z.div_pos; lia.
    + by repeat constructor.
Qed.

Lemma dec_digits_value fuel n a : 0 <= n < 10 ^ Z.of_nat fuel ->
  foldl (fun a c => a * 10 + digit_val c) a (dec_digits fuel n []) =
  a * 10 ^ Z.of_nat (length (dec_digits fuel n [])) + n.
Proof.
  revert n a. induction fuel as [|fuel IH]; intros n a Hn.
  - cbn in *. lia.
  - cbn [dec_digits].
    pose proof (Z.mod_pos_bound n 10 ltac:(lia)) as Hm.
    pose proof (Z.div_mod n 10 ltac:(lia)) as Hdm.
    destruct (Z.ltb_spec n 10).
    + cbn. rewrite digit_val_digit_char by lia.
      rewrite Z.mod_small by lia. lia.
    + rewrite dec_digits_app, foldl_app, length_app. cbn [foldl length].
      rewrite digit_val_digit_char by lia. rewrite IH.
      * rewrite Nat2Z.inj_add, Z.pow_add_r by lia.
        change (10 ^ Z.of_nat 1) with 10. lia.
      * split; [apply Z.div_pos; lia|].
        apply Z.div_lt_upper_bound; [lia|].
        rewrite Nat2Z.inj_succ, Z.pow_succ_r in Hn by lia. lia.
Qed.

Lemma scan_digits_app ds rest a count :
  Forall (fun c => is_digit c = true) ds ->
  scan_digits a count (ds ++ rest) =
  scan_digits (foldl (fun a c => a * 10 + digit_val c) a ds)
              (count + length ds) rest.
Proof.
  intros Hds. revert a count.
  induction Hds as [|c ds Hc _ IH]; intros a count.
  - cbn. by rewrite Nat.add_0_r.
  - cbn [app scan_digits foldl length]. rewrite Hc, IH. f_equal. lia.
Qed.

(** Scanning the digits [sprintf] printed for [n], followed by something
    that is not a digit. *)
Lemma scan_fmt_unsigned n c rest : 0 <= n <= ULLONG_MAX -> is_digit c = false ->
  exists k, k <> 0%nat /\
    scan_digits 0 0 (fmt_unsigned n ++ c :: rest) = (n, k, c :: rest).
Proof.
  intros Hn Hc. unfold fmt_unsigned.
  exists (length (dec_digits 20 n [])). split.
  - destruct (dec_digits_length 20 n) as [_ Hne].
    destruct (dec_digits 20 n []); [by destruct Hne|done].
  - rewrite scan_digits_app by (apply dec_digits_are_digits; lia).
    rewrite dec_digits_value by (unfold ULLONG_MAX in Hn; cbn; lia).
    cbn [scan_digits]. rewrite Hc. f_equal.
Qed.

Lemma fmt_unsigned_length n : (1 <= length (fmt_unsigned n) <= 20)%nat.
Proof.
  unfold fmt_unsigned. destruct (dec_digits_length 20 n) as [Hle Hne].
  split; [|done]. destruct (dec_digits 20 n []); [by destruct Hne|cbn; lia].
Qed.

Lemma fmt_signed_length z : (1 <= length (fmt_signed z) <= 21)%nat.
Proof.
  unfold fmt_signed. destruct (z <? 0); cbn [length].
  - pose proof (fmt_unsigned_length (- z)). lia.
  - pose proof (fmt_unsigned_length z). lia.
Qed.

Lemma is_digit_not_nul c : is_digit c = true -> is_nul c = false.
Proof.
  unfold is_digit, is_nul. intros [H1 H2]%andb_true_iff.
  apply Z.leb_le in H1. apply Z.eqb_neq. lia.
Qed.

Lemma is_nul_NUL c : is_nul c = true <-> c = NUL.
Proof.
  unfold is_nul, char_code. split.
  - intros H%Z.eqb_eq. apply (f_equal Z.to_nat) in H. rewrite Nat2Z.id in H.
    rewrite <- (ascii_nat_embedding c), H. done.
  - by intros ->.
Qed.

Lemma fmt_unsigned_first n : 0 <= n ->
  exists d ds, fmt_unsigned n = d :: ds /\ is_digit d = true.
Proof.
  intros Hn. pose proof (fmt_unsigned_length n) as Hl.
  pose proof (dec_digits_are_digits 20 n Hn) as Hd. fold (fmt_unsigned n) in Hd.
  destruct (fmt_unsigned n) as [|d ds]; [cbn in Hl; lia|].
  exists d, ds. split; [done|]. by inversion Hd.
Qed.

Lemma fmt_signed_no_nul z : Forall (fun c => is_nul c = false) (fmt_signed z).
Proof.
  unfold fmt_signed. destruct (Z.ltb_spec z 0).
  - constructor; [done|]. unfold fmt_unsigned.
    pose proof (dec_digits_are_digits 20 (- z) ltac:(lia)) as Hd.
    induction Hd; constructor; auto using is_digit_not_nul.
  - unfold fmt_unsigned.
    pose proof (dec_digits_are_digits 20 z ltac:(lia)) as Hd.
    induction Hd; constructor; auto using is_digit_not_nul.
Qed.

Lemma is_digit_not_special c : is_digit c = true ->
  isspace c = false /\ Ascii.eqb c "-"%char = false /\
  Ascii.eqb c "+"%char = false /\ Ascii.eqb c LF = false.
Proof.
  unfold is_digit, isspace. intros [H1 H2]%andb_true_iff.
  apply Z.leb_le in H1. apply Z.leb_le in H2.
  repeat split.
  - apply orb_false_iff. split; [apply Z.eqb_neq; lia|].
    apply andb_false_iff. right. apply Z.leb_gt. lia.
  - apply Ascii.eqb_neq. intros ->. change (48 <= 45) in H1. lia.
  - apply Ascii.eqb_neq. intros ->. change (48 <= 43) in H1. lia.
  - apply Ascii.eqb_neq. intros ->. change (48 <= 10) in H1. lia.
Qed.

Lemma c_str_app text rest :
  Forall (fun c => is_nul c = false) text ->
  c_str (text ++ NUL :: rest) = text.
Proof.
  induction 1 as [|c text Hc _ IH]; [done|].
  cbn [app c_str]. by rewrite Hc, IH.
Qed.

Lemma strlen_app text rest :
  Forall (fun c => is_nul c = false) text ->
  strlen (text ++ NUL :: rest) = Z.of_nat (length text).
Proof. intros H. unfold strlen. by rewrite c_str_app. Qed.

(** [atoi] reads back what [sprintf("%d")] printed, whatever follows the
    terminating NUL. *)
Lemma atoi_fmt_signed z rest : is_int z ->
  atoi (fmt_signed z ++ NUL :: rest) = z.
Proof.
  intros Hz. unfold atoi. rewrite <- (to_int_id z Hz) at 2. f_equal.
  assert (clamp_long z = z) as Hclamp.
  { unfold clamp_long, LONG_MIN, LONG_MAX.
    unfold is_int, INT_MIN, INT_MAX in Hz. lia. }
  unfold strtol, fmt_signed. destruct (Z.ltb_spec z 0).
  - cbn [app skip_space]. change (isspace "-") with false. cbv iota.
    change (Ascii.eqb "-" "-") with true. cbv iota.
    destruct (scan_fmt_unsigned (- z) NUL rest) as (k & _ & ->); [|done|].
    { unfold is_int, INT_MIN, ULLONG_MAX in *. lia. }
    cbn. by rewrite Z.opp_involutive.
  - destruct (fmt_unsigned_first z) as (d & ds & Heq & Hd); [done|].
    destruct (is_digit_not_special d Hd) as (Hsp & Hm & Hp & _).
    rewrite Heq. cbn [app skip_space]. rewrite Hsp, Hm, Hp.
    change (d :: ds ++ NUL :: rest) with ((d :: ds) ++ NUL :: rest).
    rewrite <- Heq.
    destruct (scan_fmt_unsigned z NUL rest) as (k & _ & ->); [|done|done].
    unfold is_int, INT_MAX, ULLONG_MAX in *. lia.
Qed.

Lemma kstrtoull_fmt_unsigned n rest : 0 <= n <= ULLONG_MAX ->
  _kstrtoull (fmt_unsigned n ++ LF :: NUL :: rest) = Some n.
Proof.
  intros Hn. unfold _kstrtoull.
  destruct (scan_fmt_unsigned n LF (NUL :: rest)) as (k & Hk & ->); [done..|].
  destruct (Z.ltb_spec ULLONG_MAX n); [lia|].
  destruct (decide (k = 0%nat)); [done|].
  change (Ascii.eqb LF LF) with true. cbv iota. done.
Qed.

(** [kstrtoint] reads back a decimal [int] followed by a newline. *)
Lemma kstrtoint_fmt_signed z rest : is_int z ->
  kstrtoint (fmt_signed z ++ LF :: NUL :: rest) = Some z.
Proof.
  intros Hz. pose proof (is_int_is_long z Hz) as Hl.
  unfold kstrtoint, kstrtoll, fmt_signed. destruct (Z.ltb_spec z 0).
  - cbn [app]. change (Ascii.eqb "-" "-") with true. cbv iota.
    rewrite kstrtoull_fmt_unsigned
      by (unfold is_int, INT_MIN, ULLONG_MAX in *; lia).
    cbn [mbind option_bind]. rewrite Z.opp_involutive, (to_long_id z Hl).
    destruct (Z.ltb_spec 0 z); [lia|]. cbn [mbind option_bind].
    rewrite (to_int_id z Hz), Z.eqb_refl. done.
  - destruct (fmt_unsigned_first z) as (d & ds & Heq & Hd); [done|].
    destruct (is_digit_not_special d Hd) as (_ & Hm & Hp & _).
    rewrite Heq. cbn [app]. rewrite Hm. unfold kstrtoull. rewrite Hp.
    change (d :: ds ++ LF :: NUL :: rest) with ((d :: ds) ++ LF :: NUL :: rest).
    rewrite <- Heq.
    rewrite kstrtoull_fmt_unsigned
      by (unfold is_int, INT_MAX, ULLONG_MAX in *; lia).
    cbn [mbind option_bind]. rewrite (to_long_id z Hl).
    destruct (Z.ltb_spec z 0); [lia|]. cbn [mbind option_bind].
    rewrite (to_int_id z Hz), Z.eqb_refl. done.
Qed.

(** ** Arrays of [char] *)

Lemma store_bytes_0 src buf : (length src <= length buf)%nat ->
  store_bytes 0 src buf = Some (src ++ drop (length src) buf).
Proof.
  intros Hle. unfold store_bytes. rewrite Nat.add_0_l.
  destruct (decide _); [|lia]. done.
Qed.

Lemma store_bytes_length pos src buf buf' :
  store_bytes pos src buf = Some buf' -> length buf' = length buf.
Proof.
  unfold store_bytes. destruct (decide _) as [Hle|]; [|done].
  intros [= <-]. rewrite !length_app, length_take, length_drop. lia.
Qed.

Lemma store_byte_length i c buf buf' :
  store_byte i c buf = Some buf' -> length buf' = length buf.
Proof.
  unfold store_byte. destruct (decide _); [|done].
  intros [= <-]. apply length_insert.
Qed.

Lemma sprintf_ok buf text : (length text < length buf)%nat ->
  sprintf buf text = Some (text ++ NUL :: drop (S (length text)) buf).
Proof.
  intros Hlt. unfold sprintf. rewrite store_bytes_0.
  - rewrite <- app_assoc, length_app. cbn. do 4 f_equal. lia.
  - rewrite length_app. cbn. lia.
Qed.

(** ** My_proc.c: procfile_write, lines 104-117 *)

Lemma land_max_size size : 0 <= size ->
  Z.land size (PROCFS_MAX_SIZE - 1) = size mod PROCFS_MAX_SIZE.
Proof.
  intros H. change (PROCFS_MAX_SIZE - 1) with (Z.ones 10).
  by rewrite Z.land_ones.
Qed.

Lemma clamp_size len : 0 <= len <= MAX_RW_COUNT ->
  (if PROCFS_MAX_SIZE <? to_long len then PROCFS_MAX_SIZE else to_long len)
  = Z.min len PROCFS_MAX_SIZE.
Proof.
  intros Hlen. rewrite to_long_id
    by (unfold is_long, LONG_MIN, LONG_MAX, MAX_RW_COUNT in *; lia).
  destruct (Z.ltb_spec PROCFS_MAX_SIZE len); lia.
Qed.

(** The bytes were readable: the copy succeeds and the terminator is stored
    at [size & (PROCFS_MAX_SIZE - 1)], inside the array. *)
Lemma procfile_write_accept_ok buff len off st :
  wf_procfs st -> 0 <= len <= MAX_RW_COUNT ->
  Z.min len PROCFS_MAX_SIZE <= Z.of_nat (length buff) ->
  procfile_write_accept buff len off st =
  Some (Accepted (to_long (off + Z.min len PROCFS_MAX_SIZE))
    {| procfs_buffer :=
         <[Z.to_nat (Z.min len PROCFS_MAX_SIZE mod PROCFS_MAX_SIZE) := NUL]>
           (take (Z.to_nat (Z.min len PROCFS_MAX_SIZE)) buff ++
            drop (Z.to_nat (Z.min len PROCFS_MAX_SIZE)) (procfs_buffer st));
       procfs_buffer_size := Z.min len PROCFS_MAX_SIZE |}).
Proof.
  intros [Hlen _] Hl Hread. unfold procfile_write_accept.
  rewrite clamp_size by done. set (size := Z.min len PROCFS_MAX_SIZE) in *.
  assert (0 <= size <= PROCFS_MAX_SIZE) as Hsize by (subst size; lia).
  unfold copy_from_user.
  destruct (Z.ltb_spec size 0); [lia|].
  destruct (Z.ltb_spec (Z.of_nat (length (procfs_buffer st))) size); [lia|].
  cbn [orb].
  assert (length (take (Z.to_nat size) buff) = Z.to_nat size) as Htake
    by (rewrite length_take; lia).
  rewrite Htake, Nat.sub_diag. cbn [replicate]. rewrite app_nil_r.
  rewrite store_bytes_0 by lia. rewrite Htake. cbn.
  rewrite land_max_size by lia. unfold store_byte.
  pose proof (Z.mod_pos_bound size PROCFS_MAX_SIZE ltac:(done)).
  rewrite length_app, Htake, length_drop.
  destruct (decide _) as [_|Hn]; [done|]. lia.
Qed.

(** Part of the bytes was unreadable: [-EFAULT], with the size assigned
    and the readable bytes, zero-padded, in the buffer. *)
Lemma procfile_write_accept_fault buff len off st :
  wf_procfs st -> 0 <= len <= MAX_RW_COUNT ->
  Z.of_nat (length buff) < Z.min len PROCFS_MAX_SIZE ->
  procfile_write_accept buff len off st =
  Some (Faulted
    {| procfs_buffer :=
         (buff ++ replicate (Z.to_nat (Z.min len PROCFS_MAX_SIZE)
                             - length buff) NUL)
         ++ drop (Z.to_nat (Z.min len PROCFS_MAX_SIZE)) (procfs_buffer st);
       procfs_buffer_size := Z.min len PROCFS_MAX_SIZE |}).
Proof.
  intros [Hlen _] Hl Hread. unfold procfile_write_accept.
  rewrite clamp_size by done. set (size := Z.min len PROCFS_MAX_SIZE) in *.
  assert (0 <= size <= PROCFS_MAX_SIZE) as Hsize by (subst size; lia).
  unfold copy_from_user.
  destruct (Z.ltb_spec size 0); [lia|].
  destruct (Z.ltb_spec (Z.of_nat (length (procfs_buffer st))) size); [lia|].
  cbn [orb]. rewrite take_ge by lia.
  rewrite store_bytes_0 by (rewrite length_app, length_replicate; lia).
  rewrite length_app, length_replicate. cbn.
  destruct (Z.eqb_spec (Z.of_nat (Z.to_nat size - length buff)) 0); [lia|].
  cbn [negb].
  by replace (length buff + (Z.to_nat size - length buff))%nat
    with (Z.to_nat size) by lia.
Qed.

Lemma procfile_write_accept_cases buff len off st :
  wf_procfs st -> 0 <= len <= MAX_RW_COUNT ->
  exists r, procfile_write_accept buff len off st = Some r /\
    match r with
    | Faulted st' =>
        Z.of_nat (length buff) < Z.min len PROCFS_MAX_SIZE /\ wf_procfs st'
    | Accepted off1 st1 =>
        Z.min len PROCFS_MAX_SIZE <= Z.of_nat (length buff) /\
        off1 = to_long (off + Z.min len PROCFS_MAX_SIZE) /\
        st1 = {| procfs_buffer :=
                   <[Z.to_nat (Z.min len PROCFS_MAX_SIZE mod PROCFS_MAX_SIZE)
                     := NUL]>
                     (take (Z.to_nat (Z.min len PROCFS_MAX_SIZE)) buff ++
                      drop (Z.to_nat (Z.min len PROCFS_MAX_SIZE))
                           (procfs_buffer st));
                 procfs_buffer_size := Z.min len PROCFS_MAX_SIZE |} /\
        wf_procfs st1
    end.
Proof.
  intros Hwf Hlen. pose proof Hwf as [Hbuf _].
  destruct (Z.le_gt_cases (Z.min len PROCFS_MAX_SIZE) (Z.of_nat (length buff)))
    as [Hr|Hr].
  - eexists. split; [by apply procfile_write_accept_ok|].
    repeat split; try done; cbn.
    + rewrite length_insert, length_app, length_take, length_drop. lia.
    + lia.
    + lia.
  - eexists. split; [by apply procfile_write_accept_fault|].
    repeat split; try done; cbn.
    + rewrite !length_app, length_replicate, length_drop. lia.
    + lia.
    + lia.
Qed.

Lemma no_nul_chars s :
  forallb (fun c => negb (is_nul c)) (chars s) = true ->
  Forall (fun c => is_nul c = false) (chars s).
Proof.
  generalize (chars s). intros l. induction l as [|c l IH]; cbn; [done|].
  intros [Hc Hl]%andb_true_iff. constructor; [|by apply IH].
  by apply negb_true_iff.
Qed.

Lemma thread_info_text_no_nul p :
  Forall (fun c => is_nul c = false) (thread_info_text p).
Proof.
  unfold thread_info_text.
  repeat (apply Forall_app; split);
    try apply fmt_signed_no_nul; try (by apply no_nul_chars).
  by repeat constructor.
Qed.

Lemma thread_info_text_length p :
  (45 <= length (thread_info_text p) <= 105)%nat.
Proof.
  unfold thread_info_text. rewrite !length_app.
  pose proof (fmt_signed_length (to_int (pid p))).
  pose proof (fmt_signed_length (to_long (utime p / 1000 / 1000))).
  pose proof (fmt_signed_length (to_long (to_ulong (nvcsw p + nivcsw p)))).
  change (length (chars "ThreadID:")) with 9%nat.
  change (length (chars " Time:")) with 6%nat.
  change (length (chars "(ms) context switch times:")) with 26%nat.
  cbn [length]. lia.
Qed.

(** The three ways out of [procfile_write] once the bytes are accepted. *)
Lemma procfile_write_parse_error tasks buff len off st off1 st1 :
  procfile_write_accept buff len off st = Some (Accepted off1 st1) ->
  kstrtoint (procfs_buffer st1) = None ->
  procfile_write tasks buff len off st = Some (0, off1, st1).
Proof. intros Ha Hk. unfold procfile_write. rewrite Ha. cbn. by rewrite Hk. Qed.

Lemma procfile_write_no_match tasks buff len off st off1 st1 id :
  procfile_write_accept buff len off st = Some (Accepted off1 st1) ->
  kstrtoint (procfs_buffer st1) = Some id ->
  find_task tasks id = None ->
  procfile_write tasks buff len off st =
  Some (procfs_buffer_size st1, off1, st1).
Proof.
  intros Ha Hk Hf. unfold procfile_write. rewrite Ha. cbn. by rewrite Hk, Hf.
Qed.

Lemma procfile_write_match tasks buff len off st off1 st1 id p :
  procfile_write_accept buff len off st = Some (Accepted off1 st1) ->
  Z.of_nat (length (procfs_buffer st1)) = PROCFS_MAX_SIZE ->
  kstrtoint (procfs_buffer st1) = Some id ->
  find_task tasks id = Some p ->
  procfile_write tasks buff len off st =
  Some (Z.of_nat (length (thread_info_text p)), off1,
        {| procfs_buffer :=
             thread_info_text p ++
             NUL :: drop (S (length (thread_info_text p))) (procfs_buffer st1);
           procfs_buffer_size := Z.of_nat (length (thread_info_text p)) |}).
Proof.
  intros Ha Hl Hk Hf. unfold procfile_write. rewrite Ha.
  cbn [mbind option_bind]. rewrite Hk, Hf.
  pose proof (thread_info_text_length p).
  rewrite sprintf_ok by (unfold PROCFS_MAX_SIZE in Hl; lia).
  cbn [mbind option_bind procfs_buffer_size].
  by rewrite strlen_app by apply thread_info_text_no_nul.
Qed.

Lemma find_task_pid tasks id p :
  find_task tasks id = Some p -> to_int (pid p) = id /\ In p tasks.
Proof.
  unfold find_task. intros H. apply List.find_some in H as [Hin Heq].
  by apply Z.eqb_eq in Heq.
Qed.

Lemma strlen_le_nul buf i : buf !! i = Some NUL -> strlen buf <= Z.of_nat i.
Proof.
  unfold strlen. revert i. induction buf as [|c buf IH]; intros i Hi; [done|].
  cbn [c_str]. destruct (is_nul c) eqn:Hc; [cbn; lia|].
  destruct i as [|i]; cbn in Hi.
  - inversion Hi; subst. done.
  - apply IH in Hi. cbn [length]. lia.
Qed.

Lemma kstrtoint_nul rest : kstrtoint (NUL :: rest) = None.
Proof. reflexivity. Qed.

Lemma kstrtoint_nil : kstrtoint [] = None.
Proof. reflexivity. Qed.

(** A write that parses was shorter than the array: with [PROCFS_MAX_SIZE]
    bytes or more (or none) the terminator falls on [procfs_buffer[0]]. *)
Lemma parsed_write_is_short buff len off st off1 st1 id :
  wf_procfs st -> 0 <= len <= MAX_RW_COUNT ->
  procfile_write_accept buff len off st = Some (Accepted off1 st1) ->
  kstrtoint (procfs_buffer st1) = Some id ->
  1 <= len < PROCFS_MAX_SIZE.
Proof.
  intros Hwf Hlen Ha Hk. pose proof Hwf as [Hbuf _].
  destruct (procfile_write_accept_cases buff len off st Hwf Hlen)
    as (r & Hr & Hcase).
  rewrite Ha in Hr. injection Hr as <-.
  destruct Hcase as (Hread & -> & -> & _). cbn in Hk.
  destruct (decide (1 <= len < PROCFS_MAX_SIZE)) as [|Hn]; [done|exfalso].
  assert (Z.min len PROCFS_MAX_SIZE mod PROCFS_MAX_SIZE = 0) as Hz.
  { destruct (decide (len = 0)) as [->|]; [done|].
    rewrite Z.min_r by lia. done. }
  rewrite Hz in Hk.
  destruct (take _ buff ++ drop _ (procfs_buffer st)) as [|c l] eqn:E.
  - apply (f_equal length) in E.
    rewrite length_app, length_take, length_drop in E.
    cbn in E. unfold PROCFS_MAX_SIZE in *. lia.
  - change (<[Z.to_nat 0:=NUL]> (c :: l)) with (NUL :: l) in Hk.
    by rewrite kstrtoint_nul in Hk.
Qed.

(** ** My_proc.c: the telemetry handler *)

(** C7.  Whatever the length [len] of a write, [procfile_write] stores
    nothing outside [procfs_buffer] (it yields a result, and the array keeps
    its [PROCFS_MAX_SIZE] bytes) and leaves a size field within
    [0, PROCFS_MAX_SIZE].  When the caller's bytes are readable, exactly
    [min len PROCFS_MAX_SIZE] of them are copied, the rest of the array
    keeps its contents, a NUL is stored at index
    [size & (PROCFS_MAX_SIZE - 1)], the resulting string ends inside the
    array, and the return value is not an error code, also for a write
    longer than [PROCFS_MAX_SIZE]. *)
Theorem procfile_write_within_capacity tasks buff len off st :
  wf_procfs st -> 0 <= len <= MAX_RW_COUNT ->
  exists ret off' st',
    procfile_write tasks buff len off st = Some (ret, off', st') /\
    wf_procfs st' /\
    (Z.min len PROCFS_MAX_SIZE <= Z.of_nat (length buff) ->
     0 <= ret /\
     strlen (procfs_buffer st') < PROCFS_MAX_SIZE /\
     exists st1,
       procfile_write_accept buff len off st = Some (Accepted off' st1) /\
       procfs_buffer_size st1 = Z.min len PROCFS_MAX_SIZE /\
       procfs_buffer st1
         !! Z.to_nat (Z.min len PROCFS_MAX_SIZE mod PROCFS_MAX_SIZE)
         = Some NUL /\
       forall i : nat,
         i <> Z.to_nat (Z.min len PROCFS_MAX_SIZE mod PROCFS_MAX_SIZE) ->
         procfs_buffer st1 !! i =
         if decide (Z.of_nat i < Z.min len PROCFS_MAX_SIZE)
         then buff !! i else procfs_buffer st !! i).
Proof.
  intros Hwf Hlen. pose proof Hwf as [Hbuf _].
  destruct (procfile_write_accept_cases buff len off st Hwf Hlen)
    as (r & Hr & Hcase).
  destruct r as [st'|off1 st1].
  - destruct Hcase as [Hshort Hwf'].
    exists (- EFAULT), off, st'. unfold procfile_write. rewrite Hr.
    split; [done|]. split; [done|]. lia.
  - destruct Hcase as (Hread & Hoff & Hst1 & Hwf1).
    set (size := Z.min len PROCFS_MAX_SIZE) in *.
    assert (0 <= size <= PROCFS_MAX_SIZE) as Hsize by (subst size; lia).
    pose proof (Z.mod_pos_bound size PROCFS_MAX_SIZE ltac:(done)) as Hidx.
    assert (procfs_buffer st1 !! Z.to_nat (size mod PROCFS_MAX_SIZE)
            = Some NUL) as Hnul.
    { rewrite Hst1. cbn [procfs_buffer]. apply list_lookup_insert_eq.
      rewrite length_app, length_take, length_drop. lia. }
    assert (forall i : nat, i <> Z.to_nat (size mod PROCFS_MAX_SIZE) ->
              procfs_buffer st1 !! i =
              if decide (Z.of_nat i < size)
              then buff !! i else procfs_buffer st !! i) as Hother.
    { intros i Hi. rewrite Hst1. cbn [procfs_buffer].
      rewrite list_lookup_insert_ne by done.
      destruct (decide (Z.of_nat i < size)).
      - rewrite lookup_app_l by (rewrite length_take; lia).
        apply lookup_take_lt. lia.
      - rewrite lookup_app_r by (rewrite length_take; lia).
        rewrite lookup_drop, length_take. f_equal. lia. }
    assert (procfs_buffer_size st1 = size) as Hsz by (by rewrite Hst1).
    pose proof (strlen_le_nul _ _ Hnul) as Hstr.
    destruct (kstrtoint (procfs_buffer st1)) as [id|] eqn:Hk.
    + destruct (find_task tasks id) as [p|] eqn:Hf.
      * destruct Hwf1 as [Hl1 _].
        pose proof (procfile_write_match tasks _ _ _ _ _ _ _ _ Hr Hl1 Hk Hf)
          as Hw.
        pose proof (thread_info_text_length p) as Htl.
        eexists _, _, _. split; [exact Hw|]. cbn [procfs_buffer].
        split.
        { split; cbn.
          - rewrite length_app. cbn [length]. rewrite length_drop.
            unfold PROCFS_MAX_SIZE in *. lia.
          - unfold PROCFS_MAX_SIZE. lia. }
        intros _. split; [lia|]. split.
        { rewrite strlen_app by apply thread_info_text_no_nul.
          unfold PROCFS_MAX_SIZE. lia. }
        by exists st1.
      * rewrite (procfile_write_no_match tasks _ _ _ _ _ _ _ Hr Hk Hf).
        eexists _, _, _. split; [done|]. split; [done|].
        intros _. split; [lia|]. split; [lia|]. by exists st1.
    + rewrite (procfile_write_parse_error tasks _ _ _ _ _ _ Hr Hk).
      eexists _, _, _. split; [done|]. split; [done|].
      intros _. split; [lia|]. split; [lia|]. by exists st1.
Qed.

(** C6 (as the code has it).  A write whose accepted bytes do not parse as
    a decimal identifier does not crash the handler; it returns 0, while
    the size field holds the number of bytes accepted,
    [min len PROCFS_MAX_SIZE], and the offset has advanced by as much. *)
Theorem procfile_write_invalid_returns_zero tasks buff len off st off1 st1 :
  wf_procfs st -> 0 <= len <= MAX_RW_COUNT ->
  procfile_write_accept buff len off st = Some (Accepted off1 st1) ->
  kstrtoint (procfs_buffer st1) = None ->
  procfile_write tasks buff len off st = Some (0, off1, st1) /\
  procfs_buffer_size st1 = Z.min len PROCFS_MAX_SIZE /\
  off1 = to_long (off + Z.min len PROCFS_MAX_SIZE).
Proof.
  intros Hwf Hlen Ha Hk.
  split; [by apply procfile_write_parse_error|].
  destruct (procfile_write_accept_cases buff len off st Hwf Hlen)
    as (r & Hr & Hcase).
  rewrite Ha in Hr. injection Hr as <-.
  destruct Hcase as (_ & -> & -> & _). done.
Qed.

(** C4.  A write that parses as an identifier [id] matching no entry of
    the task list: the handler returns [len], the size field is [len]
    (the lookup does not touch it), the first [len] bytes of the buffer are
    the bytes the caller wrote, followed by a NUL, and a read from offset 0
    returns [len] and delivers exactly those bytes. *)
Theorem procfile_write_no_match_keeps_text
    tasks buff len off st off1 st1 id ucap buffer_length :
  wf_procfs st -> 0 <= len <= MAX_RW_COUNT ->
  procfile_write_accept buff len off st = Some (Accepted off1 st1) ->
  kstrtoint (procfs_buffer st1) = Some id ->
  find_task tasks id = None ->
  len <= ucap ->
  procfile_write tasks buff len off st = Some (len, off1, st1) /\
  procfs_buffer_size st1 = len /\
  length (take (Z.to_nat len) buff) = Z.to_nat len /\
  take (Z.to_nat len) (procfs_buffer st1) = take (Z.to_nat len) buff /\
  procfs_buffer st1 !! Z.to_nat len = Some NUL /\
  procfile_read ucap buffer_length 0 st1 =
    Some (len, len, take (Z.to_nat len) buff).
Proof.
  intros Hwf Hlen Ha Hk Hf Hcap. pose proof Hwf as [Hbuf _].
  pose proof (parsed_write_is_short _ _ _ _ _ _ _ Hwf Hlen Ha Hk) as Hshort.
  rewrite (procfile_write_no_match tasks _ _ _ _ _ _ _ Ha Hk Hf).
  destruct (procfile_write_accept_cases buff len off st Hwf Hlen)
    as (r & Hr & Hcase).
  rewrite Ha in Hr. injection Hr as <-.
  destruct Hcase as (Hread & -> & -> & _).
  rewrite Z.min_l in * by lia. rewrite Z.mod_small by lia.
  cbn [procfs_buffer procfs_buffer_size].
  assert (length (take (Z.to_nat len) buff) = Z.to_nat len) as Htake
    by (rewrite length_take; lia).
  assert (take (Z.to_nat len)
            (<[Z.to_nat len:=NUL]>
               (take (Z.to_nat len) buff ++
                drop (Z.to_nat len) (procfs_buffer st)))
          = take (Z.to_nat len) buff) as Hprefix.
  { rewrite take_insert_ge by lia. by apply take_app_length'. }
  repeat split; try done.
  - apply list_lookup_insert_eq.
    rewrite length_app, Htake, length_drop. unfold PROCFS_MAX_SIZE in *. lia.
  - unfold procfile_read. cbn [procfs_buffer procfs_buffer_size].
    destruct (Z.leb_spec len 0); [lia|]. unfold copy_to_user.
    rewrite length_insert, length_app, Htake, length_drop.
    destruct (Z.ltb_spec len 0); [lia|].
    destruct (Z.ltb_spec
                (Z.of_nat (Z.to_nat len
                           + (length (procfs_buffer st) - Z.to_nat len))) len);
      [lia|].
    cbn [orb]. destruct (Z.ltb_spec ucap len); [lia|].
    cbn. rewrite Hprefix. rewrite to_long_id; [done|].
    unfold is_long, LONG_MIN, LONG_MAX, PROCFS_MAX_SIZE in *. lia.
Qed.

Lemma thread_info_text_record p :
  wf_task_struct p -> nvcsw p + nivcsw p <= LONG_MAX ->
  thread_info_text p =
  record_text (pid p) (utime p / 1000000) (nvcsw p + nivcsw p) ++ [LF].
Proof.
  intros (Hpid & Hut & Hv & Hiv) Hsum.
  unfold thread_info_text, record_text. rewrite <- !app_assoc.
  rewrite (to_int_id _ Hpid).
  rewrite Z.div_div by lia. change (1000 * 1000) with 1000000.
  unfold is_ulong, ULLONG_MAX, LONG_MAX in *.
  rewrite (to_long_id (utime p / 1000000)).
  2:{ unfold is_long, LONG_MIN, LONG_MAX. split.
      - assert (0 <= utime p / 1000000) by (apply Z.div_pos; lia). lia.
      - assert (utime p / 1000000 < 9223372036854775808); [|lia].
        apply Z.div_lt_upper_bound; lia. }
  rewrite (to_ulong_id (nvcsw p + nivcsw p))
    by (unfold is_ulong, ULLONG_MAX; lia).
  rewrite (to_long_id (nvcsw p + nivcsw p))
    by (unfold is_long, LONG_MIN, LONG_MAX; lia).
  done.
Qed.

(** C5 (as the code has it).  A write that parses as an identifier
    matching the entry [p] of the task list overwrites the buffer with the
    record "ThreadID:<pid> Time:<utime / 1000000>(ms) context switch
    times:<nvcsw + nivcsw>" followed by a newline, and sets the size field
    to the length of that text, newline included; [nvcsw + nivcsw] is the
    exact sum as long as it fits a signed 64-bit integer. *)
Theorem procfile_write_match_record
    tasks buff len off st off1 st1 id p :
  wf_procfs st -> 0 <= len <= MAX_RW_COUNT ->
  procfile_write_accept buff len off st = Some (Accepted off1 st1) ->
  kstrtoint (procfs_buffer st1) = Some id ->
  find_task tasks id = Some p ->
  wf_task_struct p -> nvcsw p + nivcsw p <= LONG_MAX ->
  exists st',
    procfile_write tasks buff len off st =
      Some (procfs_buffer_size st', off1, st') /\
    pid p = id /\
    c_str (procfs_buffer st') =
      record_text (pid p) (utime p / 1000000) (nvcsw p + nivcsw p) ++ [LF] /\
    procfs_buffer_size st' =
      Z.of_nat (length (record_text (pid p) (utime p / 1000000)
                                    (nvcsw p + nivcsw p) ++ [LF])).
Proof.
  intros Hwf Hlen Ha Hk Hf Hp Hsum.
  destruct (procfile_write_accept_cases buff len off st Hwf Hlen)
    as (r & Hr & Hcase).
  rewrite Ha in Hr. injection Hr as <-.
  destruct Hcase as (_ & _ & _ & [Hl1 _]).
  eexists {| procfs_buffer := _; procfs_buffer_size := _ |}.
  cbn [procfs_buffer procfs_buffer_size].
  split; [by eapply procfile_write_match|].
  destruct (find_task_pid _ _ _ Hf) as [Hid _].
  destruct Hp as [Hpid Hrest]. rewrite (to_int_id _ Hpid) in Hid.
  split; [done|].
  rewrite c_str_app by apply thread_info_text_no_nul.
  by rewrite thread_info_text_record.
Qed.

Lemma wf_module_at_load : wf_procfs module_at_load.
Proof. split; [reflexivity|]. cbn. unfold PROCFS_MAX_SIZE. lia. Defined.

Lemma procfile_write_within_capacity_witness :
  wf_procfs module_at_load /\ 0 <= 2000 <= MAX_RW_COUNT /\
  exists ret off' st',
    procfile_write [] (replicate 2000 "7"%char) 2000 0 module_at_load
      = Some (ret, off', st') /\
    wf_procfs st' /\ 0 <= ret /\
    strlen (procfs_buffer st') < PROCFS_MAX_SIZE.
Proof.
  assert (0 <= 2000 <= MAX_RW_COUNT) as Hlen by (unfold MAX_RW_COUNT; lia).
  split; [exact wf_module_at_load|]. split; [exact Hlen|].
  destruct (procfile_write_within_capacity [] (replicate 2000 "7"%char)
              2000 0 module_at_load wf_module_at_load Hlen)
    as (ret & off' & st' & Hw & Hwf' & Himp).
  exists ret, off', st'. split; [exact Hw|]. split; [exact Hwf'|].
  destruct Himp as (Hret & Hstr & _).
  - rewrite length_replicate. unfold PROCFS_MAX_SIZE. lia.
  - split; [exact Hret|exact Hstr].
Defined.

Lemma procfile_write_invalid_returns_zero_witness :
  let st1 := {| procfs_buffer := chars "abc" ++ replicate 1021 NUL;
                procfs_buffer_size := 3 |} in
  procfile_write_accept (chars "abc") 3 0 module_at_load
    = Some (Accepted 3 st1) /\
  kstrtoint (procfs_buffer st1) = None /\
  procfile_write [] (chars "abc") 3 0 module_at_load = Some (0, 3, st1) /\
  procfs_buffer_size st1 = 3.
Proof.
  set (st1 := {| procfs_buffer := chars "abc" ++ replicate 1021 NUL;
                 procfs_buffer_size := 3 |}).
  assert (0 <= 3 <= MAX_RW_COUNT) as Hlen by (unfold MAX_RW_COUNT; lia).
  assert (procfile_write_accept (chars "abc") 3 0 module_at_load
          = Some (Accepted 3 st1)) as Ha by (vm_compute; reflexivity).
  assert (kstrtoint (procfs_buffer st1) = None) as Hk
    by (vm_compute; reflexivity).
  destruct (procfile_write_invalid_returns_zero [] (chars "abc") 3 0
              module_at_load 3 st1 wf_module_at_load Hlen Ha Hk)
    as (Hw & Hsz & _).
  split; [exact Ha|]. split; [exact Hk|]. split; [exact Hw|exact Hsz].
Defined.

(** C6, counterexample: the three bytes "abc" are accepted (the size field
    is 3) and do not parse; the handler returns 0, not 3. *)
Lemma procfile_write_invalid_counterexample :
  exists ret st1,
    procfile_write [] (chars "abc") 3 0 module_at_load = Some (ret, 3, st1) /\
    kstrtoint (procfs_buffer st1) = None /\
    procfs_buffer_size st1 = 3 /\
    ret = 0 /\ ret <> procfs_buffer_size st1.
Proof.
  eexists _, _. split; [vm_compute; reflexivity|].
  split; [vm_compute; reflexivity|]. split; [reflexivity|].
  split; [reflexivity|]. cbn. lia.
Qed.

Lemma procfile_write_no_match_keeps_text_witness :
  let request := chars "4242" ++ [LF] in
  let st1 := {| procfs_buffer := request ++ replicate 1019 NUL;
                procfs_buffer_size := 5 |} in
  let tasks := [ {| pid := 1; utime := 0; nvcsw := 0; nivcsw := 0 |} ] in
  procfile_write_accept request 5 0 module_at_load = Some (Accepted 5 st1) /\
  kstrtoint (procfs_buffer st1) = Some 4242 /\
  find_task tasks 4242 = None /\
  procfile_write tasks request 5 0 module_at_load = Some (5, 5, st1) /\
  procfile_read 1000 1000 0 st1 = Some (5, 5, request).
Proof.
  set (request := chars "4242" ++ [LF]).
  set (st1 := {| procfs_buffer := request ++ replicate 1019 NUL;
                 procfs_buffer_size := 5 |}).
  set (tasks := [ {| pid := 1; utime := 0; nvcsw := 0; nivcsw := 0 |} ]).
  assert (0 <= 5 <= MAX_RW_COUNT) as Hlen by (unfold MAX_RW_COUNT; lia).
  assert (procfile_write_accept request 5 0 module_at_load
          = Some (Accepted 5 st1)) as Ha by (vm_compute; reflexivity).
  assert (kstrtoint (procfs_buffer st1) = Some 4242) as Hk
    by (vm_compute; reflexivity).
  assert (find_task tasks 4242 = None) as Hf by (vm_compute; reflexivity).
  assert (5 <= 1000) as Hcap by lia.
  destruct (procfile_write_no_match_keeps_text tasks request 5 0
              module_at_load 5 st1 4242 1000 1000
              wf_module_at_load Hlen Ha Hk Hf Hcap)
    as (Hw & _ & _ & _ & _ & Hr).
  split; [exact Ha|]. split; [exact Hk|]. split; [exact Hf|].
  split; [exact Hw|exact Hr].
Defined.

Lemma procfile_write_match_record_witness :
  let request := chars "4242" ++ [LF] in
  let st1 := {| procfs_buffer := request ++ replicate 1019 NUL;
                procfs_buffer_size := 5 |} in
  let p := {| pid := 4242; utime := 123456789; nvcsw := 3; nivcsw := 4 |} in
  procfile_write_accept request 5 0 module_at_load = Some (Accepted 5 st1) /\
  kstrtoint (procfs_buffer st1) = Some 4242 /\
  find_task [p] 4242 = Some p /\
  exists st',
    procfile_write [p] request 5 0 module_at_load
      = Some (procfs_buffer_size st', 5, st') /\
    c_str (procfs_buffer st') = record_text 4242 123 7 ++ [LF].
Proof.
  set (request := chars "4242" ++ [LF]).
  set (st1 := {| procfs_buffer := request ++ replicate 1019 NUL;
                 procfs_buffer_size := 5 |}).
  set (p := {| pid := 4242; utime := 123456789; nvcsw := 3; nivcsw := 4 |}).
  assert (0 <= 5 <= MAX_RW_COUNT) as Hlen by (unfold MAX_RW_COUNT; lia).
  assert (procfile_write_accept request 5 0 module_at_load
          = Some (Accepted 5 st1)) as Ha by (vm_compute; reflexivity).
  assert (kstrtoint (procfs_buffer st1) = Some 4242) as Hk
    by (vm_compute; reflexivity).
  assert (find_task [p] 4242 = Some p) as Hf by (vm_compute; reflexivity).
  assert (wf_task_struct p) as Hp.
  { unfold wf_task_struct, is_int, is_ulong, INT_MIN, INT_MAX, ULLONG_MAX.
    cbn. lia. }
  assert (nvcsw p + nivcsw p <= LONG_MAX) as Hsum
    by (unfold LONG_MAX; cbn; lia).
  destruct (procfile_write_match_record [p] request 5 0 module_at_load
              5 st1 4242 p wf_module_at_load Hlen Ha Hk Hf Hp Hsum)
    as (st' & Hw & _ & Hstr & _).
  split; [exact Ha|]. split; [exact Hk|]. split; [exact Hf|].
  exists st'. split; [exact Hw|exact Hstr].
Defined.

(** C5, counterexample: for the entry (pid 7, utime 5000000 ns, 1 voluntary
    and 2 involuntary switches) the string left in the buffer is the
    record followed by a newline, 45 bytes where the record has 44, and the
    size field is 45. *)
Lemma procfile_write_record_counterexample :
  let p := {| pid := 7; utime := 5000000; nvcsw := 1; nivcsw := 2 |} in
  exists st',
    procfile_write [p] (chars "7") 1 0 module_at_load = Some (45, 1, st') /\
    c_str (procfs_buffer st') = record_text 7 5 3 ++ [LF] /\
    c_str (procfs_buffer st') <> record_text 7 5 3 /\
    procfs_buffer_size st' = 45 /\
    Z.of_nat (length (record_text 7 5 3)) = 44.
Proof.
  eexists. split; [vm_compute; reflexivity|].
  split; [vm_compute; reflexivity|].
  split; [intros H; vm_compute in H; discriminate H|].
  split; reflexivity.
Qed.

(** The switch count is an [unsigned long] sum printed as a [long]: it
    wraps at [2^64] and reads as negative from [2^63]. *)
Example switch_count_wraps :
  thread_info_text {| pid := 7; utime := 0; nvcsw := 2 ^ 63; nivcsw := 2 ^ 63 |}
    = record_text 7 0 0 ++ [LF] /\
  thread_info_text {| pid := 7; utime := 0; nvcsw := 2 ^ 63; nivcsw := 0 |}
    = record_text 7 0 (- 2 ^ 63) ++ [LF].
Proof. split; vm_compute; reflexivity. Qed.

(** ** The write-then-read transaction of a caller (MT_matrix.c:169-177) *)

Lemma proc_request_spec id : proc_request id = Some (request_of id).
Proof.
  unfold proc_request, request_of. change (Z.to_nat BUF_SIZE) with 1000%nat.
  pose proof (fmt_signed_length id) as Hl.
  rewrite sprintf_ok by (rewrite length_app, length_replicate; cbn; lia).
  rewrite drop_replicate, length_app. cbn [length].
  do 4 f_equal. lia.
Qed.

Lemma request_length id : length (request_of id) = 1000%nat.
Proof.
  unfold request_of.
  pose proof (fmt_signed_length id) as Hl.
  rewrite !length_app. cbn [length]. rewrite length_replicate. lia.
Qed.

Lemma request_strlen id :
  strlen (request_of id) = Z.of_nat (length (fmt_signed id)) + 1.
Proof.
  unfold request_of.
  rewrite strlen_app.
  - rewrite length_app. cbn [length]. lia.
  - apply Forall_app. split; [apply fmt_signed_no_nul|by repeat constructor].
Qed.

(** The request of caller [id] is accepted whole and parses as [id]. *)
Lemma request_accepted id pos st :
  wf_procfs st -> is_int id -> 0 <= pos <= PROCFS_MAX_SIZE ->
  exists st1,
    procfile_write_accept (request_of id)
      (Z.of_nat (length (fmt_signed id)) + 1) pos st
    = Some (Accepted (pos + (Z.of_nat (length (fmt_signed id)) + 1)) st1) /\
    wf_procfs st1 /\
    procfs_buffer_size st1 = Z.of_nat (length (fmt_signed id)) + 1 /\
    kstrtoint (procfs_buffer st1) = Some id.
Proof.
  intros Hwf Hid Hpos. pose proof Hwf as [Hbuf _].
  pose proof (fmt_signed_length id) as Hl.
  set (n := Z.of_nat (length (fmt_signed id)) + 1).
  assert (0 <= n <= MAX_RW_COUNT) as Hn
    by (subst n; unfold MAX_RW_COUNT; lia).
  assert (Z.min n PROCFS_MAX_SIZE = n) as Hmin
    by (subst n; unfold PROCFS_MAX_SIZE; lia).
  exists {| procfs_buffer :=
              (fmt_signed id ++ [LF]) ++
              NUL :: drop (S (Z.to_nat n)) (procfs_buffer st);
            procfs_buffer_size := n |}.
  split; [|split; [|split]].
  - rewrite procfile_write_accept_ok; [|done|done|].
    2:{ rewrite request_length. lia. }
    rewrite Hmin. rewrite Z.mod_small by (unfold PROCFS_MAX_SIZE in *; lia).
    rewrite to_long_id
      by (unfold is_long, LONG_MIN, LONG_MAX, PROCFS_MAX_SIZE in *; lia).
    do 3 f_equal.
    assert (take (Z.to_nat n) (request_of id) = fmt_signed id ++ [LF]) as ->.
    { unfold request_of. apply take_app_length'.
      rewrite length_app. cbn [length]. lia. }
    rewrite insert_take_drop.
    2:{ rewrite length_app, length_drop, length_app. cbn [length].
        unfold PROCFS_MAX_SIZE in *. lia. }
    rewrite take_app_length' by (rewrite length_app; cbn [length]; lia).
    do 2 f_equal.
    rewrite drop_app_ge by (rewrite length_app; cbn [length]; lia).
    rewrite drop_drop. f_equal. rewrite length_app. cbn [length]. lia.
  - split; cbn [procfs_buffer procfs_buffer_size].
    + rewrite !length_app. cbn [length]. rewrite length_drop.
      unfold PROCFS_MAX_SIZE in *. lia.
    + unfold PROCFS_MAX_SIZE. lia.
  - done.
  - cbn [procfs_buffer]. rewrite <- app_assoc. cbn [app].
    by apply kstrtoint_fmt_signed.
Qed.

(** The handler's answer to the request of caller [id], when the task list
    holds a match [p]: the statics hold the text for [p], and the file
    position has advanced by the length of the request. *)
Lemma proc_write_spec tasks id p pos st :
  wf_procfs st -> is_int id -> 0 <= pos <= PROCFS_MAX_SIZE ->
  find_task tasks id = Some p ->
  exists rest,
    proc_write tasks (request_of id) pos st
    = Some (pos + (Z.of_nat (length (fmt_signed id)) + 1),
            {| procfs_buffer := thread_info_text p ++ NUL :: rest;
               procfs_buffer_size := Z.of_nat (length (thread_info_text p)) |})
    /\ wf_procfs
         {| procfs_buffer := thread_info_text p ++ NUL :: rest;
            procfs_buffer_size := Z.of_nat (length (thread_info_text p)) |}.
Proof.
  intros Hwf Hid Hpos Hf.
  pose proof (fmt_signed_length id) as Hl.
  pose proof (thread_info_text_length p) as Htl.
  destruct (request_accepted id pos st Hwf Hid Hpos)
    as (st1 & Ha & [Hl1 _] & _ & Hk).
  eexists. unfold proc_write, sys_write.
  rewrite request_strlen.
  rewrite Z.min_l by (unfold MAX_RW_COUNT; lia).
  erewrite procfile_write_match; [| exact Ha | exact Hl1 | exact Hk | exact Hf].
  cbn [mbind option_bind].
  destruct (Z.leb_spec 0 (Z.of_nat (length (thread_info_text p)))); [|lia].
  split; [reflexivity|].
  split; cbn [procfs_buffer procfs_buffer_size].
  - rewrite length_app. cbn [length]. rewrite length_drop.
    unfold PROCFS_MAX_SIZE in *. lia.
  - unfold PROCFS_MAX_SIZE. lia.
Qed.

(** When the task list holds no match, the statics keep the request and
    its length, and the file position reaches that length. *)
Lemma proc_write_no_match_spec tasks id pos st :
  wf_procfs st -> is_int id -> 0 <= pos <= PROCFS_MAX_SIZE ->
  find_task tasks id = None ->
  exists st1,
    proc_write tasks (request_of id) pos st
    = Some (pos + (Z.of_nat (length (fmt_signed id)) + 1), st1) /\
    wf_procfs st1 /\
    procfs_buffer_size st1 = Z.of_nat (length (fmt_signed id)) + 1.
Proof.
  intros Hwf Hid Hpos Hf.
  pose proof (fmt_signed_length id) as Hl.
  destruct (request_accepted id pos st Hwf Hid Hpos)
    as (st1 & Ha & Hwf1 & Hsz & Hk).
  exists st1. unfold proc_write, sys_write.
  rewrite request_strlen.
  rewrite Z.min_l by (unfold MAX_RW_COUNT; lia).
  rewrite (procfile_write_no_match tasks _ _ _ _ _ _ _ Ha Hk Hf).
  cbn [mbind option_bind]. rewrite Hsz.
  destruct (Z.leb_spec 0 (Z.of_nat (length (fmt_signed id)) + 1)); [|lia].
  done.
Qed.

(** The read that then follows on the same descriptor is at the end of
    the data: nothing is delivered and the caller's array is unchanged. *)
Lemma proc_read_at_end buffer pos st :
  procfs_buffer_size st <= pos ->
  proc_read buffer pos st = Some (pos, buffer).
Proof.
  intros Hpos. unfold proc_read, sys_read, procfile_read.
  destruct (Z.leb_spec (procfs_buffer_size st) pos); [|lia].
  cbn [mbind option_bind]. change (0 <=? 0) with true. cbv iota.
  unfold store_bytes. cbn [length]. rewrite Nat.add_0_l.
  destruct (decide (0 <= length buffer)%nat); [|lia].
  cbn [mbind option_bind take drop app]. done.
Qed.

Lemma c_str_app_zeros text k :
  Forall (fun c => is_nul c = false) text ->
  c_str (text ++ replicate (S k) NUL) = text.
Proof. intros H. cbn [replicate]. by apply c_str_app. Qed.

(** The read that follows: the caller's array receives the whole text the
    statics hold, and nothing of its request shows after it. *)
Lemma proc_read_spec id p pos rest :
  0 <= pos < 45 ->
  wf_procfs {| procfs_buffer := thread_info_text p ++ NUL :: rest;
               procfs_buffer_size := Z.of_nat (length (thread_info_text p)) |} ->
  exists answer pos',
    proc_read (request_of id) pos
      {| procfs_buffer := thread_info_text p ++ NUL :: rest;
         procfs_buffer_size := Z.of_nat (length (thread_info_text p)) |}
    = Some (pos', answer) /\
    c_str answer = thread_info_text p.
Proof.
  intros Hpos [Hbuf _]. cbn [procfs_buffer] in Hbuf.
  pose proof (fmt_signed_length id) as Hl.
  pose proof (thread_info_text_length p) as Htl.
  unfold proc_read, sys_read, procfile_read.
  cbn [procfs_buffer procfs_buffer_size].
  destruct (Z.leb_spec (Z.of_nat (length (thread_info_text p))) pos); [lia|].
  unfold copy_to_user.
  destruct (Z.ltb_spec (Z.of_nat (length (thread_info_text p))) 0); [lia|].
  destruct (Z.ltb_spec
              (Z.of_nat (length (thread_info_text p ++ NUL :: rest)))
              (Z.of_nat (length (thread_info_text p)))).
  { rewrite length_app in *. lia. }
  cbn [orb].
  destruct (Z.ltb_spec MAX_RW_COUNT (Z.of_nat (length (thread_info_text p)))).
  { unfold MAX_RW_COUNT in *. lia. }
  cbn [mbind option_bind]. rewrite Z.eqb_refl. cbn [negb].
  rewrite Nat2Z.id, take_app_length.
  cbn [mbind option_bind].
  destruct (Z.leb_spec 0 (Z.of_nat (length (thread_info_text p)))); [|lia].
  rewrite store_bytes_0 by (rewrite request_length; lia).
  cbn [mbind option_bind]. eexists _, _. split; [reflexivity|].
  unfold request_of.
  rewrite drop_app_ge by (rewrite length_app; cbn [length]; lia).
  rewrite length_app. cbn [length drop].
  destruct (length (thread_info_text p) - (length (fmt_signed id) + 1))%nat
    as [|k] eqn:Hk; [lia|].
  cbn [drop]. rewrite drop_replicate.
  replace (998 - length (fmt_signed id) - k)%nat
    with (S (997 - length (fmt_signed id) - k)) by lia.
  apply c_str_app_zeros, thread_info_text_no_nul.
Qed.

(** ** Concurrent callers: the mutex makes the transaction atomic *)

#[global] Arguments proc_request : simpl never.
#[global] Arguments proc_write : simpl never.
#[global] Arguments proc_read : simpl never.

Lemma answered_mono hist ev i c : answered hist i c -> answered (hist ++ [ev]) i c.
Proof.
  intros (tasks & p & Hin & Hf & Hs). exists tasks, p.
  split; [apply in_or_app; by left|done].
Qed.

(** Mutual exclusion: a caller between its lock and its unlock owns the
    mutex, so no other caller is there, and nobody is when the mutex is
    free. *)
Lemma caller_outside_free hist s i c :
  caller_ok hist s i c -> mutex s = None ->
  c_pc c = AtLock \/ c_pc c = AtEnd.
Proof.
  intros [_ Hc] Hfree. destruct (c_pc c); auto;
    destruct Hc as [Hm _]; congruence.
Qed.

Lemma caller_outside_other hist s i j c cj :
  caller_ok hist s i c -> caller_ok hist s j cj -> i <> j ->
  mutex s = Some j ->
  c_pc c = AtLock \/ c_pc c = AtEnd.
Proof.
  intros [_ Hc] _ Hij Hj. destruct (c_pc c); auto;
    destruct Hc as [Hm _]; congruence.
Qed.

(** A caller outside the critical section depends on the shared state
    through the owner of the mutex only. *)
Lemma caller_ok_outside hist ev s s' i c :
  caller_ok hist s i c -> c_pc c = AtLock \/ c_pc c = AtEnd ->
  mutex s' <> Some i ->
  caller_ok (hist ++ [ev]) s' i c.
Proof.
  intros [Hint Hc] [Hpc|Hpc] Hm; (split; [done|]); rewrite Hpc in *.
  - by destruct Hc.
  - destruct Hc. split; [done|]. by apply answered_mono.
Qed.

Lemma map_c_pid_insert (l : list caller) i c c' :
  l !! i = Some c -> c_pid c' = c_pid c ->
  map c_pid (<[i := c']> l) = map c_pid l.
Proof.
  intros Hi Hpid. change (c_pid <$> <[i:=c']> l = c_pid <$> l).
  rewrite list_fmap_insert, Hpid. apply list_insert_id.
  by rewrite list_lookup_fmap, Hi.
Qed.

Lemma pids_lookup (l : list caller) pids i c :
  map c_pid l = pids -> l !! i = Some c -> pids !! i = Some (c_pid c).
Proof.
  intros <- Hi. change (map c_pid l) with (c_pid <$> l).
  by rewrite list_lookup_fmap, Hi.
Qed.

(** One event preserves the invariant, provided a write finds a match. *)
Lemma step_inv hist pids ev s s' :
  channel_inv hist pids s ->
  (forall i tasks id, ev = Write i tasks -> pids !! i = Some id ->
     exists p, find_task tasks id = Some p) ->
  step true ev s = Some s' ->
  channel_inv (hist ++ [ev]) pids s'.
Proof.
  intros (Hwf & Hpids & Hall) Hmatch Hstep.
  destruct ev as [j|j tasks|j|j]; cbn [step] in Hstep;
    destruct (callers s !! j) as [cj|] eqn:Hj; try discriminate Hstep;
    cbn [mbind option_bind] in Hstep;
    pose proof (Hall j cj Hj) as Hcj; pose proof Hcj as [Hint Hcj'];
    destruct (c_pc cj) eqn:Hpc; try discriminate Hstep;
    cbn [pc_eqb andb orb negb] in Hstep.
  - (* Lock *)
    destruct (bool_decide (mutex s = None)) eqn:Hfree;
      [|discriminate Hstep]. apply bool_decide_eq_true in Hfree.
    injection Hstep as <-. split; [done|]. cbn [callers mutex chan].
    split; [by rewrite (map_c_pid_insert _ _ cj)|].
    intros i c Hi. destruct (decide (i = j)) as [->|Hij].
    + rewrite list_lookup_insert_eq in Hi by (by eapply lookup_lt_Some).
      injection Hi as <-. split; [done|]. cbn. by destruct Hcj'.
    + rewrite list_lookup_insert_ne in Hi by done.
      eapply caller_ok_outside; [by apply Hall| |cbn; congruence].
      eapply caller_outside_free; [by apply Hall|done].
  - (* Write *)
    destruct Hcj' as [Hown Hpos].
    rewrite proc_request_spec in Hstep. cbn [mbind option_bind] in Hstep.
    destruct (Hmatch j tasks (c_pid cj) eq_refl) as [p Hp];
      [by eapply pids_lookup|].
    destruct (proc_write_spec tasks (c_pid cj) p (c_pos cj) (chan s))
      as (rest & Hw & Hwf'); [done|done|rewrite Hpos; done|done|].
    rewrite Hw in Hstep. cbn [mbind option_bind] in Hstep.
    injection Hstep as <-. split; [done|]. cbn [callers mutex chan].
    split; [by rewrite (map_c_pid_insert _ _ cj)|].
    intros i c Hi. destruct (decide (i = j)) as [->|Hij].
    + rewrite list_lookup_insert_eq in Hi by (by eapply lookup_lt_Some).
      injection Hi as <-. split; [done|]. cbn.
      split; [done|]. split; [done|]. split; [lia|].
      exists tasks, p, rest. split; [|done].
      apply in_or_app. right. by left.
    + rewrite list_lookup_insert_ne in Hi by done.
      eapply caller_ok_outside; [by apply Hall| |cbn; congruence].
      eapply (caller_outside_other _ _ i j); [by apply Hall|done..].
  - (* Read *)
    destruct Hcj' as (Hown & Hbuf & Hpos & tasks & p & rest & Hin & Hf & Hch).
    pose proof (fmt_signed_length (c_pid cj)) as Hl.
    destruct (proc_read_spec (c_pid cj) p (c_pos cj) rest)
      as (answer & pos' & Hr & Hstr); [lia|by rewrite <- Hch|].
    rewrite Hbuf, Hch, Hr in Hstep. cbn [mbind option_bind] in Hstep.
    injection Hstep as <-. unfold set_caller.
    split; [done|]. cbn [callers mutex chan].
    split; [by rewrite (map_c_pid_insert _ _ cj)|].
    intros i c Hi. destruct (decide (i = j)) as [->|Hij].
    + rewrite list_lookup_insert_eq in Hi by (by eapply lookup_lt_Some).
      injection Hi as <-. split; [done|]. cbn.
      split; [done|]. exists tasks, p. split; [|done].
      apply in_or_app. by left.
    + rewrite list_lookup_insert_ne in Hi by done.
      eapply caller_ok_outside; [by apply Hall| |cbn; congruence].
      eapply (caller_outside_other _ _ i j); [by apply Hall|done..].
  - (* Unlock *)
    destruct Hcj' as [Hown Hans].
    injection Hstep as <-. split; [done|]. cbn [callers mutex chan].
    split; [by rewrite (map_c_pid_insert _ _ cj)|].
    intros i c Hi. destruct (decide (i = j)) as [->|Hij].
    + rewrite list_lookup_insert_eq in Hi by (by eapply lookup_lt_Some).
      injection Hi as <-. split; [done|]. cbn.
      split; [done|]. by apply answered_mono.
    + rewrite list_lookup_insert_ne in Hi by done.
      eapply caller_ok_outside; [by apply Hall| |cbn; congruence].
      eapply (caller_outside_other _ _ i j); [by apply Hall|done..].
Qed.

Lemma always_matched_cons pids ev evs :
  always_matched pids (ev :: evs) ->
  (forall i tasks id, ev = Write i tasks -> pids !! i = Some id ->
     exists p, find_task tasks id = Some p) /\
  always_matched pids evs.
Proof.
  intros H. split.
  - intros i tasks id -> Hi. apply (H i tasks id); [by left|done].
  - intros i tasks id Hin Hi. apply (H i tasks id); [by right|done].
Qed.

Lemma run_inv hist pids evs s s' :
  channel_inv hist pids s -> always_matched pids evs ->
  run true evs s = Some s' ->
  channel_inv (hist ++ evs) pids s'.
Proof.
  revert hist s. induction evs as [|ev evs IH]; intros hist s Hinv Hm Hrun.
  - injection Hrun as <-. by rewrite app_nil_r.
  - cbn [run for_each] in Hrun.
    destruct (step true ev s) as [s1|] eqn:Hstep; [|discriminate Hrun].
    cbn [mbind option_bind] in Hrun.
    apply always_matched_cons in Hm as [Hev Hm].
    replace (hist ++ ev :: evs) with ((hist ++ [ev]) ++ evs)
      by (by rewrite <- app_assoc).
    apply (IH _ s1); [|done|done]. by eapply step_inv.
Qed.

Lemma start_inv pids st :
  wf_procfs st -> Forall is_int pids -> channel_inv [] pids (start pids st).
Proof.
  intros Hwf Hpids. split; [done|]. cbn [callers start]. split.
  - rewrite map_map. cbn. apply map_id.
  - intros i c Hi. change (map ?f pids) with (f <$> pids) in Hi.
    rewrite list_lookup_fmap in Hi.
    destruct (pids !! i) as [id|] eqn:Hid; [|discriminate Hi].
    injection Hi as <-. split; cbn; [|done].
    rewrite Forall_forall in Hpids. apply Hpids.
    apply list_elem_of_In. by eapply list_elem_of_lookup_2.
Qed.

(** C3.  Any number of callers, each taking the mutex, writing the pid of
    its child, reading the answer and releasing the mutex, run in any
    interleaving of these four events: whenever the handler finds a match
    for every identifier written, a caller that is past its read holds in
    its buffer the text the handler produced for a write of that caller
    itself, for the entry of the caller's own identifier. *)
Theorem telemetry_no_cross_talk pids st evs s :
  wf_procfs st -> Forall is_int pids ->
  always_matched pids evs ->
  run true evs (start pids st) = Some s ->
  forall i c, callers s !! i = Some c -> has_read c ->
    pids !! i = Some (c_pid c) /\
    exists tasks p,
      In (Write i tasks) evs /\ find_task tasks (c_pid c) = Some p /\
      to_int (pid p) = c_pid c /\
      c_str (c_buf c) = thread_info_text p.
Proof.
  intros Hwf Hpids Hm Hrun i c Hi Hread.
  pose proof (run_inv [] pids evs _ _ (start_inv pids st Hwf Hpids) Hm Hrun)
    as (_ & Hp & Hall).
  split; [by eapply pids_lookup|].
  destruct (Hall i c Hi) as [_ Hc].
  assert (answered evs i c) as (tasks & p & Hin & Hf & Hs).
  { destruct Hread as [Hpc|Hpc]; rewrite Hpc in Hc; by destruct Hc. }
  exists tasks, p. repeat split; try done. by apply find_task_pid in Hf as [? _].
Qed.

Lemma telemetry_no_cross_talk_witness :
  let tasks := [ {| pid := 100; utime := 7000000; nvcsw := 1; nivcsw := 2 |};
                 {| pid := 200; utime := 9000000; nvcsw := 3; nivcsw := 4 |} ] in
  let evs := [ Lock 1; Write 1 tasks; Read 1; Unlock 1;
               Lock 0; Write 0 tasks; Read 0 ] in
  wf_procfs module_at_load /\ Forall is_int [100; 200] /\
  always_matched [100; 200] evs /\
  exists s c,
    run true evs (start [100; 200] module_at_load) = Some s /\
    callers s !! 0%nat = Some c /\ has_read c /\
    exists tasks' p,
      In (Write 0 tasks') evs /\ find_task tasks' 100 = Some p /\
      c_str (c_buf c) = thread_info_text p.
Proof.
  set (tasks := [ {| pid := 100; utime := 7000000; nvcsw := 1; nivcsw := 2 |};
                  {| pid := 200; utime := 9000000; nvcsw := 3; nivcsw := 4 |} ]).
  set (evs := [ Lock 1; Write 1 tasks; Read 1; Unlock 1;
                Lock 0; Write 0 tasks; Read 0 ]).
  assert (Forall is_int [100; 200]) as Hpids.
  { repeat constructor; unfold INT_MIN, INT_MAX; lia. }
  assert (always_matched [100; 200] evs) as Hm.
  { intros i tasks' id Hin Hi.
    assert (tasks' = tasks /\ (i = 0 \/ i = 1)%nat) as [-> Hi01].
    { cbn in Hin. intuition (try discriminate);
        match goal with H : Write _ _ = Write _ _ |- _ => injection H as <- <- end;
        auto. }
    destruct Hi01 as [-> | ->]; injection Hi as <-;
      eexists; vm_compute; reflexivity. }
  split; [exact wf_module_at_load|]. split; [exact Hpids|].
  split; [exact Hm|].
  destruct (run true evs (start [100; 200] module_at_load)) as [s|] eqn:Hrun;
    [|vm_compute in Hrun; discriminate Hrun].
  destruct (callers s !! 0%nat) as [c|] eqn:Hc.
  2:{ exfalso. revert Hc. vm_compute in Hrun. injection Hrun as <-.
      vm_compute. discriminate. }
  assert (has_read c) as Hread.
  { revert Hc. vm_compute in Hrun. injection Hrun as <-.
    intros [= <-]. by left. }
  exists s, c. split; [exact Hrun|]. split; [exact Hc|]. split; [exact Hread|].
  destruct (telemetry_no_cross_talk [100; 200] module_at_load evs s
              wf_module_at_load Hpids Hm Hrun 0%nat c Hc Hread)
    as (Hpid & tasks' & p & Hin & Hf & _ & Hs).
  injection Hpid as Hpid. rewrite <- Hpid in Hf.
  exists tasks', p. split; [exact Hin|]. split; [exact Hf|exact Hs].
Defined.

(** Without lines 165 and 180 the same callers can interleave their
    writes, and caller 0 reads the answer to caller 1. *)
Example unlocked_callers_cross_talk :
  let tasks := [ {| pid := 100; utime := 7000000; nvcsw := 1; nivcsw := 2 |};
                 {| pid := 200; utime := 9000000; nvcsw := 3; nivcsw := 4 |} ] in
  let evs := [ Lock 0; Lock 1; Write 0 tasks; Write 1 tasks; Read 0 ] in
  run true evs (start [100; 200] module_at_load) = None /\
  exists s c,
    run false evs (start [100; 200] module_at_load) = Some s /\
    callers s !! 0%nat = Some c /\ has_read c /\ c_pid c = 100 /\
    c_str (c_buf c) =
      thread_info_text {| pid := 200; utime := 9000000; nvcsw := 3; nivcsw := 4 |}.
Proof.
  split; [vm_compute; reflexivity|].
  eexists _, _. split; [vm_compute; reflexivity|].
  split; [reflexivity|]. split; [by left|]. split; vm_compute; reflexivity.
Qed.

(** ** multiply(): the row partition *)

Section Partition.
Variables m_row nthread : Z.
Hypothesis Hrow : 0 <= m_row <= INT_MAX.
Hypothesis Hn : 1 <= nthread <= INT_MAX.

Lemma quot_rem_div_mod :
  Z.quot m_row nthread = m_row / nthread /\
  Z.rem m_row nthread = m_row mod nthread.
Proof. split; [apply Z.quot_div_nonneg | apply Z.rem_mod_nonneg]; lia. Qed.

Lemma div_mod_facts :
  0 <= m_row / nthread /\ 0 <= m_row mod nthread < nthread /\
  m_row = nthread * (m_row / nthread) + m_row mod nthread.
Proof.
  pose proof (Z.mod_pos_bound m_row nthread).
  pose proof (Z.div_mod m_row nthread).
  assert (0 <= m_row / nthread) by (apply Z.div_pos; lia). lia.
Qed.

Lemma nth_start_bound n : 0 <= n <= nthread ->
  0 <= nth_start m_row nthread n <= m_row.
Proof.
  intros Hn'. unfold nth_start. destruct div_mod_facts as (Hq & Hr & Heq). nia.
Qed.

Lemma nth_start_succ n : 0 <= n ->
  nth_start m_row nthread (n + 1) =
  nth_start m_row nthread n + m_row / nthread
  + (if n <? m_row mod nthread then 1 else 0).
Proof.
  intros Hn'. unfold nth_start.
  destruct (Z.ltb_spec n (m_row mod nthread)); lia.
Qed.

Lemma nth_start_0 : nth_start m_row nthread 0 = 0.
Proof. unfold nth_start. destruct div_mod_facts as (Hq & Hr & Heq). lia. Qed.

Lemma nth_start_last : nth_start m_row nthread nthread = m_row.
Proof. unfold nth_start. destruct div_mod_facts as (Hq & Hr & Heq). lia. Qed.

Lemma nth_start_mono a b : 0 <= a <= b ->
  nth_start m_row nthread a <= nth_start m_row nthread b.
Proof.
  intros H. unfold nth_start. destruct div_mod_facts as (Hq & Hr & Heq). nia.
Qed.

(** No addition of lines 285 and 287 overflows: each iteration yields the
    closed form. *)
Lemma task_of_closed n : 0 <= n < nthread ->
  task_of m_row nthread n (nth_start m_row nthread n) =
  {| start_row := nth_start m_row nthread n;
     end_row := nth_start m_row nthread (n + 1) |}.
Proof.
  intros Hn'. unfold task_of.
  destruct quot_rem_div_mod as [-> ->].
  rewrite nth_start_succ by lia.
  pose proof (nth_start_bound n ltac:(lia)).
  pose proof (nth_start_bound (n + 1) ltac:(lia)) as Hb.
  rewrite nth_start_succ in Hb by lia.
  destruct div_mod_facts as (Hq & Hr & Heq).
  f_equal. destruct (Z.ltb_spec n (m_row mod nthread)).
  - rewrite (to_int_id (_ + m_row / nthread))
      by (unfold is_int, INT_MIN, INT_MAX in *; lia).
    rewrite to_int_id by (unfold is_int, INT_MIN, INT_MAX in *; lia). lia.
  - rewrite to_int_id by (unfold is_int, INT_MIN, INT_MAX in *; lia). lia.
Qed.

Lemma partition_loop_lookup iters n i t :
  0 <= n -> n + Z.of_nat iters <= nthread ->
  partition_loop m_row nthread iters n (nth_start m_row nthread n) !! i
    = Some t ->
  t = {| start_row := nth_start m_row nthread (n + Z.of_nat i);
         end_row := nth_start m_row nthread (n + Z.of_nat i + 1) |}.
Proof.
  revert n i. induction iters as [|iters IH]; intros n i Hn0 Hle Hlk.
  - discriminate.
  - cbn [partition_loop] in Hlk.
    rewrite task_of_closed in Hlk by lia. cbn [end_row] in Hlk.
    rewrite to_int_id in Hlk by (unfold is_int, INT_MIN, INT_MAX in *; lia).
    destruct i as [|i]; cbn [lookup list_lookup] in Hlk.
    + injection Hlk as <-. by rewrite Z.add_0_r.
    + apply IH in Hlk; [|lia..]. subst t. f_equal; f_equal; lia.
Qed.

Lemma partition_loop_length iters n start :
  length (partition_loop m_row nthread iters n start) = iters.
Proof.
  revert n start. induction iters as [|iters IH]; intros; cbn; [done|].
  by rewrite IH.
Qed.

Lemma partition_length : length (partition m_row nthread) = Z.to_nat nthread.
Proof. apply partition_loop_length. Qed.

Lemma partition_lookup i t :
  partition m_row nthread !! i = Some t ->
  Z.of_nat i < nthread /\
  t = {| start_row := nth_start m_row nthread (Z.of_nat i);
         end_row := nth_start m_row nthread (Z.of_nat i + 1) |}.
Proof.
  intros Hlk. split.
  - apply lookup_lt_Some in Hlk. rewrite partition_length in Hlk. lia.
  - unfold partition in Hlk. rewrite <- nth_start_0 in Hlk at 2.
    apply partition_loop_lookup in Hlk; [done|lia|lia].
Qed.

Lemma partition_lookup_Some i : Z.of_nat i < nthread ->
  partition m_row nthread !! i =
  Some {| start_row := nth_start m_row nthread (Z.of_nat i);
          end_row := nth_start m_row nthread (Z.of_nat i + 1) |}.
Proof.
  intros Hi. destruct (partition m_row nthread !! i) as [t|] eqn:E.
  - by destruct (partition_lookup _ _ E) as [_ ->].
  - apply lookup_ge_None in E. rewrite partition_length in E. lia.
Qed.

(** Every row below [m_row] lies in the range of some worker. *)
Lemma nth_start_cover r : 0 <= r < m_row ->
  exists i : nat, Z.of_nat i < nthread /\
    nth_start m_row nthread (Z.of_nat i) <= r
      < nth_start m_row nthread (Z.of_nat i + 1).
Proof.
  intros Hr.
  assert (forall k : nat, Z.of_nat k <= nthread ->
            r < nth_start m_row nthread (Z.of_nat k) ->
            exists i : nat, Z.of_nat i < nthread /\
              nth_start m_row nthread (Z.of_nat i) <= r
                < nth_start m_row nthread (Z.of_nat i + 1)) as Hind.
  { induction k as [|k IH]; intros Hk Hlt.
    - change (Z.of_nat 0) with 0 in Hlt. rewrite nth_start_0 in Hlt. lia.
    - destruct (Z.lt_ge_cases r (nth_start m_row nthread (Z.of_nat k))).
      + apply IH; lia.
      + exists k. replace (Z.of_nat k + 1) with (Z.of_nat (S k)) by lia. lia. }
  apply (Hind (Z.to_nat nthread)); [lia|].
  rewrite Z2Nat.id by lia. rewrite nth_start_last. lia.
Qed.

End Partition.

(** C2.  For [rows >= 0] and [n_thread >= 1] (both [int]), the array [t]
    that the loop of [multiply] fills has [n_thread] tasks; the first
    starts at row 0, each next one starts where the previous ends, the last
    ends at [rows]; two different tasks share no row; a row is in some task
    exactly when it lies in [0, rows); and task [i] has
    [rows / n_thread] rows, plus one when [i < rows mod n_thread]. *)
Theorem partition_law m_row nthread :
  0 <= m_row <= INT_MAX -> 1 <= nthread <= INT_MAX ->
  let ts := partition m_row nthread in
  length ts = Z.to_nat nthread /\
  (exists t0, ts !! 0%nat = Some t0 /\ start_row t0 = 0) /\
  (exists tl, list.last ts = Some tl /\ end_row tl = m_row) /\
  (forall i t t', ts !! i = Some t -> ts !! S i = Some t' ->
     start_row t' = end_row t) /\
  (forall i j ti tj r, i <> j -> ts !! i = Some ti -> ts !! j = Some tj ->
     in_task r ti -> in_task r tj -> False) /\
  (forall r, 0 <= r < m_row <->
     exists i t, ts !! i = Some t /\ in_task r t) /\
  (forall i t, ts !! i = Some t ->
     task_rows t =
     m_row / nthread + (if Z.of_nat i <? m_row mod nthread then 1 else 0)).
Proof.
  intros Hrow Hn ts. subst ts.
  pose proof (partition_length m_row nthread) as Hlen.
  split; [done|]. split; [|split; [|split; [|split; [|split]]]].
  - eexists. split; [apply partition_lookup_Some; lia|].
    cbn. by apply nth_start_0.
  - rewrite last_lookup, Hlen.
    eexists. split; [apply partition_lookup_Some; lia|]. cbn.
    replace (Z.of_nat (Init.Nat.pred (Z.to_nat nthread)) + 1) with nthread
      by lia.
    by apply nth_start_last.
  - intros i t t' Hi Hi'.
    apply partition_lookup in Hi as [_ ->]; [|done..].
    apply partition_lookup in Hi' as [_ ->]; [|done..]. cbn.
    f_equal. lia.
  - intros i j ti tj r Hij Hi Hj [Hi1 Hi2] [Hj1 Hj2].
    apply partition_lookup in Hi as [Hil ->]; [|done..].
    apply partition_lookup in Hj as [Hjl ->]; [|done..]. cbn in *.
    destruct (Z.lt_ge_cases (Z.of_nat i) (Z.of_nat j)).
    + pose proof (nth_start_mono m_row nthread Hrow Hn
                    (Z.of_nat i + 1) (Z.of_nat j) ltac:(lia)). lia.
    + pose proof (nth_start_mono m_row nthread Hrow Hn
                    (Z.of_nat j + 1) (Z.of_nat i) ltac:(lia)). lia.
  - intros r. split.
    + intros Hr. destruct (nth_start_cover m_row nthread Hrow Hn r Hr)
        as (i & Hi & Hin).
      eexists i, _. split; [by apply partition_lookup_Some|]. exact Hin.
    + intros (i & t & Hi & [H1 H2]).
      apply partition_lookup in Hi as [Hil ->]; [|done..]. cbn in *.
      pose proof (nth_start_bound m_row nthread Hrow Hn (Z.of_nat i)
                    ltac:(lia)).
      pose proof (nth_start_bound m_row nthread Hrow Hn (Z.of_nat i + 1)
                    ltac:(lia)). lia.
  - intros i t Hi.
    apply partition_lookup in Hi as [Hil ->]; [|done..].
    unfold task_rows. cbn. rewrite nth_start_succ by lia. lia.
Qed.

Lemma partition_law_witness :
  0 <= 10 <= INT_MAX /\ 1 <= 3 <= INT_MAX /\
  partition 10 3 = [ {| start_row := 0; end_row := 4 |};
                     {| start_row := 4; end_row := 7 |};
                     {| start_row := 7; end_row := 10 |} ] /\
  forall r, 0 <= r < 10 <->
    exists i t, partition 10 3 !! i = Some t /\ in_task r t.
Proof.
  assert (0 <= 10 <= INT_MAX) as H1 by (unfold INT_MAX; lia).
  assert (1 <= 3 <= INT_MAX) as H2 by (unfold INT_MAX; lia).
  split; [exact H1|]. split; [exact H2|]. split; [reflexivity|].
  exact (proj1 (proj2 (proj2 (proj2 (proj2 (proj2
           (partition_law 10 3 H1 H2))))))).
Defined.

(** ** Loops *)

Lemma for_each_app {S A : Type} (body : S -> A -> option S) xs ys s :
  for_each body (xs ++ ys) s = for_each body xs s ≫= for_each body ys.
Proof.
  revert s. induction xs as [|x xs IH]; intros s; [done|].
  cbn [app for_each]. destruct (body s x) as [s'|]; [|done].
  cbn [mbind option_bind]. apply IH.
Qed.

Lemma for_each_inner {S : Type} (g : Z -> S -> Z -> option S) r cs s :
  for_each (fun st rc => g rc.1 st rc.2) (c ← cs; [(r, c)]) s
  = for_each (g r) cs s.
Proof.
  revert s. induction cs as [|c cs IH]; intros s; [done|].
  cbn [mbind list_bind app for_each fst snd].
  destruct (g r s c) as [s'|]; [|done]. cbn [mbind option_bind]. apply IH.
Qed.

(** Two nested loops visit the cells in row-major order. *)
Lemma for_each_nested {S : Type} (g : Z -> S -> Z -> option S) rs cs s :
  for_each (fun st r => for_each (g r) cs st) rs s =
  for_each (fun st rc => g rc.1 st rc.2) (r ← rs; c ← cs; [(r, c)]) s.
Proof.
  revert s. induction rs as [|r rs IH]; intros s; [done|].
  cbn [mbind list_bind for_each]. rewrite for_each_app, for_each_inner.
  destruct (for_each (g r) cs s) as [s'|]; [|done].
  cbn [mbind option_bind]. apply IH.
Qed.

Lemma elem_of_task_cells cols t r c :
  (r, c) ∈ task_cells cols t <-> in_task r t /\ 0 <= c < cols.
Proof.
  unfold task_cells, in_task. rewrite list_elem_of_bind. split.
  - intros (r' & Hin & Hr'). apply list_elem_of_bind in Hin as (c' & Hin & Hc').
    apply list_elem_of_singleton in Hin. injection Hin as -> ->.
    apply elem_of_seqZ in Hr'. apply elem_of_seqZ in Hc'. lia.
  - intros [Hr Hc]. exists r. split; [|apply elem_of_seqZ; lia].
    apply list_elem_of_bind. exists c. split; [by apply list_elem_of_singleton|].
    apply elem_of_seqZ. lia.
Qed.

(** ** Matrices *)

Lemma wf_matrix_shape M : wf_matrix M -> has_shape M (row M) (col M).
Proof.
  intros (_ & _ & Hl & Hrows). repeat split; [done|].
  eapply List.Forall_impl; [|exact Hrows]. by intros cells [? _].
Qed.

Lemma get_cell_in_shape M rows cols r c :
  has_shape M rows cols -> 0 <= r < rows -> 0 <= c < cols ->
  exists v, get_cell M r c = Some v.
Proof.
  intros (_ & _ & Hl & Hrows) Hr Hc. unfold get_cell.
  destruct (decide (0 <= r /\ 0 <= c)) as [_|]; [|lia].
  destruct (data M !! Z.to_nat r) as [cells|] eqn:Hcells.
  - cbn [mbind option_bind].
    rewrite Forall_lookup in Hrows. specialize (Hrows _ _ Hcells).
    apply lookup_lt_is_Some_2. lia.
  - apply lookup_ge_None in Hcells. lia.
Qed.

Lemma get_cell_wf M r c :
  wf_matrix M -> 0 <= r < row M -> 0 <= c < col M ->
  exists v, get_cell M r c = Some v /\ is_int v /\ cell M r c = v.
Proof.
  intros Hwf Hr Hc.
  destruct (get_cell_in_shape M _ _ r c (wf_matrix_shape M Hwf) Hr Hc)
    as [v Hv].
  exists v. split; [done|]. split; [|unfold cell; by rewrite Hv].
  destruct Hwf as (_ & _ & _ & Hrows). unfold get_cell in Hv.
  destruct (decide _); [|done].
  destruct (data M !! Z.to_nat r) as [cells|] eqn:Hcells; [|done].
  cbn [mbind option_bind] in Hv.
  rewrite Forall_lookup in Hrows. destruct (Hrows _ _ Hcells) as [_ Hints].
  rewrite Forall_lookup in Hints. by eapply Hints.
Qed.

(** A store inside the allocation succeeds, keeps the shape and changes
    the one cell. *)
Lemma set_cell_in_shape M rows cols r c v :
  has_shape M rows cols -> 0 <= r < rows -> 0 <= c < cols ->
  exists M', set_cell M r c v = Some M' /\ has_shape M' rows cols /\
    forall r' c', get_cell M' r' c' =
      if decide (r' = r /\ c' = c) then Some v else get_cell M r' c'.
Proof.
  intros (Hrow & Hcol & Hl & Hrows) Hr Hc. unfold set_cell.
  destruct (decide (0 <= r /\ 0 <= c)) as [_|]; [|lia].
  destruct (data M !! Z.to_nat r) as [cells|] eqn:Hcells.
  2:{ apply lookup_ge_None in Hcells. lia. }
  cbn [mbind option_bind].
  pose proof Hrows as Hrows'. rewrite Forall_lookup in Hrows'.
  pose proof (Hrows' _ _ Hcells) as Hlc.
  destruct (decide (Z.to_nat c < length cells)%nat) as [_|]; [|lia].
  eexists. split; [done|]. split.
  - repeat split; cbn; [done|done|by rewrite length_insert|].
    apply Forall_insert; [done|]. by rewrite length_insert.
  - intros r' c'. unfold get_cell. cbn [data].
    destruct (decide (0 <= r' /\ 0 <= c')) as [[Hr' Hc']|Hneg].
    2:{ destruct (decide (r' = r /\ c' = c)) as [[-> ->]|]; [lia|done]. }
    destruct (decide (r' = r)) as [->|Hne].
    + rewrite list_lookup_insert_eq by (by eapply lookup_lt_Some).
      rewrite Hcells. cbn [mbind option_bind].
      destruct (decide (c' = c)) as [->|Hnc].
      * rewrite decide_True by done. apply list_lookup_insert_eq. lia.
      * rewrite decide_False by tauto. apply list_lookup_insert_ne. lia.
    + rewrite decide_False by tauto.
      rewrite list_lookup_insert_ne by lia. done.
Qed.

(** A matrix is determined by its shape and its cells. *)
Lemma shape_ext M rows cols (f : Z -> Z -> Z) :
  has_shape M rows cols ->
  (forall r c, 0 <= r < rows -> 0 <= c < cols ->
     get_cell M r c = Some (f r c)) ->
  data M = map (fun r => map (f r) (seqZ 0 cols)) (seqZ 0 rows).
Proof.
  intros (_ & _ & Hl & Hrows) Hget. apply list_eq. intros i.
  change (map ?g ?l) with (g <$> l). rewrite list_lookup_fmap.
  destruct (decide (i < Z.to_nat rows)%nat) as [Hi|Hi].
  - rewrite lookup_seqZ_lt by lia. cbn [fmap option_fmap option_map].
    destruct (data M !! i) as [cells|] eqn:Hcells.
    2:{ apply lookup_ge_None in Hcells. lia. }
    f_equal. rewrite list.Forall_lookup in Hrows.
    pose proof (Hrows _ _ Hcells) as Hlc.
    apply list_eq. intros j. rewrite list_lookup_fmap.
    destruct (decide (j < Z.to_nat cols)%nat) as [Hj|Hj].
    + rewrite lookup_seqZ_lt by lia. cbn [fmap option_fmap option_map].
      specialize (Hget (Z.of_nat i) (Z.of_nat j) ltac:(lia) ltac:(lia)).
      unfold get_cell in Hget. destruct (decide _) as [_|]; [|lia].
      rewrite !Nat2Z.id, Hcells in Hget. cbn [mbind option_bind] in Hget.
      by rewrite Hget, !Z.add_0_l.
    + rewrite lookup_seqZ_ge by lia. cbn.
      apply lookup_ge_None. lia.
  - rewrite lookup_seqZ_ge by lia. cbn.
    apply lookup_ge_None. lia.
Qed.

Lemma matrix_ext M1 M2 rows cols :
  has_shape M1 rows cols -> has_shape M2 rows cols ->
  (forall r c, 0 <= r < rows -> 0 <= c < cols ->
     get_cell M1 r c = get_cell M2 r c) ->
  M1 = M2.
Proof.
  intros H1 H2 Hget.
  assert (forall r c, 0 <= r < rows -> 0 <= c < cols ->
            get_cell M1 r c = Some (default 0 (get_cell M1 r c))) as Hsome.
  { intros r c Hr Hc.
    by destruct (get_cell_in_shape M1 rows cols r c H1 Hr Hc) as [v ->]. }
  pose proof (shape_ext M1 rows cols _ H1 Hsome) as E1.
  assert (data M2 = data M1) as E2.
  { rewrite E1. apply shape_ext; [done|].
    intros r c Hr Hc. rewrite <- Hget by done. by apply Hsome. }
  destruct H1 as (Hr1 & Hc1 & _), H2 as (Hr2 & Hc2 & _).
  destruct M1, M2. cbn in *. by subst.
Qed.

(** ** thread(): the sum of products (lines 134-138) *)

Lemma dot_body_loop A B r c idx S :
  wf_matrix A -> wf_matrix B -> col A = row B ->
  0 <= r < row A -> 0 <= c < col B ->
  Forall (fun i => 0 <= i < col A) idx ->
  for_each (dot_body A B r c) idx (to_int S) =
  Some (to_int (S + foldr Z.add 0
                      (map (fun i => cell A r i * cell B i c) idx))).
Proof.
  intros HA HB Hdim Hr Hc Hidx. revert S.
  induction Hidx as [|i idx Hi _ IH]; intros S.
  - cbn. by rewrite Z.add_0_r.
  - cbn [for_each map foldr].
    assert (dot_body A B r c (to_int S) i
            = Some (to_int (S + cell A r i * cell B i c))) as ->.
    { unfold dot_body.
      destruct (get_cell_wf A r i HA Hr Hi) as (a & -> & _ & ->).
      destruct (get_cell_wf B i c HB ltac:(lia) Hc) as (b & -> & _ & ->).
      cbn [mbind option_bind]. by rewrite to_int_add_mul. }
    cbn [mbind option_bind]. rewrite IH. do 2 f_equal. lia.
Qed.

(** The child computes every cell of the product modulo [2^32]. *)
Lemma dot_product_spec A B r c :
  wf_matrix A -> wf_matrix B -> col A = row B ->
  0 <= r < row A -> 0 <= c < col B ->
  dot_product A B r c = Some (to_int (math_dot A B r c)).
Proof.
  intros HA HB Hdim Hr Hc. unfold dot_product, for_range, math_dot.
  change 0 with (to_int 0) at 3. rewrite Z.sub_0_r.
  rewrite (dot_body_loop A B r c _ 0) by
    (try done; apply list.Forall_forall; intros i Hi%elem_of_seqZ; lia).
  done.
Qed.

(** ** thread(): the pipe between child and parent *)

Lemma message_length prev v :
  length prev = Z.to_nat BUF_SIZE -> length (message prev v) = Z.to_nat BUF_SIZE.
Proof.
  intros Hl. unfold message. pose proof (fmt_signed_length v).
  rewrite length_app. cbn [length]. rewrite length_drop, Hl.
  change (Z.to_nat BUF_SIZE) with 1000%nat. lia.
Qed.

Lemma messages_length prev vs :
  length prev = Z.to_nat BUF_SIZE ->
  length (messages prev vs) = length vs /\
  Forall (fun msg => length msg = Z.to_nat BUF_SIZE) (messages prev vs).
Proof.
  revert prev. induction vs as [|v vs IH]; intros prev Hl; [by split|].
  cbn [messages length].
  destruct (IH _ (message_length prev v Hl)) as [IH1 IH2].
  split; [by rewrite IH1|]. constructor; [by apply message_length|done].
Qed.

(** The [k]-th message was printed for the [k]-th value. *)
Lemma messages_lookup prev vs k v :
  vs !! k = Some v ->
  exists prev', messages prev vs !! k = Some (message prev' v).
Proof.
  revert prev k. induction vs as [|v' vs IH]; intros prev k Hk; [done|].
  destruct k as [|k]; cbn in Hk |- *.
  - injection Hk as ->. by exists prev.
  - by apply IH.
Qed.

Lemma c_str_message prev v : c_str (message prev v) = fmt_signed v.
Proof. unfold message. apply c_str_app, fmt_signed_no_nul. Qed.

Lemma atoi_message prev v : is_int v -> atoi (message prev v) = v.
Proof. intros Hv. unfold message. by apply atoi_fmt_signed. Qed.

Lemma last_messages prev v vs :
  default prev (list.last (messages prev (v :: vs)))
  = default (message prev v) (list.last (messages (message prev v) vs)).
Proof.
  cbn [messages]. rewrite last_cons.
  by destruct (list.last (messages (message prev v) vs)).
Qed.

Lemma sprintf_message buf v :
  length buf = Z.to_nat BUF_SIZE ->
  sprintf buf (fmt_signed v) = Some (message buf v).
Proof.
  intros Hl. pose proof (fmt_signed_length v).
  apply sprintf_ok. rewrite Hl. change (Z.to_nat BUF_SIZE) with 1000%nat. lia.
Qed.

(** The child over a list of cells whose sums are [v]: one message of
    [BUF_SIZE] bytes is appended to the pipe per cell, in order. *)
Lemma child_cells A B (v : Z * Z -> Z) cells buf pipe :
  length buf = Z.to_nat BUF_SIZE ->
  (forall rc, rc ∈ cells -> dot_product A B rc.1 rc.2 = Some (v rc)) ->
  for_each (fun st rc => child_cell A B rc.1 st rc.2) cells
    {| c_buffer := buf; c_pipe := pipe |}
  = Some {| c_buffer := default buf (list.last (messages buf (map v cells)));
            c_pipe := pipe ++ concat (messages buf (map v cells)) |}.
Proof.
  revert buf pipe. induction cells as [|rc cells IH]; intros buf pipe Hl Hv.
  - cbn. by rewrite app_nil_r.
  - pose proof (message_length buf (v rc) Hl) as Hm.
    assert (child_cell A B rc.1 {| c_buffer := buf; c_pipe := pipe |} rc.2
            = Some {| c_buffer := message buf (v rc);
                      c_pipe := pipe ++ message buf (v rc) |}) as Hstep.
    { unfold child_cell.
      rewrite (Hv rc) by apply list_elem_of_here.
      cbn [mbind option_bind c_buffer].
      rewrite sprintf_message by done. cbn [mbind option_bind c_pipe].
      by rewrite take_ge by lia. }
    cbn [for_each]. rewrite Hstep. cbn [mbind option_bind].
    rewrite IH; [|done|intros; apply Hv; by apply list_elem_of_further].
    cbn [map]. rewrite last_messages. cbn [messages concat].
    by rewrite <- app_assoc.
Qed.

(** The parent over the same cells, the pipe holding the child's
    messages: every read returns exactly one message, its value is stored
    in the cell the child computed it for, and the pipe is drained. *)
Lemma parent_cells rows cols (v : Z * Z -> Z) cells buf rest M reads :
  length buf = Z.to_nat BUF_SIZE ->
  has_shape M rows cols ->
  (forall rc, rc ∈ cells ->
     0 <= rc.1 < rows /\ 0 <= rc.2 < cols /\ is_int (v rc)) ->
  exists M',
    for_each (fun st rc => parent_cell rc.1 st rc.2) cells
      {| p_buffer := buf;
         p_pipe := concat (messages buf (map v cells)) ++ rest;
         p_m := Some M; p_reads := reads |}
    = Some {| p_buffer :=
                default buf (list.last (messages buf (map v cells)));
              p_pipe := rest; p_m := Some M';
              p_reads := reads ++ messages buf (map v cells) |} /\
    has_shape M' rows cols /\
    forall r c, get_cell M' r c =
      if decide ((r, c) ∈ cells) then Some (v (r, c)) else get_cell M r c.
Proof.
  revert buf M reads.
  induction cells as [|[r0 c0] cells IH]; intros buf M reads Hl Hshape Hv.
  - exists M. cbn. rewrite app_nil_r. split; [done|]. split; [done|].
    intros r c. rewrite decide_False; [done|]. apply not_elem_of_nil.
  - destruct (Hv (r0, c0)) as (Hr0 & Hc0 & Hint); [apply list_elem_of_here|].
    cbn [fst snd] in Hr0, Hc0.
    pose proof (message_length buf (v (r0, c0)) Hl) as Hm.
    destruct (set_cell_in_shape M rows cols r0 c0 (v (r0, c0)) Hshape Hr0 Hc0)
      as (M1 & Hset & Hshape1 & Hget1).
    destruct (IH (message buf (v (r0, c0))) M1
                 (reads ++ [message buf (v (r0, c0))]) Hm Hshape1)
      as (M' & Hrun & Hshape' & Hget').
    { intros; apply Hv; by apply list_elem_of_further. }
    exists M'. split; [|split; [done|]].
    + assert (parent_cell r0
                {| p_buffer := buf;
                   p_pipe := message buf (v (r0, c0)) ++
                             concat (messages (message buf (v (r0, c0)))
                                              (map v cells)) ++ rest;
                   p_m := Some M; p_reads := reads |} c0
              = Some {| p_buffer := message buf (v (r0, c0));
                        p_pipe := concat (messages (message buf (v (r0, c0)))
                                                   (map v cells)) ++ rest;
                        p_m := Some M1;
                        p_reads := reads ++ [message buf (v (r0, c0))] |})
        as Hstep.
      { unfold parent_cell. cbn [p_buffer p_pipe p_m p_reads].
        rewrite take_app_length' by done.
        rewrite store_bytes_0 by lia. cbn [mbind option_bind].
        rewrite drop_ge by lia. rewrite app_nil_r.
        rewrite atoi_message by done.
        rewrite Hset. cbn [mbind option_bind].
        by rewrite drop_app_length' by done. }
      cbn [for_each map fst snd]. rewrite last_messages.
      cbn [messages concat]. rewrite <- !app_assoc.
      rewrite Hstep. cbn [mbind option_bind].
      rewrite Hrun. by rewrite <- app_assoc.
    + intros r c. rewrite Hget', Hget1.
      destruct (decide ((r, c) ∈ cells)) as [Hin|Hnin].
      * rewrite decide_True; [done|]. by apply list_elem_of_further.
      * destruct (decide (r = r0 /\ c = c0)) as [[-> ->]|Hne].
        -- rewrite decide_True; [done|]. apply list_elem_of_here.
        -- rewrite decide_False; [done|].
           intros [Heq|Hin]%elem_of_cons; [|done].
           injection Heq as -> ->. tauto.
Qed.

Lemma thread_child_flat A B t buffer :
  thread_child A B t buffer =
  for_each (fun st rc => child_cell A B rc.1 st rc.2) (task_cells (col B) t)
    {| c_buffer := buffer; c_pipe := [] |}.
Proof.
  unfold thread_child, for_range, task_cells. rewrite Z.sub_0_r.
  apply (for_each_nested (child_cell A B)).
Qed.

Lemma thread_parent_flat B t st :
  thread_parent B t st =
  for_each (fun st rc => parent_cell rc.1 st rc.2) (task_cells (col B) t) st.
Proof.
  unfold thread_parent, for_range, task_cells. rewrite Z.sub_0_r.
  apply (for_each_nested parent_cell).
Qed.

Lemma uninit_chars_length junk n : length (uninit_chars junk n) = Z.to_nat n.
Proof. unfold uninit_chars. by rewrite length_map, length_seq. Qed.

Lemma row_cells_length (r : Z) (l : list Z) :
  length (l ≫= λ c, [(r, c)]) = length l.
Proof. induction l as [|x l IH]; cbn; [done|]. by rewrite IH. Qed.

Lemma row_cells_lookup (r : Z) (l : list Z) k x :
  l !! k = Some x -> (l ≫= λ c, [(r, c)]) !! k = Some (r, x).
Proof.
  revert k. induction l as [|y l IH]; intros [|k] Hk; try done.
  - cbn in Hk. by injection Hk as ->.
  - cbn in Hk |- *. by apply IH.
Qed.

(** Row-major order: the cells of row [r] follow those of the rows before
    it, column by column. *)
Lemma task_cells_row_major cols t r c :
  in_task r t -> 0 <= c < cols ->
  task_cells cols t !! Z.to_nat ((r - start_row t) * cols + c) = Some (r, c).
Proof.
  unfold task_cells, in_task. intros Hr Hc.
  assert (forall (n : nat) start, start <= r < start + Z.of_nat n ->
            (seqZ start (Z.of_nat n) ≫= λ r0, seqZ 0 cols ≫= λ c0, [(r0, c0)])
              !! Z.to_nat ((r - start) * cols + c) = Some (r, c)) as Hind.
  { induction n as [|n IH]; intros start Hs; [lia|].
    rewrite Nat2Z.inj_succ, (seqZ_cons start) by lia.
    cbn [mbind list_bind].
    pose proof (row_cells_length start (seqZ 0 cols)) as Hlen.
    rewrite length_seqZ in Hlen.
    destruct (decide (r = start)) as [->|Hne].
    - rewrite Z.sub_diag, Z.mul_0_l, Z.add_0_l.
      rewrite lookup_app_l by lia.
      apply row_cells_lookup. rewrite lookup_seqZ. lia.
    - rewrite lookup_app_r by nia. rewrite Hlen.
      replace (Z.to_nat ((r - start) * cols + c) - Z.to_nat cols)%nat
        with (Z.to_nat ((r - Z.succ start) * cols + c)) by nia.
      replace (Z.pred (Z.succ (Z.of_nat n))) with (Z.of_nat n) by lia.
      apply IH. lia. }
  specialize (Hind (Z.to_nat (end_row t - start_row t)) (start_row t)).
  rewrite Z2Nat.id in Hind by lia. apply Hind. lia.
Qed.

(** ** Workers running side by side *)

Lemma child_cell_step A B r c buf pipe v :
  length buf = Z.to_nat BUF_SIZE ->
  dot_product A B r c = Some v ->
  child_cell A B r {| c_buffer := buf; c_pipe := pipe |} c =
  Some {| c_buffer := message buf v; c_pipe := pipe ++ message buf v |}.
Proof.
  intros Hl Hv. pose proof (message_length buf v Hl) as Hm.
  unfold child_cell. rewrite Hv. cbn [mbind option_bind c_buffer].
  rewrite sprintf_message by done. cbn [mbind option_bind c_pipe].
  by rewrite take_ge by lia.
Qed.

Lemma parent_cell_step rows cols r c buf msg rest M reads :
  length buf = Z.to_nat BUF_SIZE -> length msg = Z.to_nat BUF_SIZE ->
  has_shape M rows cols -> 0 <= r < rows -> 0 <= c < cols ->
  exists M',
    parent_cell r {| p_buffer := buf; p_pipe := msg ++ rest; p_m := Some M;
                     p_reads := reads |} c =
    Some {| p_buffer := msg; p_pipe := rest; p_m := Some M';
            p_reads := reads ++ [msg] |} /\
    has_shape M' rows cols /\
    forall r' c', get_cell M' r' c' =
      if decide (r' = r /\ c' = c) then Some (atoi msg) else get_cell M r' c'.
Proof.
  intros Hl Hm Hshape Hr Hc.
  destruct (set_cell_in_shape M rows cols r c (atoi msg) Hshape Hr Hc)
    as (M1 & Hset & Hshape1 & Hget1).
  exists M1. split; [|done].
  unfold parent_cell. cbn [p_buffer p_pipe p_m p_reads].
  rewrite take_app_length' by done.
  rewrite store_bytes_0 by lia. cbn [mbind option_bind].
  rewrite drop_ge by lia. rewrite app_nil_r.
  rewrite Hset. cbn [mbind option_bind].
  by rewrite drop_app_length' by done.
Qed.

Lemma elem_of_third {X : Type} (x : X) l1 l2 l3 : x ∈ l1 ++ l2 ++ x :: l3.
Proof. rewrite !elem_of_app. right. right. apply list_elem_of_here. Qed.

Lemma elem_of_second {X : Type} (x : X) l1 l2 l3 :
  x ∈ l1 ++ (x :: l2) ++ l3.
Proof. rewrite !elem_of_app. right. left. apply list_elem_of_here. Qed.

Section Crew.
Variables A B : Matrix.
Variable ts : list Task.
Variable junk : nat -> nat -> ascii.
Variable M0 : Matrix.
Hypothesis HA : wf_matrix A.
Hypothesis HB : wf_matrix B.
Hypothesis Hdim : col A = row B.
Hypothesis Hts : Forall (fun t => 0 <= start_row t /\ end_row t <= row A) ts.

Lemma crew_cell_value i t r c :
  ts !! i = Some t -> (r, c) ∈ task_cells (col B) t ->
  0 <= r < row A /\ 0 <= c < col B /\
  dot_product A B r c = Some (to_int (math_dot A B r c)).
Proof.
  intros Ht [[Hr1 Hr2] Hc]%elem_of_task_cells.
  rewrite Forall_lookup in Hts. destruct (Hts _ _ Ht) as [Hs He].
  assert (0 <= r < row A) by lia.
  split; [done|]. split; [done|]. by apply dot_product_spec.
Qed.

Lemma work_start_inv :
  has_shape M0 (row A) (col B) ->
  crew_inv A B ts junk M0 (work_start (col B) ts junk (Some M0)).
Proof.
  intros Hshape. exists M0. split; [done|]. split; [done|]. split; [done|].
  cbn [work_start crew_workers]. split; [by rewrite length_imap|].
  intros i w t Hw Ht. rewrite list_lookup_imap, Ht in Hw. injection Hw as <-.
  exists [], [], []. cbn [w_child_todo w_parent_todo w_reads w_pipe
                          w_child_buf w_parent_buf app concat length].
  split; [done|]. split; [done|]. split; [done|]. split; [done|].
  split; [constructor|].
  split; [apply uninit_chars_length|]. split; [apply uninit_chars_length|].
  split; [done|]. intros rc Hrc. by apply not_elem_of_nil in Hrc.
Qed.

Lemma work_step_inv ev s s' :
  crew_inv A B ts junk M0 s -> work_step A B ev s = Some s' ->
  crew_inv A B ts junk M0 s'.
Proof.
  intros (M & Hm & Hshape & Hkeep & Hlen & Hall) Hstep.
  destruct ev as [i|i]; cbn [work_step] in Hstep.
  - destruct (crew_workers s !! i) as [w|] eqn:Hw; [|done].
    cbn [mbind option_bind] in Hstep.
    destruct (w_child_todo w) as [|[r c] todo] eqn:Htodo; [done|].
    destruct (ts !! i) as [t|] eqn:Ht.
    2:{ apply lookup_lt_Some in Hw. apply lookup_ge_None in Ht. lia. }
    destruct (Hall i w t Hw Ht)
      as (pre & mid & pend & Hcells & Hpt & Hmsgs & Hpipe & Hf2 & Hcb & Hpb
          & Hrd & Hpre).
    rewrite Htodo in Hcells, Hpt, Hmsgs.
    destruct (crew_cell_value i t r c Ht) as (Hr & Hc & Hdot).
    { rewrite Hcells. apply elem_of_third. }
    rewrite (child_cell_step A B r c _ _ _ Hcb Hdot) in Hstep.
    cbn [mbind option_bind c_buffer c_pipe] in Hstep. injection Hstep as <-.
    exists M. cbn [crew_m crew_workers].
    split; [done|]. split; [done|]. split; [done|].
    split; [by rewrite length_insert|].
    intros j w' t' Hw' Ht'.
    destruct (decide (i = j)) as [<-|Hne].
    + rewrite list_lookup_insert_eq in Hw' by (by eapply lookup_lt_Some).
      injection Hw' as <-. rewrite Ht in Ht'. injection Ht' as <-.
      set (msg := message (w_child_buf w) (to_int (math_dot A B r c))).
      exists pre, (mid ++ [(r, c)]), (pend ++ [msg]).
      cbn [w_child_todo w_parent_todo w_reads w_pipe w_child_buf
           w_parent_buf].
      split; [by rewrite Hcells, <- !app_assoc|].
      split; [by rewrite Hpt, <- !app_assoc|].
      split; [by rewrite Hmsgs, <- !app_assoc|].
      split; [by rewrite Hpipe, concat_app; cbn; rewrite app_nil_r|].
      split.
      { apply Forall2_app; [done|]. constructor; [|constructor].
        split; [by apply message_length|]. apply atoi_message, to_int_range. }
      split; [by apply message_length|]. done.
    + rewrite list_lookup_insert_ne in Hw' by done. by apply Hall.
  - destruct (crew_workers s !! i) as [w|] eqn:Hw; [|done].
    cbn [mbind option_bind] in Hstep.
    destruct (w_parent_todo w) as [|[r c] todo] eqn:Htodo; [done|].
    destruct (w_pipe w) as [|b bs] eqn:Hbytes; [done|].
    destruct (ts !! i) as [t|] eqn:Ht.
    2:{ apply lookup_lt_Some in Hw. apply lookup_ge_None in Ht. lia. }
    destruct (Hall i w t Hw Ht)
      as (pre & mid & pend & Hcells & Hpt & Hmsgs & Hpipe & Hf2 & Hcb & Hpb
          & Hrd & Hpre).
    destruct pend as [|msg pend].
    { rewrite Hbytes in Hpipe. discriminate Hpipe. }
    apply Forall2_cons_inv_r in Hf2
      as (rc & mid' & [Hml Hma] & Hf2 & ->).
    rewrite Htodo in Hpt. cbn [app] in Hpt. injection Hpt as <- ->.
    destruct (crew_cell_value i t r c Ht) as (Hr & Hc & Hdot).
    { rewrite Hcells. apply elem_of_second. }
    rewrite <- Hbytes, Hpipe, Hm in Hstep. cbn [concat] in Hstep.
    destruct (parent_cell_step (row A) (col B) r c (w_parent_buf w) msg
                (concat pend) M (w_reads w) Hpb Hml Hshape Hr Hc)
      as (M1 & Hpc & Hshape1 & Hget1).
    rewrite Hpc in Hstep.
    cbn [mbind option_bind p_buffer p_pipe p_m p_reads] in Hstep.
    injection Hstep as <-. cbn [fst snd] in Hma.
    exists M1. cbn [crew_m crew_workers].
    split; [done|]. split; [done|].
    split.
    { intros r' c' Hout. rewrite Hget1.
      destruct (decide (r' = r /\ c' = c)) as [[-> ->]|]; [|by apply Hkeep].
      exfalso. apply (Hout t); [by eapply list_elem_of_lookup_2|].
      rewrite Hcells. apply elem_of_second. }
    split; [by rewrite length_insert|].
    assert (forall rc0 : Z * Z,
              get_cell M rc0.1 rc0.2 = Some (to_int (math_dot A B rc0.1 rc0.2)) ->
              get_cell M1 rc0.1 rc0.2 = Some (to_int (math_dot A B rc0.1 rc0.2)))
      as Hstay.
    { intros [r0 c0] H0. cbn [fst snd] in *. rewrite Hget1.
      destruct (decide (r0 = r /\ c0 = c)) as [[-> ->]|]; [|done].
      by rewrite Hma. }
    intros j w' t' Hw' Ht'.
    destruct (decide (i = j)) as [<-|Hne].
    + rewrite list_lookup_insert_eq in Hw' by (by eapply lookup_lt_Some).
      injection Hw' as <-. rewrite Ht in Ht'. injection Ht' as <-.
      exists (pre ++ [(r, c)]), mid', pend.
      cbn [w_child_todo w_parent_todo w_reads w_pipe w_child_buf
           w_parent_buf].
      split; [by rewrite Hcells, <- !app_assoc|].
      split; [done|].
      split; [by rewrite Hmsgs, <- !app_assoc|].
      split; [done|]. split; [done|]. split; [done|]. split; [done|].
      split; [rewrite !length_app; cbn; lia|].
      intros rc0 [Hin|Hin]%elem_of_app.
      * by apply Hstay, Hpre.
      * apply list_elem_of_singleton in Hin as ->. cbn [fst snd].
        rewrite Hget1, decide_True by done. by rewrite Hma.
    + rewrite list_lookup_insert_ne in Hw' by done.
      destruct (Hall j w' t' Hw' Ht')
        as (pre' & mid'' & pend' & H1 & H2 & H3 & H4 & H5 & H6 & H7 & H8 & H9).
      exists pre', mid'', pend'. do 8 (split; [done|]).
      intros rc0 Hin. by apply Hstay, H9.
Qed.

Lemma work_run_inv evs s s' :
  crew_inv A B ts junk M0 s -> work_run A B evs s = Some s' ->
  crew_inv A B ts junk M0 s'.
Proof.
  revert s. induction evs as [|ev evs IH]; intros s Hinv Hrun.
  - cbn in Hrun. by injection Hrun as <-.
  - cbn [work_run for_each] in Hrun.
    destruct (work_step A B ev s) as [s1|] eqn:Hstep; [|done].
    cbn [mbind option_bind] in Hrun. apply (IH s1); [|done].
    by eapply work_step_inv.
Qed.

(** When every thread has left its loop, [m] holds in each cell of each
    task the sum its child computed, the other cells are as they were, and
    every worker has read, in order, exactly the messages its child wrote,
    leaving its pipe empty. *)
Lemma crew_result evs s :
  has_shape M0 (row A) (col B) ->
  work_run A B evs (work_start (col B) ts junk (Some M0)) = Some s ->
  all_collected s ->
  exists M,
    crew_m s = Some M /\ has_shape M (row A) (col B) /\
    (forall t r c, t ∈ ts -> (r, c) ∈ task_cells (col B) t ->
       get_cell M r c = dot_product A B r c /\
       get_cell M r c = Some (to_int (math_dot A B r c))) /\
    (forall r c, (forall t, t ∈ ts -> (r, c) ∉ task_cells (col B) t) ->
       get_cell M r c = get_cell M0 r c) /\
    length (crew_workers s) = length ts /\
    forall i w t, crew_workers s !! i = Some w -> ts !! i = Some t ->
      w_child_todo w = [] /\ w_pipe w = [] /\
      w_reads w =
        messages (uninit_chars (junk i) BUF_SIZE)
                 (map (fun rc => to_int (math_dot A B rc.1 rc.2))
                      (task_cells (col B) t)).
Proof.
  intros Hshape Hrun Hdone.
  destruct (work_run_inv evs _ s (work_start_inv Hshape) Hrun)
    as (M & Hm & HshapeM & Hkeep & Hlen & Hall).
  assert (forall i w t, crew_workers s !! i = Some w -> ts !! i = Some t ->
            w_child_todo w = [] /\ w_pipe w = [] /\
            w_reads w =
              messages (uninit_chars (junk i) BUF_SIZE)
                       (map (fun rc => to_int (math_dot A B rc.1 rc.2))
                            (task_cells (col B) t)) /\
            forall rc, rc ∈ task_cells (col B) t ->
              get_cell M rc.1 rc.2 = Some (to_int (math_dot A B rc.1 rc.2)))
    as Hfin.
  { intros i w t Hw Ht.
    destruct (Hall i w t Hw Ht)
      as (pre & mid & pend & Hcells & Hpt & Hmsgs & Hpipe & Hf2 & _ & _
          & _ & Hpre).
    rewrite (Hdone i w Hw) in Hpt. symmetry in Hpt.
    apply app_eq_nil in Hpt as [-> Htodo].
    apply Forall2_nil_inv_l in Hf2 as ->.
    rewrite Htodo in Hcells, Hmsgs. cbn in Hmsgs, Hpipe.
    rewrite !app_nil_r in *. subst pre.
    split; [done|]. split; [done|]. split; [by symmetry|]. done. }
  exists M. split; [done|]. split; [done|]. split.
  { intros t r c Ht Hrc. apply list_elem_of_lookup in Ht as [i Ht].
    destruct (lookup_lt_is_Some_2 (crew_workers s) i) as [w Hw].
    { rewrite Hlen. by eapply lookup_lt_Some. }
    destruct (Hfin i w t Hw Ht) as (_ & _ & _ & Hval).
    destruct (crew_cell_value i t r c Ht Hrc) as (_ & _ & ->).
    split; by apply (Hval (r, c)). }
  split; [done|]. split; [done|].
  intros i w t Hw Ht. by destruct (Hfin i w t Hw Ht) as (? & ? & ? & _).
Qed.

(** No worker is ever stuck: while a thread has cells to collect, either
    a message waits in its pipe or its child has cells to compute, and the
    corresponding event can be taken. *)
Lemma crew_progress evs s i w :
  has_shape M0 (row A) (col B) ->
  work_run A B evs (work_start (col B) ts junk (Some M0)) = Some s ->
  crew_workers s !! i = Some w -> w_parent_todo w <> [] ->
  (w_pipe w <> [] /\ exists s', work_step A B (ParentCell i) s = Some s') \/
  (w_pipe w = [] /\ exists s', work_step A B (ChildCell i) s = Some s').
Proof.
  intros Hshape Hrun Hw Htodo.
  destruct (work_run_inv evs _ s (work_start_inv Hshape) Hrun)
    as (M & Hm & HshapeM & Hkeep & Hlen & Hall).
  destruct (ts !! i) as [t|] eqn:Ht.
  2:{ apply lookup_lt_Some in Hw. apply lookup_ge_None in Ht. lia. }
  destruct (Hall i w t Hw Ht)
    as (pre & mid & pend & Hcells & Hpt & Hmsgs & Hpipe & Hf2 & Hcb & Hpb
        & Hrd & Hpre).
  destruct pend as [|msg pend].
  - right. apply Forall2_nil_inv_r in Hf2 as ->. cbn in Hpipe, Hpt.
    split; [done|]. cbn [work_step]. rewrite Hw. cbn [mbind option_bind].
    destruct (w_child_todo w) as [|[r c] todo] eqn:Hct; [congruence|].
    destruct (crew_cell_value i t r c Ht) as (Hr & Hc & Hdot).
    { rewrite Hcells. apply elem_of_third. }
    rewrite (child_cell_step A B r c _ _ _ Hcb Hdot). cbn. by eexists.
  - left. apply Forall2_cons_inv_r in Hf2
      as ([r c] & mid' & [Hml Hma] & Hf2 & ->).
    assert (exists b bs, msg = b :: bs) as (b & bs & ->).
    { destruct msg as [|b bs]; [|by eexists _, _].
      cbn in Hml. change (Z.to_nat BUF_SIZE) with 1000%nat in Hml. lia. }
    split; [rewrite Hpipe; done|].
    destruct (crew_cell_value i t r c Ht) as (Hr & Hc & Hdot).
    { rewrite Hcells. apply elem_of_second. }
    cbn [work_step]. rewrite Hw. cbn [mbind option_bind].
    rewrite Hpt. cbn [app].
    destruct (parent_cell_step (row A) (col B) r c (w_parent_buf w) (b :: bs)
                (concat pend) M (w_reads w) Hpb Hml HshapeM Hr Hc)
      as (M1 & Hpc & _).
    rewrite Hm.
    assert (w_pipe w = b :: (bs ++ concat pend)) as -> by (by rewrite Hpipe).
    change (b :: (bs ++ concat pend)) with ((b :: bs) ++ concat pend).
    rewrite Hpc. cbn. by eexists.
Qed.

End Crew.

Lemma sum_list_insert {X : Type} (f : X -> nat) l i x y :
  l !! i = Some x -> S (f y) = f x ->
  S (sum_list (map f (<[i := y]> l))) = sum_list (map f l).
Proof.
  revert i. induction l as [|z l IH]; intros [|i] Hi Hf; try done.
  - cbn in Hi. injection Hi as ->. cbn. by rewrite <- Hf.
  - cbn in Hi. cbn. rewrite <- (IH i Hi Hf). by rewrite Nat.add_succ_r.
Qed.

(** Every event is one pass through a loop body: a run cannot be longer
    than the work there is. *)
Lemma work_run_length A B evs s s' :
  work_run A B evs s = Some s' ->
  (work_left s' + length evs = work_left s)%nat.
Proof.
  revert s. induction evs as [|ev evs IH]; intros s Hrun.
  - cbn in Hrun. injection Hrun as <-. cbn. lia.
  - cbn [work_run for_each] in Hrun.
    destruct (work_step A B ev s) as [s1|] eqn:Hstep; [|done].
    cbn [mbind option_bind] in Hrun. specialize (IH s1 Hrun).
    assert (S (work_left s1) = work_left s) as Hone; [|cbn [length]; lia].
    clear IH Hrun. unfold work_left.
    destruct ev as [i|i]; cbn [work_step] in Hstep;
      (destruct (crew_workers s !! i) as [w|] eqn:Hw; [|done]);
      cbn [mbind option_bind] in Hstep.
    + destruct (w_child_todo w) as [|[r c] todo] eqn:Htodo; [done|].
      destruct (child_cell _ _ _ _ _) as [st|]; [|done].
      cbn in Hstep. injection Hstep as <-. cbn [crew_workers].
      apply (sum_list_insert _ _ _ w); [done|]. cbn. rewrite Htodo. cbn. lia.
    + destruct (w_parent_todo w) as [|[r c] todo] eqn:Htodo; [done|].
      destruct (w_pipe w) as [|b bs]; [done|].
      destruct (parent_cell _ _ _) as [st|]; [|done].
      cbn in Hstep. injection Hstep as <-. cbn [crew_workers].
      apply (sum_list_insert _ _ _ w); [done|]. cbn. rewrite Htodo. cbn. lia.
Qed.

(** ** thread(): the protocol between child and parent *)

(** C8.  For a task inside the rows of [m1]: the child writes one message
    of [BUF_SIZE] bytes per cell of its rows, in row-major order, the
    message of a cell being the decimal text of the sum computed for it;
    the parent performs as many reads, the [k]-th read returning exactly
    the [k]-th message, and the pipe is empty afterwards; and the parent
    leaves in cell [(r, c)] of [m] the integer the child computed for
    [(r, c)], every other cell of [m] being untouched.  The same holds
    when child and parent run side by side: however their passes through
    the loops interleave, the parent's reads return the same messages in
    the same order, the pipe ends empty and [m] is the same matrix. *)
Theorem pipe_protocol A B t junk M :
  wf_matrix A -> wf_matrix B -> col A = row B ->
  0 <= start_row t -> end_row t <= row A ->
  has_shape M (row A) (col B) ->
  let buffer := uninit_chars junk BUF_SIZE in
  let cells := task_cells (col B) t in
  exists child parent msgs M',
    thread_child A B t buffer = Some child /\
    thread_parent B t {| p_buffer := buffer; p_pipe := c_pipe child;
                         p_m := Some M; p_reads := [] |} = Some parent /\
    c_pipe child = concat msgs /\
    length msgs = length cells /\
    Forall (fun msg => Z.of_nat (length msg) = BUF_SIZE) msgs /\
    (forall r c, in_task r t -> 0 <= c < col B ->
       cells !! Z.to_nat ((r - start_row t) * col B + c) = Some (r, c)) /\
    (forall k r c, cells !! k = Some (r, c) ->
       exists msg sum,
         msgs !! k = Some msg /\ dot_product A B r c = Some sum /\
         c_str msg = fmt_signed sum /\ atoi msg = sum) /\
    p_reads parent = msgs /\ p_pipe parent = [] /\
    p_m parent = Some M' /\
    (forall r c, get_cell M' r c =
       if decide ((r, c) ∈ cells) then dot_product A B r c
       else get_cell M r c) /\
    forall evs s,
      work_run A B evs (work_start (col B) [t] (fun _ => junk) (Some M))
        = Some s ->
      all_collected s ->
      crew_m s = Some M' /\ map w_reads (crew_workers s) = [msgs] /\
      map w_pipe (crew_workers s) = [[]].
Proof.
  intros HA HB Hdim Hs He Hshape buffer cells.
  set (v := fun rc : Z * Z => to_int (math_dot A B rc.1 rc.2)).
  assert (length buffer = Z.to_nat BUF_SIZE) as Hbuf
    by apply uninit_chars_length.
  assert (forall rc, rc ∈ cells ->
            0 <= rc.1 < row A /\ 0 <= rc.2 < col B /\
            dot_product A B rc.1 rc.2 = Some (v rc)) as Hcells.
  { intros [r c] [[Hr1 Hr2] Hc]%elem_of_task_cells. cbn [fst snd].
    split; [lia|]. split; [done|]. apply dot_product_spec; try done. lia. }
  set (msgs := messages buffer (map v cells)).
  destruct (messages_length buffer (map v cells) Hbuf) as [Hlen Hall].
  destruct (parent_cells (row A) (col B) v cells buffer [] M [] Hbuf Hshape)
    as (M' & Hparent & Hshape' & Hget).
  { intros rc Hrc. destruct (Hcells rc Hrc) as (? & ? & _).
    split; [done|]. split; [done|]. apply to_int_range. }
  eexists _, _, msgs, M'.
  split.
  { rewrite thread_child_flat. apply (child_cells A B v); [done|].
    intros rc Hrc. by destruct (Hcells rc Hrc) as (_ & _ & ?). }
  cbn [c_pipe app].
  split.
  { rewrite thread_parent_flat. rewrite <- (app_nil_r (concat _)).
    exact Hparent. }
  cbn [p_reads p_pipe p_m app].
  split; [done|]. split; [subst msgs; by rewrite Hlen, length_map|].
  split.
  { eapply List.Forall_impl; [|exact Hall]. cbn. intros msg ->.
    by rewrite Z2Nat.id. }
  split. { intros r c Hr Hc. by apply task_cells_row_major. }
  split.
  { intros k r c Hk.
    destruct (Hcells (r, c)) as (_ & _ & Hdot);
      [by eapply list_elem_of_lookup_2|]. cbn [fst snd] in Hdot.
    destruct (messages_lookup buffer (map v cells) k (v (r, c)))
      as (prev & Hmsg).
    { change (map v cells) with (v <$> cells).
      by rewrite list_lookup_fmap, Hk. }
    exists (message prev (v (r, c))), (v (r, c)).
    split; [done|]. split; [done|].
    split; [apply c_str_message|apply atoi_message, to_int_range]. }
  split; [done|]. split; [done|]. split; [done|].
  split.
  { intros r c. rewrite Hget.
    destruct (decide ((r, c) ∈ cells)) as [Hin|]; [|done].
    destruct (Hcells (r, c) Hin) as (_ & _ & Hdot). cbn [fst snd] in Hdot.
    by rewrite Hdot. }
  intros evs s Hrun Hdone.
  assert (Forall (fun t => 0 <= start_row t /\ end_row t <= row A) [t])
    as Hts by (constructor; [done|constructor]).
  destruct (crew_result A B [t] (fun _ => junk) M HA HB Hdim Hts evs s
              Hshape Hrun Hdone)
    as (M2 & Hm2 & Hshape2 & Hval & Hkeep & Hlen2 & Hws).
  destruct (crew_workers s) as [|w [|? ?]] eqn:Hcw; try done.
  destruct (Hws 0%nat w t eq_refl eq_refl) as (_ & Hp & Hr).
  split.
  - rewrite Hm2. f_equal.
    apply (matrix_ext _ _ (row A) (col B)); [done|done|].
    intros r c _ _. rewrite Hget.
    destruct (decide ((r, c) ∈ cells)) as [Hin|Hnin].
    + by destruct (Hval t r c ltac:(apply list_elem_of_here) Hin) as [_ ->].
    + apply Hkeep. by intros t0 ->%list_elem_of_singleton.
  - cbn. split; [by rewrite Hr|by rewrite Hp].
Qed.

(** ** thread() as a whole *)

(** The telemetry transaction of a worker never fails, match or not. *)
Lemma transaction_total tasks id st :
  wf_procfs st -> is_int id ->
  exists pos st' pos' answer,
    proc_write tasks (request_of id) 0 st = Some (pos, st') /\
    wf_procfs st' /\
    proc_read (request_of id) pos st' = Some (pos', answer).
Proof.
  intros Hwf Hid. pose proof (fmt_signed_length id) as Hl.
  destruct (find_task tasks id) as [p|] eqn:Hf.
  - destruct (proc_write_spec tasks id p 0 st Hwf Hid) as (rest & Hw & Hwf');
      [unfold PROCFS_MAX_SIZE; lia|done|].
    destruct (proc_read_spec id p (0 + (Z.of_nat (length (fmt_signed id)) + 1))
                rest) as (answer & pos' & Hr & _); [lia|done|].
    by eexists _, _, _, _.
  - destruct (proc_write_no_match_spec tasks id 0 st Hwf Hid)
      as (st1 & Hw & Hwf1 & Hsz); [unfold PROCFS_MAX_SIZE; lia|done|].
    eexists _, st1, _, _. split; [exact Hw|]. split; [done|].
    apply proc_read_at_end. lia.
Qed.

(** Child and parent of one worker, on a task inside the rows of [A]. *)
Lemma thread_collect A B t junk M :
  wf_matrix A -> wf_matrix B -> col A = row B ->
  0 <= start_row t -> end_row t <= row A ->
  has_shape M (row A) (col B) ->
  let buffer := uninit_chars junk BUF_SIZE in
  let v := fun rc : Z * Z => to_int (math_dot A B rc.1 rc.2) in
  let msgs := messages buffer (map v (task_cells (col B) t)) in
  exists M',
    thread_child A B t buffer
      = Some {| c_buffer := default buffer (list.last msgs);
                c_pipe := concat msgs |} /\
    thread_parent B t {| p_buffer := buffer; p_pipe := concat msgs;
                         p_m := Some M; p_reads := [] |}
      = Some {| p_buffer := default buffer (list.last msgs); p_pipe := [];
                p_m := Some M'; p_reads := msgs |} /\
    has_shape M' (row A) (col B) /\
    (forall r c, get_cell M' r c =
       if decide ((r, c) ∈ task_cells (col B) t)
       then Some (v (r, c)) else get_cell M r c) /\
    (forall r c, (r, c) ∈ task_cells (col B) t ->
       dot_product A B r c = Some (v (r, c))).
Proof.
  intros HA HB Hdim Hs He Hshape buffer v msgs.
  assert (length buffer = Z.to_nat BUF_SIZE) as Hbuf
    by apply uninit_chars_length.
  assert (forall rc, rc ∈ task_cells (col B) t ->
            0 <= rc.1 < row A /\ 0 <= rc.2 < col B /\
            dot_product A B rc.1 rc.2 = Some (v rc)) as Hcells.
  { intros [r c] [[Hr1 Hr2] Hc]%elem_of_task_cells. cbn [fst snd].
    split; [lia|]. split; [done|]. apply dot_product_spec; try done. lia. }
  destruct (parent_cells (row A) (col B) v (task_cells (col B) t)
              buffer [] M [] Hbuf Hshape)
    as (M' & Hparent & Hshape' & Hget).
  { intros rc Hrc. destruct (Hcells rc Hrc) as (? & ? & _).
    split; [done|]. split; [done|]. apply to_int_range. }
  exists M'. split; [|split; [|split; [done|split; [done|]]]].
  - rewrite thread_child_flat. apply (child_cells A B v); [done|].
    intros rc Hrc. by destruct (Hcells rc Hrc) as (_ & _ & ?).
  - rewrite thread_parent_flat. rewrite <- (app_nil_r (concat _)).
    exact Hparent.
  - intros r c Hin. by destruct (Hcells (r, c) Hin) as (_ & _ & ?).
Qed.

(** One worker whose [pipe] and [fork] succeed: [thread] returns, the
    cells of its task hold the sums modulo [2^32], no other cell of [m]
    has changed, and the module is left in a valid state. *)
Lemma thread_effect A B te t w M :
  wf_matrix A -> wf_matrix B -> col A = row B ->
  0 <= start_row t -> end_row t <= row A ->
  pipe_ok te = true -> 0 <= fork_ret te <= INT_MAX ->
  m w = Some M -> has_shape M (row A) (col B) -> wf_procfs (module w) ->
  exists w' M',
    thread A B te t w = Some w' /\
    m w' = Some M' /\ has_shape M' (row A) (col B) /\
    wf_procfs (module w') /\
    totalTime w' = totalTime w /\ result_txt w' = result_txt w /\
    spawned w' = spawned w /\
    forall r c, get_cell M' r c =
      if decide ((r, c) ∈ task_cells (col B) t)
      then Some (to_int (math_dot A B r c)) else get_cell M r c.
Proof.
  intros HA HB Hdim Hs He Hpipe Hfork Hm Hshape Hwf.
  destruct (thread_collect A B t (stack_junk te) M HA HB Hdim Hs He Hshape)
    as (M' & Hchild & Hparent & Hshape' & Hget & _).
  unfold thread. rewrite Hpipe. cbn [negb].
  destruct (Z.ltb_spec (fork_ret te) 0); [lia|].
  rewrite Hchild. cbn [mbind option_bind c_pipe child_exit m].
  rewrite Hm, Hparent. cbn [mbind option_bind p_m].
  destruct (open_ok te); cbn [negb].
  - assert (is_int (fork_ret te)) as Hint
      by (unfold is_int, INT_MIN; lia).
    destruct (transaction_total (tasks_now te) (fork_ret te) (module w) Hwf Hint)
      as (pos & st' & pos' & answer & Hw & Hwf' & Hr).
    rewrite proc_request_spec. cbn [mbind option_bind].
    cbn [set_m module child_exit]. rewrite Hw. cbn [mbind option_bind].
    rewrite Hr. cbn [mbind option_bind].
    by eexists _, M'.
  - by eexists _, M'.
Qed.

(** The workers one after the other, in any order and with any tasks
    inside the rows of [m1]: cells already right stay right, and the cells
    of every task become right. *)
Lemma threads_effect os g (done_ : Z -> Z -> Prop) args w M :
  wf_matrix (m1 g) -> wf_matrix (m2 g) -> col (m1 g) = row (m2 g) ->
  (forall nt, nt ∈ args ->
     0 <= start_row nt.2 /\ end_row nt.2 <= row (m1 g) /\
     pipe_ok (thread_os os nt.1) = true /\
     0 <= fork_ret (thread_os os nt.1) <= INT_MAX) ->
  m w = Some M -> has_shape M (row (m1 g)) (col (m2 g)) ->
  wf_procfs (module w) ->
  (forall r c, done_ r c ->
     get_cell M r c = Some (to_int (math_dot (m1 g) (m2 g) r c))) ->
  exists w' M',
    for_each (run_thread os g) args w = Some w' /\
    m w' = Some M' /\ has_shape M' (row (m1 g)) (col (m2 g)) /\
    wf_procfs (module w') /\
    totalTime w' = totalTime w /\ result_txt w' = result_txt w /\
    spawned w' = spawned w ++ map snd args /\
    forall r c,
      done_ r c \/ (exists nt, nt ∈ args /\ (r, c) ∈ task_cells (col (m2 g)) nt.2) ->
      get_cell M' r c = Some (to_int (math_dot (m1 g) (m2 g) r c)).
Proof.
  intros HA HB Hdim. revert done_ w M.
  induction args as [|nt args IH]; intros done_ w M Hargs Hm Hshape Hwf Hdone.
  - exists w, M. cbn [for_each map]. rewrite app_nil_r.
    do 7 (split; [done|]).
    intros r c [Hd|(nt & Hin & _)]; [by apply Hdone|].
    by apply not_elem_of_nil in Hin.
  - destruct (Hargs nt) as (Hs & He & Hpipe & Hfork); [apply list_elem_of_here|].
    destruct (thread_effect (m1 g) (m2 g) (thread_os os nt.1) nt.2 w M
                HA HB Hdim Hs He Hpipe Hfork Hm Hshape Hwf)
      as (w1 & M1 & Hthread & Hm1 & Hshape1 & Hwf1 & Ht1 & Hres1 & Hsp1 & Hget1).
    destruct (IH (fun r c => done_ r c \/
                             (r, c) ∈ task_cells (col (m2 g)) nt.2)
                 {| m := m w1; totalTime := totalTime w1;
                    console := console w1; result_txt := result_txt w1;
                    spawned := spawned w1 ++ [nt.2]; module := module w1;
                    child_stdout := child_stdout w1 |}
                 M1)
      as (w' & M' & Hrun & Hm' & Hshape' & Hwf' & Ht' & Hres' & Hsp' & Hget');
      try done.
    { intros; apply Hargs. by apply list_elem_of_further. }
    { intros r c Hrc. rewrite Hget1.
      destruct (decide ((r, c) ∈ task_cells (col (m2 g)) nt.2)); [done|].
      destruct Hrc as [Hd|?]; [by apply Hdone|done]. }
    assert (run_thread os g w nt =
            Some {| m := m w1; totalTime := totalTime w1;
                    console := console w1; result_txt := result_txt w1;
                    spawned := spawned w1 ++ [nt.2]; module := module w1;
                    child_stdout := child_stdout w1 |})
      as Hstep by (unfold run_thread; by rewrite Hthread).
    exists w', M'. cbn [for_each]. rewrite Hstep.
    cbn [mbind option_bind]. rewrite Hrun.
    split; [done|]. split; [done|]. split; [done|]. split; [done|].
    split; [by rewrite Ht'|]. split; [by rewrite Hres'|].
    split. { rewrite Hsp'. cbn [spawned map]. rewrite Hsp1.
             by rewrite <- app_assoc. }
    intros r c [Hd|(nt' & Hin & Hcell)]; apply Hget'.
    + by left; left.
    + apply elem_of_cons in Hin as [->|Hin]; [by left; right|].
      right. by exists nt'.
Qed.

(** ** multiply() *)

Lemma alloc_matrix_shape os rows cols :
  has_shape (alloc_matrix os rows cols) rows cols.
Proof.
  unfold alloc_matrix. repeat split; cbn.
  - by rewrite length_map, length_seqZ.
  - apply list.Forall_forall. intros cells Hin.
    apply list_elem_of_fmap in Hin as (r & -> & _).
    by rewrite length_map, length_seqZ.
Qed.

Lemma alloc_succeeds rows cols :
  rows <= 0 \/ 0 <= cols -> alloc_fails rows cols = false.
Proof.
  intros H. unfold alloc_fails.
  destruct (Z.ltb_spec 0 rows), (Z.ltb_spec cols 0); try done. lia.
Qed.

Lemma for_each_is_Some {S A : Type} (body : S -> A -> option S) xs s :
  (forall s' x, x ∈ xs -> is_Some (body s' x)) ->
  is_Some (for_each body xs s).
Proof.
  revert s. induction xs as [|x xs IH]; intros s Hbody; [by eexists|].
  cbn [for_each]. destruct (Hbody s x) as [s' ->]; [apply list_elem_of_here|].
  cbn [mbind option_bind]. apply IH.
  intros; apply Hbody. by apply list_elem_of_further.
Qed.

(** [write_result] reads inside the allocation only. *)
Lemma result_text_is_Some M rows cols :
  has_shape M rows cols -> is_Some (result_text M).
Proof.
  intros Hshape. pose proof Hshape as (Hrow & Hcol & _).
  unfold result_text, for_range.
  apply for_each_is_Some. intros text r Hr%elem_of_seqZ.
  unfold result_line, for_range.
  destruct (for_each_is_Some
              (fun text c => v ← get_cell M r c;
                             Some (text ++ fmt_signed v ++ chars " "))
              (seqZ 0 (col M - 0)) text) as [line ->]; [|by eexists].
  intros text' c Hc%elem_of_seqZ.
  destruct (get_cell_in_shape M rows cols r c Hshape) as [v ->]; [lia..|].
  by eexists.
Qed.

Lemma write_result_spec os w M rows cols :
  m w = Some M -> has_shape M rows cols ->
  exists w', write_result os w = Some w' /\
    m w' = m w /\ totalTime w' = totalTime w /\ spawned w' = spawned w /\
    module w' = module w.
Proof.
  intros Hm Hshape. unfold write_result.
  destruct (fopen_ok os); cbn [negb]; [|by eexists].
  rewrite Hm. cbn [mbind option_bind].
  destruct (result_text_is_Some M rows cols Hshape) as [text ->].
  by eexists.
Qed.

Lemma write_result_keeps os w w' :
  write_result os w = Some w' ->
  m w' = m w /\ totalTime w' = totalTime w /\ spawned w' = spawned w.
Proof.
  unfold write_result. destruct (fopen_ok os); cbn [negb].
  - destruct (m w) as [M|]; [|done]. cbn [mbind option_bind].
    destruct (result_text M); [|done]. by intros [= <-].
  - by intros [= <-].
Qed.

(** The arguments of the threads, when each thread copies its [Task]
    after [multiply] has completed it. *)
Lemma thread_args_elem os m_row nthread nt :
  0 <= m_row <= INT_MAX -> 1 <= nthread <= INT_MAX ->
  (forall n, 0 <= n < nthread -> early os n = false) ->
  nt ∈ thread_args os (partition m_row nthread) ->
  0 <= nt.1 < nthread /\
  nt.2 = {| start_row := nth_start m_row nthread nt.1;
            end_row := nth_start m_row nthread (nt.1 + 1) |}.
Proof.
  intros Hrow Hn Hearly Hin. unfold thread_args in Hin.
  apply elem_of_lookup_imap_1 in Hin as (i & t & -> & Hi).
  apply partition_lookup in Hi as [Hil ->]; [|done..]. cbn [fst snd].
  split; [lia|]. unfold thread_arg. by rewrite Hearly by lia.
Qed.

Lemma thread_args_cover os m_row nthread r :
  0 <= m_row <= INT_MAX -> 1 <= nthread <= INT_MAX ->
  (forall n, 0 <= n < nthread -> early os n = false) ->
  0 <= r < m_row ->
  exists nt, nt ∈ thread_args os (partition m_row nthread) /\ in_task r nt.2.
Proof.
  intros Hrow Hn Hearly Hr.
  destruct (nth_start_cover m_row nthread Hrow Hn r Hr) as (i & Hi & Hin).
  eexists. split.
  - unfold thread_args. eapply elem_of_lookup_imap_2.
    by apply partition_lookup_Some.
  - cbn [snd]. unfold thread_arg. rewrite Hearly by lia. exact Hin.
Qed.

(** [multiply] on matrices that can be multiplied, with at least one
    worker, all of whose [pipe] and [fork] calls succeed and whose threads
    copy their completed [Task]: the call returns, in whatever order the
    workers run, with [m] holding the product modulo [2^32] and
    [totalTime] the difference of the two [tv_sec] readings. *)
Lemma multiply_with_spec order os g w :
  (forall l : list (Z * Task), order l ≡ₚ l) ->
  wf_matrix (m1 g) -> wf_matrix (m2 g) -> col (m1 g) = row (m2 g) ->
  1 <= n_thread g <= INT_MAX ->
  wf_procfs (module w) ->
  (forall n, 0 <= n < n_thread g ->
     pipe_ok (thread_os os n) = true /\
     0 <= fork_ret (thread_os os n) <= INT_MAX /\
     early os n = false) ->
  exists w' M,
    multiply_with order os g w = Some w' /\
    m w' = Some M /\ row M = row (m1 g) /\ col M = col (m2 g) /\
    data M = map (fun r => map (fun c => to_int (math_dot (m1 g) (m2 g) r c))
                               (seqZ 0 (col (m2 g))))
                 (seqZ 0 (row (m1 g))) /\
    totalTime w' =
      to_int (to_long (tv_sec (endTime os) - tv_sec (startTime os))).
Proof.
  intros Horder HA HB Hdim Hn Hwf Henv.
  pose proof HA as (HrowA & _). pose proof HB as (_ & HcolB & _).
  assert (forall n, 0 <= n < n_thread g -> early os n = false) as Hearly
    by (intros n Hn'; by destruct (Henv n Hn') as (_ & _ & ?)).
  unfold multiply_with.
  destruct (Z.eqb_spec (col (m1 g)) (row (m2 g))) as [_|]; [|done].
  cbn [negb]. rewrite alloc_succeeds by lia.
  destruct (Z.ltb_spec (n_thread g) 0); [lia|].
  set (w0 := print _ (set_m _ w)).
  assert (forall nt,
            nt ∈ order (thread_args os (partition (row (m1 g)) (n_thread g))) ->
            0 <= start_row nt.2 /\ end_row nt.2 <= row (m1 g) /\
            pipe_ok (thread_os os nt.1) = true /\
            0 <= fork_ret (thread_os os nt.1) <= INT_MAX) as Hargs.
  { intros nt Hin. rewrite Horder in Hin.
    destruct (thread_args_elem os _ _ nt HrowA Hn Hearly Hin) as [Hnt Heq].
    destruct (Henv nt.1 Hnt) as (Hpipe & Hfork & _).
    rewrite Heq. cbn [start_row end_row].
    pose proof (nth_start_bound _ _ HrowA Hn nt.1 ltac:(lia)).
    pose proof (nth_start_bound _ _ HrowA Hn (nt.1 + 1) ltac:(lia)).
    split; [lia|]. split; [lia|]. by split. }
  destruct (threads_effect os g (fun _ _ => False)
              (order (thread_args os (partition (row (m1 g)) (n_thread g))))
              w0 (alloc_matrix os (row (m1 g)) (col (m2 g)))
              HA HB Hdim Hargs eq_refl (alloc_matrix_shape _ _ _) Hwf)
    as (w1 & M1 & Hrun & Hm1 & Hshape1 & Hwf1 & _ & _ & _ & Hget); [done|].
  rewrite Hrun. cbn [mbind option_bind].
  destruct (write_result_spec os
              {| m := m w1;
                 totalTime := to_int (to_long (tv_sec (endTime os)
                                               - tv_sec (startTime os)));
                 console := console w1; result_txt := result_txt w1;
                 spawned := spawned w1; module := module w1;
                 child_stdout := child_stdout w1 |}
              M1 _ _ Hm1 Hshape1)
    as (w' & Hw' & Hm' & Ht' & _).
  exists w', M1. split; [exact Hw'|]. cbn [m totalTime] in Hm', Ht'.
  split; [by rewrite Hm'|].
  destruct Hshape1 as (HrowM & HcolM & Hrest).
  split; [done|]. split; [done|]. split; [|done].
  apply (shape_ext M1 (row (m1 g)) (col (m2 g))
           (fun r c => to_int (math_dot (m1 g) (m2 g) r c))); [done|].
  intros r c Hr Hc. apply Hget. right.
  destruct (thread_args_cover os _ _ r HrowA Hn Hearly Hr) as (nt & Hin & Hrt).
  exists nt. split; [by rewrite Horder|]. by apply elem_of_task_cells.
Qed.

Lemma math_product_fits A B :
  (forall r c, 0 <= r < row A -> 0 <= c < col B -> is_int (math_dot A B r c)) ->
  map (fun r => map (fun c => to_int (math_dot A B r c)) (seqZ 0 (col B)))
      (seqZ 0 (row A))
  = math_product A B.
Proof.
  intros Hfits. unfold math_product.
  apply map_ext_in. intros r Hr%list_elem_of_In%elem_of_seqZ.
  apply map_ext_in. intros c Hc%list_elem_of_In%elem_of_seqZ.
  apply to_int_id, Hfits; lia.
Qed.

(** [multiply] runs its workers one after the other; the threads of the
    program run side by side.  Whatever the interleaving of their passes
    through lines 134-141 and 152-153, once every thread has collected its
    cells [m] is the matrix [multiply] returns with. *)
Lemma multiply_under_interleaving os g w junk evs s :
  wf_matrix (m1 g) -> wf_matrix (m2 g) -> col (m1 g) = row (m2 g) ->
  1 <= n_thread g <= INT_MAX ->
  wf_procfs (module w) ->
  (forall n, 0 <= n < n_thread g ->
     pipe_ok (thread_os os n) = true /\
     0 <= fork_ret (thread_os os n) <= INT_MAX /\
     early os n = false) ->
  work_run (m1 g) (m2 g) evs
    (work_start (col (m2 g)) (partition (row (m1 g)) (n_thread g)) junk
       (Some (alloc_matrix os (row (m1 g)) (col (m2 g))))) = Some s ->
  all_collected s ->
  exists w', multiply os g w = Some w' /\ crew_m s = m w'.
Proof.
  intros HA HB Hdim Hn Hwf Henv Hrun Hdone.
  pose proof HA as (HrowA & _).
  destruct (multiply_with_spec (fun l => l) os g w) as
    (w' & [r1 c1 d1] & Hmul & Hm & Hrow & Hcol & Hdata & _); try done.
  cbn [row col data] in Hrow, Hcol, Hdata.
  assert (Forall (fun t => 0 <= start_row t /\ end_row t <= row (m1 g))
                 (partition (row (m1 g)) (n_thread g))) as Hts.
  { apply Forall_lookup. intros i t Hi.
    apply partition_lookup in Hi as [Hil ->]; [|done..]. cbn.
    pose proof (nth_start_bound _ _ HrowA Hn (Z.of_nat i) ltac:(lia)).
    pose proof (nth_start_bound _ _ HrowA Hn (Z.of_nat i + 1) ltac:(lia)).
    lia. }
  destruct (crew_result (m1 g) (m2 g) _ junk _ HA HB Hdim Hts evs s
              (alloc_matrix_shape os _ _) Hrun Hdone)
    as ([r2 c2 d2] & Hm' & Hshape & Hval & _).
  exists w'. split; [done|]. rewrite Hm, Hm'. f_equal.
  pose proof (shape_ext _ _ _
                (fun r c => to_int (math_dot (m1 g) (m2 g) r c)) Hshape)
    as Hext.
  destruct Hshape as (Hr2 & Hc2 & _). cbn [row col data] in *.
  rewrite Hext, Hrow, Hcol, Hdata, Hr2, Hc2; [done|].
  intros r c Hr Hc.
  destruct (nth_start_cover _ _ HrowA Hn r Hr) as (i & Hi & Hin).
  eapply Hval.
  - eapply list_elem_of_lookup_2. by apply partition_lookup_Some.
  - by apply elem_of_task_cells.
Qed.

(** C1 (as the code has it).  For matrices [m1], [m2] of [int] cells with
    [m1.col == m2.row] and any number [n_thread >= 1] of workers whose
    [pipe] and [fork] calls succeed and whose threads copy their completed
    [Task]: whenever every entry of the standard product fits an [int],
    [multiply] returns with [m] holding exactly the standard product of
    [m1] and [m2], whatever [n_thread] is; and the workers of the
    partition, run side by side in any interleaving of their passes
    through the loops, leave that same matrix in [m] once every thread has
    collected its cells. *)
Theorem multiply_computes_product os g w :
  wf_matrix (m1 g) -> wf_matrix (m2 g) -> col (m1 g) = row (m2 g) ->
  1 <= n_thread g <= INT_MAX ->
  wf_procfs (module w) ->
  (forall n, 0 <= n < n_thread g ->
     pipe_ok (thread_os os n) = true /\
     0 <= fork_ret (thread_os os n) <= INT_MAX /\
     early os n = false) ->
  (forall r c, 0 <= r < row (m1 g) -> 0 <= c < col (m2 g) ->
     is_int (math_dot (m1 g) (m2 g) r c)) ->
  exists w' M,
    multiply os g w = Some w' /\ m w' = Some M /\
    row M = row (m1 g) /\ col M = col (m2 g) /\
    data M = math_product (m1 g) (m2 g) /\
    forall junk evs s,
      work_run (m1 g) (m2 g) evs
        (work_start (col (m2 g)) (partition (row (m1 g)) (n_thread g)) junk
           (Some (alloc_matrix os (row (m1 g)) (col (m2 g))))) = Some s ->
      all_collected s ->
      crew_m s = Some M.
Proof.
  intros HA HB Hdim Hn Hwf Henv Hfits.
  destruct (multiply_with_spec (fun l => l) os g w) as
    (w' & M & Hrun & Hm & Hrow & Hcol & Hdata & _); try done.
  exists w', M. split; [exact Hrun|]. split; [done|]. split; [done|].
  split; [done|]. split; [rewrite Hdata; by apply math_product_fits|].
  intros junk evs s Hevs Hdone.
  destruct (multiply_under_interleaving os g w junk evs s) as (w2 & Hw2 & ->);
    try done.
  fold (multiply os g w) in Hrun. rewrite Hrun in Hw2. by injection Hw2 as <-.
Qed.

(** The same result in whatever order the workers are run. *)
Lemma multiply_any_order order os g w :
  (forall l : list (Z * Task), order l ≡ₚ l) ->
  wf_matrix (m1 g) -> wf_matrix (m2 g) -> col (m1 g) = row (m2 g) ->
  1 <= n_thread g <= INT_MAX ->
  wf_procfs (module w) ->
  (forall n, 0 <= n < n_thread g ->
     pipe_ok (thread_os os n) = true /\
     0 <= fork_ret (thread_os os n) <= INT_MAX /\
     early os n = false) ->
  exists w1 w2 M,
    multiply os g w = Some w1 /\ multiply_with order os g w = Some w2 /\
    m w1 = Some M /\ m w2 = Some M.
Proof.
  intros Horder HA HB Hdim Hn Hwf Henv.
  destruct (multiply_with_spec (fun l => l) os g w) as
    (w1 & [r1 c1 d1] & Hrun1 & Hm1 & Hrow1 & Hcol1 & Hdata1 & _); try done.
  destruct (multiply_with_spec order os g w) as
    (w2 & [r2 c2 d2] & Hrun2 & Hm2 & Hrow2 & Hcol2 & Hdata2 & _); try done.
  cbn in *. exists w1, w2, {| row := r1; col := c1; data := d1 |}.
  split; [done|]. split; [done|]. split; [done|].
  rewrite Hm2. by subst.
Qed.

Lemma wf_matrix_a : wf_matrix matrix_a.
Proof.
  unfold wf_matrix, is_int, INT_MIN, INT_MAX. cbn.
  repeat split; try lia; repeat constructor; lia.
Defined.

Lemma wf_matrix_b : wf_matrix matrix_b.
Proof.
  unfold wf_matrix, is_int, INT_MIN, INT_MAX. cbn.
  repeat split; try lia; repeat constructor; lia.
Defined.

Lemma multiply_computes_product_witness :
  let g := {| n_thread := 4; m1 := matrix_a; m2 := matrix_b |} in
  let evs := [ ChildCell 1; ChildCell 0; ChildCell 0; ParentCell 1;
               ParentCell 0; ChildCell 1; ParentCell 0; ParentCell 1 ] in
  wf_matrix matrix_a /\ wf_matrix matrix_b /\ col matrix_a = row matrix_b /\
  1 <= 4 <= INT_MAX /\
  exists w' M s,
    multiply (example_os noon noon) g (initial_world module_at_load) = Some w' /\
    m w' = Some M /\ data M = [[19; 22]; [43; 50]] /\
    work_run matrix_a matrix_b evs
      (work_start 2 (partition 2 4) (fun _ _ => "x"%char)
         (Some (alloc_matrix (example_os noon noon) 2 2))) = Some s /\
    all_collected s /\ crew_m s = Some M.
Proof.
  set (g := {| n_thread := 4; m1 := matrix_a; m2 := matrix_b |}).
  set (evs := [ ChildCell 1; ChildCell 0; ChildCell 0; ParentCell 1;
                ParentCell 0; ChildCell 1; ParentCell 0; ParentCell 1 ]).
  assert (1 <= 4 <= INT_MAX) as Hn by (unfold INT_MAX; lia).
  assert (forall n, 0 <= n < n_thread g ->
            pipe_ok (thread_os (example_os noon noon) n) = true /\
            0 <= fork_ret (thread_os (example_os noon noon) n) <= INT_MAX /\
            early (example_os noon noon) n = false) as Henv.
  { intros n Hn'. cbn in *. unfold INT_MAX. split; [reflexivity|].
    split; [lia|reflexivity]. }
  assert (forall r c, 0 <= r < row (m1 g) -> 0 <= c < col (m2 g) ->
            is_int (math_dot (m1 g) (m2 g) r c)) as Hfits.
  { intros r c Hr Hc. cbn in Hr, Hc.
    assert (r = 0 \/ r = 1) as [-> | ->] by lia;
      (assert (c = 0 \/ c = 1) as [-> | ->] by lia);
      vm_compute; split; discriminate. }
  split; [exact wf_matrix_a|]. split; [exact wf_matrix_b|].
  split; [reflexivity|]. split; [exact Hn|].
  destruct (multiply_computes_product (example_os noon noon) g
              (initial_world module_at_load)
              wf_matrix_a wf_matrix_b eq_refl Hn wf_module_at_load Henv Hfits)
    as (w' & M & Hrun & Hm & _ & _ & Hdata & Hany).
  destruct (work_run matrix_a matrix_b evs
              (work_start 2 (partition 2 4) (fun _ _ => "x"%char)
                 (Some (alloc_matrix (example_os noon noon) 2 2))))
    as [s|] eqn:Hs; [|vm_compute in Hs; discriminate Hs].
  assert (all_collected s) as Hdone.
  { pose proof Hs as Hs'. vm_compute in Hs'. injection Hs' as <-.
    intros [|[|[|[|i]]]] w Hw; cbn in Hw; try discriminate Hw;
      injection Hw as <-; reflexivity. }
  exists w', M, s. split; [exact Hrun|]. split; [exact Hm|].
  split; [exact Hdata|]. split; [reflexivity|]. split; [exact Hdone|].
  exact (Hany (fun _ _ => "x"%char) evs s Hs Hdone).
Defined.

(** C1, counterexample: a row of 2148 cells times a column of 2148 cells,
    every cell 1000 (inside the range of the file format).  The product
    has the single entry 2148000000; [m] holds -2146967296. *)
Lemma multiply_overflow_counterexample :
  let g := {| n_thread := 1; m1 := long_row; m2 := long_col |} in
  wf_matrix long_row /\ wf_matrix long_col /\
  col long_row = row long_col /\
  math_product long_row long_col = [[2148000000]] /\
  exists w',
    multiply (example_os noon noon) g (initial_world module_at_load) = Some w' /\
    m w' = Some {| row := 1; col := 1; data := [[-2146967296]] |} /\
    INT_MAX < 2148000000.
Proof.
  assert (is_int 1000) as H1000 by (unfold is_int, INT_MIN, INT_MAX; lia).
  split.
  { unfold wf_matrix, INT_MAX. cbn [row col data long_row].
    split; [lia|]. split; [lia|]. split; [reflexivity|].
    constructor; [|constructor]. split; [reflexivity|].
    apply list.Forall_forall. by intros x [-> _]%elem_of_replicate. }
  split.
  { unfold wf_matrix, INT_MAX. cbn [row col data long_col].
    split; [lia|]. split; [lia|]. split; [reflexivity|].
    apply list.Forall_forall. intros x [-> _]%elem_of_replicate.
    split; [reflexivity|]. by constructor. }
  split; [reflexivity|]. split; [vm_compute; reflexivity|].
  eexists. split; [vm_compute; reflexivity|].
  split; [reflexivity|]. unfold INT_MAX. lia.
Qed.

(** The design document's scenarios A and B: 1 and 4 workers. *)
Example scenario_a_b :
  (exists w', multiply (example_os noon noon)
                {| n_thread := 1; m1 := matrix_a; m2 := matrix_b |}
                (initial_world module_at_load) = Some w' /\
              m w' = Some {| row := 2; col := 2;
                             data := [[19; 22]; [43; 50]] |} /\
              spawned w' = [ {| start_row := 0; end_row := 2 |} ]) /\
  (exists w', multiply (example_os noon noon)
                {| n_thread := 4; m1 := matrix_a; m2 := matrix_b |}
                (initial_world module_at_load) = Some w' /\
              m w' = Some {| row := 2; col := 2;
                             data := [[19; 22]; [43; 50]] |} /\
              spawned w' = [ {| start_row := 0; end_row := 1 |};
                             {| start_row := 1; end_row := 2 |};
                             {| start_row := 2; end_row := 2 |};
                             {| start_row := 2; end_row := 2 |} ]).
Proof.
  split; eexists; (split; [vm_compute; reflexivity|]); split; reflexivity.
Qed.

(** Line 277 starts thread [n] before lines 284-287 store [t[n].end_row]:
    a thread that copies its [Task] at once works on whatever [malloc]
    left there.  With 0 there, worker 0 of scenario A collects nothing
    and [m] keeps its unwritten cells. *)
Example hasty_thread_misses_rows :
  exists w',
    multiply (hasty_os noon noon)
      {| n_thread := 1; m1 := matrix_a; m2 := matrix_b |}
      (initial_world module_at_load) = Some w' /\
    m w' = Some {| row := 2; col := 2; data := [[-7; -7]; [-7; -7]] |} /\
    spawned w' = [ {| start_row := 0; end_row := 0 |} ].
Proof. eexists. split; [vm_compute; reflexivity|]. split; reflexivity. Qed.

(** ** multiply() and main(): refusal, elapsed time *)

(** C9.  With [m1.col != m2.row], [multiply] prints
    "Cannot do matrix multiplication." and returns at once: [m] is not
    allocated, no thread is created, [totalTime] and the module are
    untouched and result.txt is not written; [main] then prints the
    elapsed time, 0, and ends.  From the initial state [m] is still NULL
    and there is no result.txt. *)
Theorem multiply_refuses_mismatch os argv1 A B w :
  col A <> row B ->
  let g := {| n_thread := atoi argv1; m1 := A; m2 := B |} in
  let refusal := chars "Cannot do matrix multiplication." ++ [LF] in
  multiply os g w = Some (print refusal w) /\
  (exists w',
     main os 4 argv1 (Some A) (Some B) w = Some w' /\
     m w' = m w /\ result_txt w' = result_txt w /\ spawned w' = spawned w /\
     totalTime w' = totalTime w /\ module w' = module w /\
     console w' = console w ++ refusal ++ [LF] ++ chars "Elapsed Time: " ++
                  fmt_signed (totalTime w) ++ chars " (s)" ++ [LF]) /\
  (forall st w',
     w = initial_world st ->
     main os 4 argv1 (Some A) (Some B) w = Some w' ->
     m w' = None /\ result_txt w' = None /\ spawned w' = [] /\
     totalTime w' = 0).
Proof.
  intros Hdim g refusal.
  assert (multiply os g w = Some (print refusal w)) as Hmul.
  { unfold multiply, multiply_with. cbn [m1 m2 g].
    destruct (Z.eqb_spec (col A) (row B)); [done|]. done. }
  assert (main os 4 argv1 (Some A) (Some B) w
          = Some (print ([LF] ++ chars "Elapsed Time: " ++
                         fmt_signed (totalTime w) ++ chars " (s)" ++ [LF])
                        (print refusal w))) as Hmain.
  { unfold main. change (4 =? 4) with true. cbn [negb].
    fold g. rewrite Hmul. done. }
  split; [done|]. split.
  - eexists. split; [exact Hmain|]. cbn [print m result_txt spawned totalTime
                                          module console].
    do 5 (split; [done|]). by rewrite <- !app_assoc.
  - intros st w' -> Hw'. rewrite Hmain in Hw'. injection Hw' as <-. done.
Qed.

Lemma multiply_refuses_mismatch_witness :
  let A := {| row := 1; col := 3; data := [[1; 2; 3]] |} in
  let B := {| row := 2; col := 1; data := [[4]; [5]] |} in
  col A <> row B /\
  exists w',
    main (example_os noon noon) 4 (chars "2") (Some A) (Some B)
      (initial_world module_at_load) = Some w' /\
    m w' = None /\ result_txt w' = None /\ spawned w' = [] /\
    console w' = chars "Cannot do matrix multiplication." ++ [LF] ++ [LF] ++
                 chars "Elapsed Time: 0 (s)" ++ [LF].
Proof.
  set (A := {| row := 1; col := 3; data := [[1; 2; 3]] |}).
  set (B := {| row := 2; col := 1; data := [[4]; [5]] |}).
  assert (col A <> row B) as Hdim by (cbn; lia).
  split; [exact Hdim|].
  destruct (multiply_refuses_mismatch (example_os noon noon) (chars "2") A B
              (initial_world module_at_load) Hdim)
    as (_ & (w' & Hmain & Hm & Hres & Hsp & _ & _ & Hcon) & _).
  exists w'. split; [exact Hmain|]. split; [exact Hm|].
  split; [exact Hres|]. split; [exact Hsp|]. exact Hcon.
Defined.

Lemma multiply_totalTime order os g w w' :
  multiply_with order os g w = Some w' ->
  col (m1 g) = row (m2 g) ->
  alloc_fails (row (m1 g)) (col (m2 g)) = false -> 0 <= n_thread g ->
  totalTime w' =
  to_int (to_long (tv_sec (endTime os) - tv_sec (startTime os))).
Proof.
  intros Hrun Hdim Halloc Hn. unfold multiply_with in Hrun.
  destruct (Z.eqb_spec (col (m1 g)) (row (m2 g))); [|done].
  cbn [negb] in Hrun. rewrite Halloc in Hrun.
  destruct (Z.ltb_spec (n_thread g) 0); [lia|].
  destruct (for_each _ _ _) as [w1|]; [|done].
  cbn [mbind option_bind] in Hrun.
  by apply write_result_keeps in Hrun as (_ & -> & _).
Qed.

Lemma seconds_and_floor t0 t1 :
  wf_timespec t0 -> wf_timespec t1 ->
  tv_sec t1 - tv_sec t0 =
  elapsed_ns t0 t1 / 1000000000
  + (if tv_nsec t1 <? tv_nsec t0 then 1 else 0).
Proof.
  intros [_ H0] [_ H1]. unfold elapsed_ns.
  rewrite Z.div_add_l by lia.
  destruct (Z.ltb_spec (tv_nsec t1) (tv_nsec t0)).
  - replace (tv_nsec t1 - tv_nsec t0)
      with (tv_nsec t1 - tv_nsec t0 + 1000000000 + (-1) * 1000000000) by lia.
    rewrite Z.div_add by lia. rewrite Z.div_small by lia. lia.
  - rewrite Z.div_small by lia. lia.
Qed.

(** [main] does reach its last line when the matrices can be multiplied
    and the workers' [pipe] and [fork] calls succeed. *)
Lemma main_returns os argv1 A B w :
  wf_matrix A -> wf_matrix B -> col A = row B ->
  1 <= atoi argv1 <= INT_MAX ->
  wf_procfs (module w) ->
  (forall n, 0 <= n < atoi argv1 ->
     pipe_ok (thread_os os n) = true /\
     0 <= fork_ret (thread_os os n) <= INT_MAX /\
     early os n = false) ->
  exists w', main os 4 argv1 (Some A) (Some B) w = Some w'.
Proof.
  intros HA HB Hdim Hn Hwf Henv.
  destruct (multiply_with_spec (fun l => l) os
              {| n_thread := atoi argv1; m1 := A; m2 := B |} w)
    as (w1 & M & Hrun & _); try done.
  unfold main. change (4 =? 4) with true. cbn [negb].
  unfold multiply. rewrite Hrun. cbn. by eexists.
Qed.

(** C10 (as the code has it).  When [main] runs [multiply] to its end
    (the matrices can be multiplied, the rows of the result can be
    allocated and the worker count is not negative), the time it prints,
    [totalTime], is the difference of the [tv_sec] fields of the two clock
    readings.  That is the elapsed time rounded down to whole seconds when
    the second reading has at least the [tv_nsec] of the first, and one
    second more otherwise. *)
Theorem elapsed_time_reported os argv1 A B w w' :
  main os 4 argv1 (Some A) (Some B) w = Some w' ->
  col A = row B -> alloc_fails (row A) (col B) = false ->
  0 <= atoi argv1 ->
  wf_timespec (startTime os) -> wf_timespec (endTime os) ->
  0 <= elapsed_ns (startTime os) (endTime os) ->
  tv_sec (endTime os) - tv_sec (startTime os) <= INT_MAX ->
  let secs := tv_sec (endTime os) - tv_sec (startTime os) in
  totalTime w' = secs /\
  (exists before,
     console w' = before ++ [LF] ++ chars "Elapsed Time: " ++
                  fmt_signed secs ++ chars " (s)" ++ [LF]) /\
  secs = elapsed_ns (startTime os) (endTime os) / 1000000000
         + (if tv_nsec (endTime os) <? tv_nsec (startTime os) then 1 else 0).
Proof.
  intros Hmain Hdim Halloc Hn Ht0 Ht1 Hmono Hmax secs.
  pose proof (seconds_and_floor _ _ Ht0 Ht1) as Hsecs. fold secs in Hsecs.
  assert (0 <= secs) as Hpos.
  { destruct Ht0 as [_ H0], Ht1 as [_ H1]. unfold elapsed_ns in Hmono.
    fold secs in Hmono. lia. }
  unfold main in Hmain. change (4 =? 4) with true in Hmain.
  cbn [negb] in Hmain.
  destruct (multiply os _ w) as [w1|] eqn:Hmul; [|done].
  cbn [mbind option_bind] in Hmain. injection Hmain as <-.
  pose proof (multiply_totalTime _ _ _ _ _ Hmul Hdim Halloc Hn) as Htot.
  fold secs in Htot.
  rewrite to_long_id in Htot
    by (unfold is_long, LONG_MIN, LONG_MAX, INT_MAX in *; lia).
  rewrite to_int_id in Htot by (unfold is_int, INT_MIN, INT_MAX in *; lia).
  cbn [print totalTime console]. rewrite Htot.
  split; [done|]. split; [|done]. by exists (console w1).
Qed.

Lemma elapsed_time_reported_witness :
  let t0 := {| tv_sec := 10; tv_nsec := 100000000 |} in
  let t1 := {| tv_sec := 13; tv_nsec := 600000000 |} in
  col matrix_a = row matrix_b /\
  alloc_fails (row matrix_a) (col matrix_b) = false /\
  0 <= atoi (chars "2") /\
  wf_timespec t0 /\ wf_timespec t1 /\ 0 <= elapsed_ns t0 t1 /\
  exists w',
    main (example_os t0 t1) 4 (chars "2") (Some matrix_a) (Some matrix_b)
      (initial_world module_at_load) = Some w' /\
    totalTime w' = 3 /\ elapsed_ns t0 t1 / 1000000000 = 3.
Proof.
  set (t0 := {| tv_sec := 10; tv_nsec := 100000000 |}).
  set (t1 := {| tv_sec := 13; tv_nsec := 600000000 |}).
  assert (0 <= atoi (chars "2")) as Hn by (vm_compute; discriminate).
  assert (wf_timespec t0) as H0 by (unfold wf_timespec; cbn; lia).
  assert (wf_timespec t1) as H1 by (unfold wf_timespec; cbn; lia).
  assert (0 <= elapsed_ns t0 t1) as Hmono by (vm_compute; discriminate).
  assert (tv_sec (endTime (example_os t0 t1))
          - tv_sec (startTime (example_os t0 t1)) <= INT_MAX) as Hmax
    by (vm_compute; discriminate).
  split; [reflexivity|]. split; [reflexivity|]. split; [exact Hn|].
  split; [exact H0|]. split; [exact H1|]. split; [exact Hmono|].
  destruct (main (example_os t0 t1) 4 (chars "2") (Some matrix_a)
              (Some matrix_b) (initial_world module_at_load))
    as [w'|] eqn:Hmain; [|vm_compute in Hmain; discriminate Hmain].
  exists w'. split; [reflexivity|].
  destruct (elapsed_time_reported (example_os t0 t1) (chars "2")
              matrix_a matrix_b (initial_world module_at_load) w'
              Hmain eq_refl eq_refl Hn H0 H1 Hmono Hmax) as (Htot & _ & _).
  split; [exact Htot|reflexivity].
Defined.

(** C10, counterexample: the clock reads 10.9 s before the threads start
    and 11.1 s after they are joined.  The run took 0.2 s, which rounds
    down to 0; [main] prints 1. *)
Lemma elapsed_time_counterexample :
  let t0 := {| tv_sec := 10; tv_nsec := 900000000 |} in
  let t1 := {| tv_sec := 11; tv_nsec := 100000000 |} in
  wf_timespec t0 /\ wf_timespec t1 /\
  elapsed_ns t0 t1 = 200000000 /\ elapsed_ns t0 t1 / 1000000000 = 0 /\
  exists w',
    main (example_os t0 t1) 4 (chars "2") (Some matrix_a) (Some matrix_b)
      (initial_world module_at_load) = Some w' /\
    totalTime w' = 1 /\
    drop (length (console w') - 21) (console w')
      = [LF] ++ chars "Elapsed Time: 1 (s)" ++ [LF].
Proof.
  split; [unfold wf_timespec; cbn; lia|].
  split; [unfold wf_timespec; cbn; lia|].
  split; [reflexivity|]. split; [reflexivity|].
  eexists. split; [vm_compute; reflexivity|]. split; [reflexivity|].
  vm_compute. reflexivity.
Qed.

(** When the rows of the result cannot be allocated, [multiply] returns
    before it reads the clock: with a 1x0 and a 0x(-3) matrix, as
    [load_matric] returns them for files holding "1 0" and "0 -3", [main]
    prints "Malloc failed." and the time it started with, whatever the
    clock readings. *)
Example result_rows_not_allocated :
  let t0 := {| tv_sec := 10; tv_nsec := 0 |} in
  let t1 := {| tv_sec := 13; tv_nsec := 0 |} in
  let A := {| row := 1; col := 0; data := [[]] |} in
  let B := {| row := 0; col := -3; data := [] |} in
  exists w',
    main (example_os t0 t1) 4 (chars "2") (Some A) (Some B)
      (initial_world module_at_load) = Some w' /\
    totalTime w' = 0 /\ spawned w' = [] /\ result_txt w' = None /\
    console w' = chars "Malloc failed." ++ [LF] ++ [LF] ++
                 chars "Elapsed Time: 0 (s)" ++ [LF].
Proof.
  eexists. split; [vm_compute; reflexivity|]. repeat split.
Qed.

(** ** Further worked examples *)

Lemma pipe_protocol_witness :
  let t := {| start_row := 0; end_row := 2 |} in
  let M := {| row := 2; col := 2; data := [[-7; -7]; [-7; -7]] |} in
  let buffer := uninit_chars (fun _ => "x"%char) BUF_SIZE in
  wf_matrix matrix_a /\ wf_matrix matrix_b /\ col matrix_a = row matrix_b /\
  0 <= start_row t /\ end_row t <= row matrix_a /\
  has_shape M (row matrix_a) (col matrix_b) /\
  exists child parent,
    thread_child matrix_a matrix_b t buffer = Some child /\
    thread_parent matrix_b t {| p_buffer := buffer; p_pipe := c_pipe child;
                                p_m := Some M; p_reads := [] |}
      = Some parent /\
    length (c_pipe child) = 4000%nat /\
    map c_str (p_reads parent) = [chars "19"; chars "22"; chars "43"; chars "50"] /\
    p_pipe parent = [] /\
    p_m parent = Some {| row := 2; col := 2; data := [[19; 22]; [43; 50]] |}.
Proof.
  set (t := {| start_row := 0; end_row := 2 |}).
  set (M := {| row := 2; col := 2; data := [[-7; -7]; [-7; -7]] |}).
  assert (0 <= start_row t) as Hs by (cbn; lia).
  assert (end_row t <= row matrix_a) as He by (cbn; lia).
  assert (has_shape M (row matrix_a) (col matrix_b)) as Hshape
    by (repeat split; repeat constructor).
  split; [exact wf_matrix_a|]. split; [exact wf_matrix_b|].
  split; [reflexivity|]. split; [exact Hs|]. split; [exact He|].
  split; [exact Hshape|].
  destruct (pipe_protocol matrix_a matrix_b t (fun _ => "x"%char) M
              wf_matrix_a wf_matrix_b eq_refl Hs He Hshape)
    as (child & parent & msgs & M' & Hchild & Hparent & _).
  exists child, parent. split; [exact Hchild|]. split; [exact Hparent|].
  revert Hparent. vm_compute in Hchild. injection Hchild as <-.
  intros Hparent. vm_compute in Hparent. injection Hparent as <-.
  repeat split; vm_compute; reflexivity.
Defined.

(** On the descriptor that wrote an identifier without match the file
    position already equals the size field: the read that follows, as in
    [thread], is at the end of the data and delivers nothing. *)
Example miss_on_same_descriptor :
  let request := chars "4242" ++ [LF] in
  let tasks := [ {| pid := 1; utime := 0; nvcsw := 0; nivcsw := 0 |} ] in
  exists st1,
    sys_write tasks request 5 0 module_at_load = Some (5, 5, st1) /\
    sys_read 1000 1000 5 st1 = Some (0, 5, []) /\
    sys_read 1000 1000 0 st1 = Some (5, 5, request).
Proof.
  eexists. split; [vm_compute; reflexivity|].
  split; vm_compute; reflexivity.
Qed.

(** Scenario A with two workers whose passes interleave; and a [read]
    attempted on an empty pipe, which has to wait. *)
Example interleaved_workers :
  let start := work_start 2 (partition 2 2) (fun _ _ => "x"%char)
                 (Some {| row := 2; col := 2;
                          data := [[-7; -7]; [-7; -7]] |}) in
  let evs := [ ChildCell 1; ChildCell 0; ParentCell 1; ChildCell 1;
               ChildCell 0; ParentCell 0; ParentCell 1; ParentCell 0 ] in
  work_step matrix_a matrix_b (ParentCell 0) start = None /\
  exists s,
    work_run matrix_a matrix_b evs start = Some s /\
    crew_m s = Some {| row := 2; col := 2; data := [[19; 22]; [43; 50]] |} /\
    map (fun w => map c_str (w_reads w)) (crew_workers s)
      = [ [chars "19"; chars "22"]; [chars "43"; chars "50"] ] /\
    map w_pipe (crew_workers s) = [ []; [] ].
Proof.
  split; [vm_compute; reflexivity|].
  eexists. split; [vm_compute; reflexivity|].
  split; [reflexivity|]. split; vm_compute; reflexivity.
Qed.

(** * Part III: further properties of the code *)

(** ** My_proc.c: edges of the write and read handlers *)

Lemma kstrtoull_fmt_unsigned_nul n rest : 0 <= n <= ULLONG_MAX ->
  _kstrtoull (fmt_unsigned n ++ NUL :: rest) = Some n.
Proof.
  intros Hn. unfold _kstrtoull.
  destruct (scan_fmt_unsigned n NUL rest) as (k & Hk & ->); [done..|].
  destruct (Z.ltb_spec ULLONG_MAX n); [lia|].
  destruct (decide (k = 0%nat)); [done|]. done.
Qed.

Lemma kstrtoint_fmt_signed_nul z rest : is_int z ->
  kstrtoint (fmt_signed z ++ NUL :: rest) = Some z.
Proof.
  intros Hz. pose proof (is_int_is_long z Hz) as Hl.
  unfold kstrtoint, kstrtoll, fmt_signed. destruct (Z.ltb_spec z 0).
  - cbn [app]. change (Ascii.eqb "-" "-") with true. cbv iota.
    rewrite kstrtoull_fmt_unsigned_nul
      by (unfold is_int, INT_MIN, ULLONG_MAX in *; lia).
    cbn [mbind option_bind]. rewrite Z.opp_involutive, (to_long_id z Hl).
    destruct (Z.ltb_spec 0 z); [lia|]. cbn [mbind option_bind].
    rewrite (to_int_id z Hz), Z.eqb_refl. done.
  - destruct (fmt_unsigned_first z) as (d & ds & Heq & Hd); [done|].
    destruct (is_digit_not_special d Hd) as (_ & Hm & Hp & _).
    rewrite Heq. cbn [app]. rewrite Hm. unfold kstrtoull. rewrite Hp.
    change (d :: ds ++ NUL :: rest) with ((d :: ds) ++ NUL :: rest).
    rewrite <- Heq.
    rewrite kstrtoull_fmt_unsigned_nul
      by (unfold is_int, INT_MAX, ULLONG_MAX in *; lia).
    cbn [mbind option_bind]. rewrite (to_long_id z Hl).
    destruct (Z.ltb_spec z 0); [lia|]. cbn [mbind option_bind].
    rewrite (to_int_id z Hz), Z.eqb_refl. done.
Qed.

(** Lines 104-117 on a text shorter than the array, all of it readable. *)
Lemma text_accepted text more off st :
  wf_procfs st ->
  Z.of_nat (length text) < PROCFS_MAX_SIZE ->
  procfile_write_accept (text ++ more) (Z.of_nat (length text)) off st =
  Some (Accepted (to_long (off + Z.of_nat (length text)))
          {| procfs_buffer :=
               text ++ NUL :: drop (S (length text)) (procfs_buffer st);
             procfs_buffer_size := Z.of_nat (length text) |}).
Proof.
  intros Hwf Hshort. pose proof Hwf as [Hbuf _].
  set (n := Z.of_nat (length text)) in *.
  assert (0 <= n <= MAX_RW_COUNT) as Hn
    by (subst n; unfold MAX_RW_COUNT, PROCFS_MAX_SIZE in *; lia).
  assert (Z.min n PROCFS_MAX_SIZE = n) as Hmin by lia.
  rewrite procfile_write_accept_ok; [|done|done|rewrite length_app; lia].
  rewrite Hmin, Z.mod_small by lia. do 3 f_equal.
  subst n. rewrite Nat2Z.id, take_app_length.
  rewrite insert_take_drop
    by (rewrite length_app, length_drop; unfold PROCFS_MAX_SIZE in *; lia).
  rewrite take_app_length. do 2 f_equal.
  rewrite drop_app_ge by lia. rewrite drop_drop. f_equal. lia.
Qed.

Lemma wf_procfs_text text st :
  wf_procfs st -> Z.of_nat (length text) < PROCFS_MAX_SIZE ->
  wf_procfs {| procfs_buffer :=
                 text ++ NUL :: drop (S (length text)) (procfs_buffer st);
               procfs_buffer_size := Z.of_nat (length text) |}.
Proof.
  intros [Hbuf _] Hshort. split; cbn [procfs_buffer procfs_buffer_size].
  - rewrite length_app. cbn [length]. rewrite length_drop.
    unfold PROCFS_MAX_SIZE in *. lia.
  - lia.
Qed.

(** X1.  A decimal identifier is accepted with or without a newline after
    it: written as "<id>" or as "<id>\n", it selects the same entry of the
    task list, and either write leaves the text for that entry in the
    buffer and returns its length. *)
Theorem procfile_write_newline_optional tasks id p off st :
  wf_procfs st -> is_int id -> find_task tasks id = Some p ->
  let text := fmt_signed id in
  let n := Z.of_nat (length text) in
  let answer := Z.of_nat (length (thread_info_text p)) in
  exists st1 st2,
    procfile_write tasks text n off st
      = Some (answer, to_long (off + n), st1) /\
    procfile_write tasks (text ++ [LF]) (n + 1) off st
      = Some (answer, to_long (off + (n + 1)), st2) /\
    c_str (procfs_buffer st1) = thread_info_text p /\
    c_str (procfs_buffer st2) = thread_info_text p /\
    procfs_buffer_size st1 = answer /\ procfs_buffer_size st2 = answer.
Proof.
  intros Hwf Hid Hf text n answer.
  pose proof (fmt_signed_length id) as Hl. fold text in Hl.
  assert (Z.of_nat (length text) < PROCFS_MAX_SIZE) as Hs1
    by (unfold PROCFS_MAX_SIZE; lia).
  assert (Z.of_nat (length (text ++ [LF])) < PROCFS_MAX_SIZE) as Hs2
    by (rewrite length_app; cbn [length]; unfold PROCFS_MAX_SIZE; lia).
  pose proof (text_accepted text [] off st Hwf Hs1) as Ha1.
  pose proof (text_accepted (text ++ [LF]) [] off st Hwf Hs2) as Ha2.
  rewrite app_nil_r in Ha1, Ha2.
  replace (Z.of_nat (length (text ++ [LF]))) with (n + 1) in Ha2
    by (rewrite length_app; cbn [length]; lia).
  pose proof (wf_procfs_text text st Hwf Hs1) as [Hb1 _].
  pose proof (wf_procfs_text (text ++ [LF]) st Hwf Hs2) as [Hb2 _].
  eexists _, _.
  split.
  { eapply procfile_write_match; [exact Ha1|exact Hb1| |exact Hf].
    cbn [procfs_buffer]. by apply kstrtoint_fmt_signed_nul. }
  split.
  { eapply procfile_write_match; [exact Ha2|exact Hb2| |exact Hf].
    cbn [procfs_buffer]. rewrite <- app_assoc. cbn [app].
    by apply kstrtoint_fmt_signed. }
  cbn [procfs_buffer procfs_buffer_size].
  rewrite !c_str_app by apply thread_info_text_no_nul. done.
Qed.

Lemma procfile_write_newline_optional_witness :
  let p := {| pid := 4242; utime := 123456789; nvcsw := 3; nivcsw := 4 |} in
  wf_procfs module_at_load /\ is_int 4242 /\ find_task [p] 4242 = Some p /\
  exists st1 st2,
    procfile_write [p] (chars "4242") 4 0 module_at_load = Some (50, 4, st1) /\
    procfile_write [p] (chars "4242" ++ [LF]) 5 0 module_at_load
      = Some (50, 5, st2) /\
    c_str (procfs_buffer st1) = c_str (procfs_buffer st2).
Proof.
  set (p := {| pid := 4242; utime := 123456789; nvcsw := 3; nivcsw := 4 |}).
  assert (is_int 4242) as Hid by (unfold is_int, INT_MIN, INT_MAX; lia).
  assert (find_task [p] 4242 = Some p) as Hf by reflexivity.
  split; [exact wf_module_at_load|]. split; [exact Hid|]. split; [exact Hf|].
  destruct (procfile_write_newline_optional [p] 4242 p 0 module_at_load
              wf_module_at_load Hid Hf)
    as (st1 & st2 & H1 & H2 & Hs1 & Hs2 & _).
  exists st1, st2. split; [exact H1|]. split; [exact H2|].
  rewrite Hs1, Hs2. reflexivity.
Defined.

(** X2.  The parse is strict: an identifier followed by any byte other
    than a digit, a newline or NUL (a blank, a carriage return, a letter)
    is refused, the handler returning 0 with the bytes left in the
    buffer. *)
Theorem procfile_write_trailing_byte tasks id c more off st :
  wf_procfs st -> is_int id ->
  is_digit c = false -> is_nul c = false -> Ascii.eqb c LF = false ->
  let text := fmt_signed id ++ c :: more in
  let n := Z.of_nat (length text) in
  n < PROCFS_MAX_SIZE ->
  procfile_write tasks text n off st =
  Some (0, to_long (off + n),
        {| procfs_buffer := text ++ NUL :: drop (S (length text))
                                                (procfs_buffer st);
           procfs_buffer_size := n |}).
Proof.
  intros Hwf Hid Hd Hn Hlf text n Hshort.
  pose proof (text_accepted text [] off st Hwf Hshort) as Ha.
  rewrite app_nil_r in Ha.
  apply procfile_write_parse_error; [exact Ha|].
  cbn [procfs_buffer]. subst text. rewrite <- app_assoc. cbn [app].
  pose proof (is_int_is_long id Hid) as Hl.
  set (tail := more ++ NUL :: _).
  assert (forall k, 0 <= k <= ULLONG_MAX ->
            _kstrtoull (fmt_unsigned k ++ c :: tail) = None) as Hu.
  { intros k Hk. unfold _kstrtoull.
    destruct (scan_fmt_unsigned k c tail) as (j & Hj & ->); [done..|].
    destruct (Z.ltb_spec ULLONG_MAX k); [lia|].
    destruct (decide (j = 0%nat)); [done|]. by rewrite Hlf, Hn. }
  unfold kstrtoint, kstrtoll, fmt_signed.
  destruct (Z.ltb_spec id 0).
  - cbn [app]. change (Ascii.eqb "-" "-") with true. cbv iota.
    rewrite Hu by (unfold is_int, INT_MIN, ULLONG_MAX in *; lia). done.
  - destruct (fmt_unsigned_first id) as (d & ds & Heq & Hdd); [done|].
    destruct (is_digit_not_special d Hdd) as (_ & Hm & Hp & _).
    rewrite Heq. cbn [app]. rewrite Hm. unfold kstrtoull. rewrite Hp.
    change (d :: ds ++ ?r) with ((d :: ds) ++ r). rewrite <- Heq.
    rewrite Hu by (unfold is_int, INT_MAX, ULLONG_MAX in *; lia). done.
Qed.

Lemma procfile_write_trailing_byte_witness :
  wf_procfs module_at_load /\ is_int 4242 /\
  exists st',
    procfile_write [ {| pid := 4242; utime := 0; nvcsw := 0; nivcsw := 0 |} ]
      (chars "4242 ") 5 0 module_at_load = Some (0, 5, st') /\
    c_str (procfs_buffer st') = chars "4242 ".
Proof.
  assert (is_int 4242) as Hid by (unfold is_int, INT_MIN, INT_MAX; lia).
  split; [exact wf_module_at_load|]. split; [exact Hid|].
  eexists. split.
  - exact (procfile_write_trailing_byte
             [ {| pid := 4242; utime := 0; nvcsw := 0; nivcsw := 0 |} ]
             4242 " "%char [] 0 module_at_load wf_module_at_load Hid
             eq_refl eq_refl eq_refl ltac:(vm_compute; reflexivity)).
  - vm_compute. reflexivity.
Defined.

(** X3.  A write whose bytes cannot all be read from the caller fails with
    [-EFAULT] and leaves the file position where it was, but not the
    module: the size field already holds the accepted length and the
    buffer the readable bytes padded with zeros, and that is what a read
    from offset 0 then delivers. *)
Theorem sys_write_fault_replaces_content
    tasks buff len f_pos st ucap buffer_length :
  wf_procfs st -> 0 <= len <= MAX_RW_COUNT ->
  Z.of_nat (length buff) < Z.min len PROCFS_MAX_SIZE ->
  Z.min len PROCFS_MAX_SIZE <= ucap ->
  let size := Z.min len PROCFS_MAX_SIZE in
  let data := buff ++ replicate (Z.to_nat size - length buff) NUL in
  exists st',
    sys_write tasks buff len f_pos st = Some (- EFAULT, f_pos, st') /\
    wf_procfs st' /\ procfs_buffer_size st' = size /\
    procfile_read ucap buffer_length 0 st' = Some (size, size, data).
Proof.
  intros Hwf Hlen Hshort Hcap size data. pose proof Hwf as [Hbuf _].
  pose proof (procfile_write_accept_fault buff len f_pos st Hwf Hlen Hshort)
    as Ha. fold size in Ha. fold data in Ha.
  assert (length data = Z.to_nat size) as Hdata
    by (subst data; rewrite length_app, length_replicate; lia).
  eexists. split.
  { unfold sys_write. rewrite Z.min_l by lia.
    unfold procfile_write. rewrite Ha. cbn [mbind option_bind]. done. }
  cbn [procfs_buffer procfs_buffer_size]. split.
  { split; cbn [procfs_buffer procfs_buffer_size].
    - rewrite length_app, Hdata, length_drop. subst size. lia.
    - subst size. unfold PROCFS_MAX_SIZE. lia. }
  split; [done|].
  unfold procfile_read. cbn [procfs_buffer procfs_buffer_size].
  destruct (Z.leb_spec size 0); [lia|]. unfold copy_to_user.
  rewrite length_app, Hdata, length_drop.
  destruct (Z.ltb_spec size 0); [lia|].
  destruct (Z.ltb_spec (Z.of_nat (Z.to_nat size
                                  + (length (procfs_buffer st)
                                     - Z.to_nat size))) size);
    [subst size; lia|].
  cbn [orb]. destruct (Z.ltb_spec ucap size); [lia|].
  cbn. rewrite <- Hdata, take_app_length.
  rewrite to_long_id; [done|].
  subst size. unfold is_long, LONG_MIN, LONG_MAX, PROCFS_MAX_SIZE in *. lia.
Qed.

Lemma sys_write_fault_replaces_content_witness :
  wf_procfs module_at_load /\ 0 <= 8 <= MAX_RW_COUNT /\
  exists st',
    sys_write [] (chars "123") 8 0 module_at_load = Some (- EFAULT, 0, st') /\
    procfile_read 1000 1000 0 st'
      = Some (8, 8, chars "123" ++ replicate 5 NUL).
Proof.
  assert (0 <= 8 <= MAX_RW_COUNT) as Hlen by (unfold MAX_RW_COUNT; lia).
  split; [exact wf_module_at_load|]. split; [exact Hlen|].
  destruct (sys_write_fault_replaces_content [] (chars "123") 8 0
              module_at_load 1000 1000 wf_module_at_load Hlen
              ltac:(vm_compute; reflexivity) ltac:(vm_compute; discriminate))
    as (st' & Hw & _ & _ & Hr).
  exists st'. split; [exact Hw|exact Hr].
Defined.

(** X4.  A read delivers the whole buffer content whatever count the
    caller asked for, and a second read on the same descriptor is at the
    end of the data: it returns 0 and delivers nothing. *)
Theorem sys_read_then_eof ucap count1 count2 st :
  wf_procfs st -> 0 < procfs_buffer_size st <= ucap ->
  let size := procfs_buffer_size st in
  sys_read ucap count1 0 st
    = Some (size, size, take (Z.to_nat size) (procfs_buffer st)) /\
  sys_read ucap count2 size st = Some (0, size, []).
Proof.
  intros [Hbuf Hsz] Hpos size. subst size. split.
  - unfold sys_read, procfile_read.
    destruct (Z.leb_spec (procfs_buffer_size st) 0); [lia|].
    unfold copy_to_user.
    destruct (Z.ltb_spec (procfs_buffer_size st) 0); [lia|].
    destruct (Z.ltb_spec (Z.of_nat (length (procfs_buffer st)))
                         (procfs_buffer_size st)); [lia|].
    cbn [orb]. destruct (Z.ltb_spec ucap (procfs_buffer_size st)); [lia|].
    cbn. rewrite to_long_id
      by (unfold is_long, LONG_MIN, LONG_MAX, PROCFS_MAX_SIZE in *; lia).
    destruct (Z.leb_spec 0 (procfs_buffer_size st)); [done|lia].
  - unfold sys_read, procfile_read.
    destruct (Z.leb_spec (procfs_buffer_size st) (procfs_buffer_size st));
      [done|lia].
Qed.

Lemma sys_read_then_eof_witness :
  let st := {| procfs_buffer := chars "4242" ++ replicate 1020 NUL;
               procfs_buffer_size := 4 |} in
  wf_procfs st /\
  sys_read 1000 1 0 st = Some (4, 4, chars "4242") /\
  sys_read 1000 1000 4 st = Some (0, 4, []).
Proof.
  set (st := {| procfs_buffer := chars "4242" ++ replicate 1020 NUL;
                procfs_buffer_size := 4 |}).
  assert (wf_procfs st) as Hwf
    by (split; [reflexivity|cbn; unfold PROCFS_MAX_SIZE; lia]).
  split; [exact Hwf|].
  exact (sys_read_then_eof 1000 1 1000 st Hwf ltac:(cbn; lia)).
Defined.

(** X5.  A write of [PROCFS_MAX_SIZE] bytes or more is cut to
    [PROCFS_MAX_SIZE] bytes and its terminator falls on
    [procfs_buffer[0]]: the first byte is lost, the buffer reads as the
    empty string, no identifier is looked up and the handler returns 0
    with the size field at [PROCFS_MAX_SIZE]. *)
Theorem procfile_write_oversized tasks buff len off st :
  wf_procfs st -> PROCFS_MAX_SIZE <= len <= MAX_RW_COUNT ->
  PROCFS_MAX_SIZE <= Z.of_nat (length buff) ->
  procfile_write tasks buff len off st =
  Some (0, to_long (off + PROCFS_MAX_SIZE),
        {| procfs_buffer :=
             NUL :: drop 1 (take (Z.to_nat PROCFS_MAX_SIZE) buff);
           procfs_buffer_size := PROCFS_MAX_SIZE |}).
Proof.
  intros Hwf Hlen Hbuff. pose proof Hwf as [Hbuf _].
  assert (Z.min len PROCFS_MAX_SIZE = PROCFS_MAX_SIZE) as Hmin by lia.
  pose proof (procfile_write_accept_ok buff len off st Hwf
                ltac:(unfold PROCFS_MAX_SIZE in *; lia) ltac:(lia)) as Ha.
  rewrite Hmin in Ha.
  rewrite drop_ge, app_nil_r in Ha by lia.
  change (PROCFS_MAX_SIZE mod PROCFS_MAX_SIZE) with 0 in Ha.
  destruct (take (Z.to_nat PROCFS_MAX_SIZE) buff) as [|c l] eqn:E.
  { apply (f_equal length) in E. rewrite length_take in E. cbn in E.
    unfold PROCFS_MAX_SIZE in *. lia. }
  change (<[Z.to_nat 0:=NUL]> (c :: l)) with (NUL :: l) in Ha.
  by apply procfile_write_parse_error.
Qed.

Lemma procfile_write_oversized_witness :
  wf_procfs module_at_load /\ PROCFS_MAX_SIZE <= 2000 <= MAX_RW_COUNT /\
  exists st',
    procfile_write [ {| pid := 7; utime := 0; nvcsw := 0; nivcsw := 0 |} ]
      (replicate 2000 "7"%char) 2000 0 module_at_load
      = Some (0, 1024, st') /\
    procfs_buffer st' = NUL :: replicate 1023 "7"%char /\
    procfs_buffer_size st' = 1024.
Proof.
  assert (PROCFS_MAX_SIZE <= 2000 <= MAX_RW_COUNT) as Hlen
    by (unfold PROCFS_MAX_SIZE, MAX_RW_COUNT; lia).
  split; [exact wf_module_at_load|]. split; [exact Hlen|].
  eexists. split.
  - exact (procfile_write_oversized
             [ {| pid := 7; utime := 0; nvcsw := 0; nivcsw := 0 |} ]
             (replicate 2000 "7"%char) 2000 0 module_at_load
             wf_module_at_load Hlen ltac:(vm_compute; discriminate)).
  - split; reflexivity.
Defined.

(** X6.  A write of no bytes stores the terminator at [procfs_buffer[0]]
    and sets the size field to 0: it returns 0, and every read that
    follows, from any offset, is at the end of the data. *)
Theorem procfile_write_empty tasks buff off st ucap buffer_length off' :
  wf_procfs st -> 0 <= off' ->
  let st' := {| procfs_buffer := NUL :: drop 1 (procfs_buffer st);
                procfs_buffer_size := 0 |} in
  procfile_write tasks buff 0 off st = Some (0, to_long off, st') /\
  procfile_read ucap buffer_length off' st' = Some (0, off', []).
Proof.
  intros Hwf Hoff st'. pose proof Hwf as [Hbuf _].
  pose proof (procfile_write_accept_ok buff 0 off st Hwf
                ltac:(unfold MAX_RW_COUNT; lia)
                ltac:(unfold PROCFS_MAX_SIZE; lia)) as Ha.
  change (Z.min 0 PROCFS_MAX_SIZE) with 0 in Ha.
  change (0 mod PROCFS_MAX_SIZE) with 0 in Ha.
  rewrite Z.add_0_r in Ha. cbn [Z.to_nat take drop app] in Ha.
  destruct (procfs_buffer st) as [|c l] eqn:E.
  { cbn in Hbuf. unfold PROCFS_MAX_SIZE in Hbuf. lia. }
  change (<[0%nat:=NUL]> (c :: l)) with (NUL :: l) in Ha.
  split.
  - by apply procfile_write_parse_error.
  - unfold procfile_read. cbn [procfs_buffer_size st'].
    destruct (Z.leb_spec 0 off'); [done|lia].
Qed.

Lemma procfile_write_empty_witness :
  wf_procfs module_at_load /\ 0 <= 0 /\
  procfile_write [] [] 0 0 module_at_load = Some (0, 0, module_at_load) /\
  procfile_read 1000 1000 0 module_at_load = Some (0, 0, []).
Proof.
  split; [exact wf_module_at_load|]. split; [lia|].
  exact (procfile_write_empty [] [] 0 module_at_load 1000 1000 0
           wf_module_at_load ltac:(lia)).
Defined.

Lemma procfile_write_keeps tasks buff len off st :
  wf_procfs st -> 0 <= len <= MAX_RW_COUNT ->
  exists ret off' st',
    procfile_write tasks buff len off st = Some (ret, off', st') /\
    wf_procfs st' /\ strlen (procfs_buffer st') < PROCFS_MAX_SIZE /\
    - EFAULT <= ret <= PROCFS_MAX_SIZE.
Proof.
  intros Hwf Hlen. pose proof Hwf as [Hbuf _].
  destruct (procfile_write_accept_cases buff len off st Hwf Hlen)
    as (r & Hr & Hcase).
  destruct r as [st'|off1 st1].
  - destruct Hcase as [Hshort Hwf'].
    exists (- EFAULT), off, st'. unfold procfile_write. rewrite Hr.
    split; [done|]. split; [done|].
    rewrite (procfile_write_accept_fault buff len off st Hwf Hlen Hshort)
      in Hr. injection Hr as <-. cbn [procfs_buffer].
    split; [|unfold EFAULT, PROCFS_MAX_SIZE; lia].
    eapply Z.le_lt_trans; [apply (strlen_le_nul _ (length buff))|lia].
    rewrite <- app_assoc, lookup_app_r by lia.
    rewrite Nat.sub_diag.
    destruct (Z.to_nat (Z.min len PROCFS_MAX_SIZE) - length buff)%nat
      as [|k] eqn:E; [lia|]. done.
  - destruct Hcase as (Hread & Hoff & Hst1 & Hwf1).
    set (size := Z.min len PROCFS_MAX_SIZE) in *.
    pose proof (Z.mod_pos_bound size PROCFS_MAX_SIZE ltac:(done)) as Hidx.
    assert (procfs_buffer st1 !! Z.to_nat (size mod PROCFS_MAX_SIZE)
            = Some NUL) as Hnul.
    { rewrite Hst1. cbn [procfs_buffer]. apply list_lookup_insert_eq.
      rewrite length_app, length_take, length_drop. lia. }
    pose proof (strlen_le_nul _ _ Hnul) as Hstr.
    assert (procfs_buffer_size st1 = size) as Hsz by (by rewrite Hst1).
    destruct (kstrtoint (procfs_buffer st1)) as [id|] eqn:Hk.
    + destruct (find_task tasks id) as [p|] eqn:Hf.
      * destruct Hwf1 as [Hl1 _].
        rewrite (procfile_write_match tasks _ _ _ _ _ _ _ _ Hr Hl1 Hk Hf).
        pose proof (thread_info_text_length p) as Htl.
        eexists _, _, _. split; [done|]. cbn [procfs_buffer]. split.
        { split; cbn.
          - rewrite length_app. cbn [length]. rewrite length_drop.
            unfold PROCFS_MAX_SIZE in *. lia.
          - unfold PROCFS_MAX_SIZE. lia. }
        rewrite strlen_app by apply thread_info_text_no_nul.
        unfold EFAULT, PROCFS_MAX_SIZE. lia.
      * rewrite (procfile_write_no_match tasks _ _ _ _ _ _ _ Hr Hk Hf).
        eexists _, _, _. split; [done|]. split; [done|].
        unfold EFAULT in *. subst size. lia.
    + rewrite (procfile_write_parse_error tasks _ _ _ _ _ _ Hr Hk).
      eexists _, _, _. split; [done|]. split; [done|].
      unfold EFAULT, PROCFS_MAX_SIZE in *. lia.
Qed.

(** X7.  Whatever writes reach the module, in whatever order, from
    whatever callers (readable or not, of any length the system-call
    layer passes on), none of them stores outside [procfs_buffer], the
    size field stays within [0, PROCFS_MAX_SIZE] and the buffer always
    holds a NUL, so that it reads as a string that ends inside the
    array. *)
Theorem write_calls_keep_buffer calls st :
  wf_procfs st ->
  Forall (fun q => 0 <= wc_len q <= MAX_RW_COUNT) calls ->
  exists st',
    write_calls calls st = Some st' /\ wf_procfs st' /\
    (calls <> [] -> strlen (procfs_buffer st') < PROCFS_MAX_SIZE).
Proof.
  intros Hwf Hcalls. revert st Hwf.
  induction Hcalls as [|q calls Hq _ IH]; intros st Hwf.
  - exists st. by split.
  - destruct (procfile_write_keeps (wc_tasks q) (wc_buff q) (wc_len q)
                (wc_off q) st Hwf Hq)
      as (ret & off' & st1 & Hw & Hwf1 & Hstr1 & _).
    destruct (IH st1 Hwf1) as (st' & Hrun & Hwf' & Hstr').
    exists st'. split; [|split; [done|]].
    + unfold write_calls in *. cbn [for_each]. rewrite Hw.
      cbn [mbind option_bind]. exact Hrun.
    + intros _. destruct calls as [|q' calls']; [|by apply Hstr'].
      cbn in Hrun. by injection Hrun as <-.
Qed.

Lemma write_calls_keep_buffer_witness :
  let calls :=
    [ {| wc_tasks := []; wc_buff := replicate 3000 "9"%char;
         wc_len := 3000; wc_off := 0 |};
      {| wc_tasks := []; wc_buff := chars "12"; wc_len := 700; wc_off := 5 |};
      {| wc_tasks := [ {| pid := 12; utime := 0; nvcsw := 0; nivcsw := 0 |} ];
         wc_buff := chars "12"; wc_len := 2; wc_off := 0 |} ] in
  wf_procfs module_at_load /\
  Forall (fun q => 0 <= wc_len q <= MAX_RW_COUNT) calls /\
  exists st',
    write_calls calls module_at_load = Some st' /\ wf_procfs st' /\
    strlen (procfs_buffer st') < PROCFS_MAX_SIZE.
Proof.
  intros calls.
  assert (Forall (fun q => 0 <= wc_len q <= MAX_RW_COUNT) calls) as Hc
    by (repeat constructor; cbn; unfold MAX_RW_COUNT; lia).
  split; [exact wf_module_at_load|]. split; [exact Hc|].
  destruct (write_calls_keep_buffer calls module_at_load wf_module_at_load Hc)
    as (st' & Hrun & Hwf & Hstr).
  exists st'. split; [exact Hrun|]. split; [exact Hwf|].
  apply Hstr. discriminate.
Defined.

(** ** thread(): what a worker prints *)

(** Nothing pending at the [fork]: the child has nothing to write. *)
Lemma unflushed_none te printed :
  stdout_pending te = 0%nat -> unflushed te printed = [].
Proof.
  intros H. unfold unflushed. rewrite H, Nat.sub_0_r. apply drop_all.
Qed.

(** All of it pending: the child writes all of it again. *)
Lemma unflushed_all te printed :
  (length printed <= stdout_pending te)%nat -> unflushed te printed = printed.
Proof.
  intros H. unfold unflushed.
  by replace (length printed - stdout_pending te)%nat with 0%nat by lia.
Qed.

Lemma thread_reaches_query A B te t w M :
  wf_matrix A -> wf_matrix B -> col A = row B ->
  0 <= start_row t -> end_row t <= row A ->
  pipe_ok te = true -> 0 <= fork_ret te <= INT_MAX ->
  m w = Some M -> has_shape M (row A) (col B) ->
  exists M',
    has_shape M' (row A) (col B) /\
    (forall r c, get_cell M' r c =
       if decide ((r, c) ∈ task_cells (col B) t)
       then Some (to_int (math_dot A B r c)) else get_cell M r c) /\
    let w0 := child_exit (unflushed te (console w)) w in
    thread A B te t w =
      if negb (open_ok te) then
        Some (print (chars "Cannot open /proc/thread_info." ++ [LF])
                    (set_m (Some M') w0))
      else
        '(pos, st) ← proc_write (tasks_now te) (request_of (fork_ret te)) 0
                                (module w);
        '(_, answer) ← proc_read (request_of (fork_ret te)) pos st;
        Some (print (TAB :: c_str answer)
                    (set_module st (set_m (Some M') w0))).
Proof.
  intros HA HB Hdim Hs He Hpipe Hfork Hm Hshape.
  destruct (thread_collect A B t (stack_junk te) M HA HB Hdim Hs He Hshape)
    as (M' & Hchild & Hparent & Hshape' & Hget & _).
  exists M'. split; [done|]. split; [done|]. intros w0.
  unfold thread. rewrite Hpipe. cbn [negb].
  destruct (Z.ltb_spec (fork_ret te) 0); [lia|].
  rewrite Hchild. cbn [mbind option_bind c_pipe child_exit m].
  rewrite Hm, Hparent. cbn [mbind option_bind p_m].
  destruct (open_ok te); cbn [negb]; [|done].
  rewrite proc_request_spec. cbn [mbind option_bind]. done.
Qed.

(** X8.  A worker whose child is in the task list when its write arrives
    prints one line: a tab and the record of its own child,
    "ThreadID:<pid of the child> Time:...(ms) context switch times:...",
    ended by a newline; that text is what it leaves in the module.  Its
    child, which ends without [_exit], writes once more the characters
    that [stdout] still buffered at the [fork]: nothing when nothing was
    pending. *)
Theorem thread_prints_record A B te t w M p :
  wf_matrix A -> wf_matrix B -> col A = row B ->
  0 <= start_row t -> end_row t <= row A ->
  pipe_ok te = true -> 0 <= fork_ret te <= INT_MAX -> open_ok te = true ->
  m w = Some M -> has_shape M (row A) (col B) -> wf_procfs (module w) ->
  find_task (tasks_now te) (fork_ret te) = Some p ->
  exists w',
    thread A B te t w = Some w' /\
    console w' = console w ++ TAB :: thread_info_text p /\
    child_stdout w' = child_stdout w ++ [unflushed te (console w)] /\
    (stdout_pending te = 0%nat ->
     child_stdout w' = child_stdout w ++ [[]]) /\
    to_int (pid p) = fork_ret te /\
    c_str (procfs_buffer (module w')) = thread_info_text p /\
    procfs_buffer_size (module w') = Z.of_nat (length (thread_info_text p)).
Proof.
  intros HA HB Hdim Hs He Hpipe Hfork Hopen Hm Hshape Hwf Hf.
  destruct (thread_reaches_query A B te t w M) as (M' & _ & _ & ->);
    try done.
  rewrite Hopen. cbn [negb].
  assert (is_int (fork_ret te)) as Hint by (unfold is_int, INT_MIN; lia).
  pose proof (fmt_signed_length (fork_ret te)) as Hl.
  destruct (proc_write_spec (tasks_now te) (fork_ret te) p 0 (module w)
              Hwf Hint) as (rest & Hw & Hwf');
    [unfold PROCFS_MAX_SIZE; lia|done|].
  destruct (proc_read_spec (fork_ret te) p
              (0 + (Z.of_nat (length (fmt_signed (fork_ret te))) + 1)) rest)
    as (answer & pos' & Hr & Hans); [lia|done|].
  rewrite Hw. cbn [mbind option_bind]. rewrite Hr. cbn [mbind option_bind].
  eexists. split; [done|].
  cbn [print set_module set_m child_exit console child_stdout module
       procfs_buffer procfs_buffer_size].
  rewrite Hans. split; [done|]. split; [done|].
  split; [by intros ?; rewrite unflushed_none|].
  split; [by apply find_task_pid in Hf as [? _]|].
  split; [|done]. apply c_str_app, thread_info_text_no_nul.
Qed.

(** X9.  A worker whose child is not in the task list prints a tab, the
    pid of its child and a newline: the handler has left the request in
    the module, the read that follows on the same descriptor is at the end
    of the data, and the worker's buffer still holds what it wrote.  Its
    child, which ends without [_exit], writes once more the characters
    that [stdout] still buffered at the [fork]: nothing when nothing was
    pending. *)
Theorem thread_prints_request_on_miss A B te t w M :
  wf_matrix A -> wf_matrix B -> col A = row B ->
  0 <= start_row t -> end_row t <= row A ->
  pipe_ok te = true -> 0 <= fork_ret te <= INT_MAX -> open_ok te = true ->
  m w = Some M -> has_shape M (row A) (col B) -> wf_procfs (module w) ->
  find_task (tasks_now te) (fork_ret te) = None ->
  exists w',
    thread A B te t w = Some w' /\
    console w' = console w ++ TAB :: fmt_signed (fork_ret te) ++ [LF] /\
    child_stdout w' = child_stdout w ++ [unflushed te (console w)] /\
    (stdout_pending te = 0%nat ->
     child_stdout w' = child_stdout w ++ [[]]) /\
    c_str (procfs_buffer (module w')) = fmt_signed (fork_ret te) ++ [LF] /\
    procfs_buffer_size (module w')
      = Z.of_nat (length (fmt_signed (fork_ret te))) + 1.
Proof.
  intros HA HB Hdim Hs He Hpipe Hfork Hopen Hm Hshape Hwf Hf.
  destruct (thread_reaches_query A B te t w M) as (M' & _ & _ & ->);
    try done.
  rewrite Hopen. cbn [negb].
  set (id := fork_ret te) in *.
  assert (is_int id) as Hint by (unfold is_int, INT_MIN; lia).
  pose proof (fmt_signed_length id) as Hl.
  set (text := fmt_signed id ++ [LF]).
  assert (Z.of_nat (length text) = Z.of_nat (length (fmt_signed id)) + 1)
    as Hlen by (subst text; rewrite length_app; cbn [length]; lia).
  assert (Z.of_nat (length text) < PROCFS_MAX_SIZE) as Hshort
    by (unfold PROCFS_MAX_SIZE; lia).
  pose proof (text_accepted text
                (NUL :: replicate (998 - length (fmt_signed id)) NUL)
                0 (module w) Hwf Hshort) as Ha.
  fold (request_of id) in Ha.
  assert (proc_write (tasks_now te) (request_of id) 0 (module w) =
          Some (Z.of_nat (length text),
                {| procfs_buffer :=
                     text ++ NUL :: drop (S (length text))
                                         (procfs_buffer (module w));
                   procfs_buffer_size := Z.of_nat (length text) |})) as Hw.
  { unfold proc_write, sys_write. rewrite request_strlen, <- Hlen.
    rewrite Z.min_l by (unfold MAX_RW_COUNT, PROCFS_MAX_SIZE in *; lia).
    rewrite (procfile_write_no_match _ _ _ _ _ _ _ id Ha); [| |done].
    2:{ cbn [procfs_buffer]. subst text. rewrite <- app_assoc. cbn [app].
        by apply kstrtoint_fmt_signed. }
    cbn [mbind option_bind procfs_buffer_size].
    destruct (Z.leb_spec 0 (Z.of_nat (length text))); [|lia].
    rewrite to_long_id; [done|].
    unfold is_long, LONG_MIN, LONG_MAX, PROCFS_MAX_SIZE in *. lia. }
  rewrite Hw. cbn [mbind option_bind].
  rewrite proc_read_at_end by (cbn [procfs_buffer_size]; lia).
  cbn [mbind option_bind].
  eexists. split; [done|].
  cbn [print set_module set_m child_exit console child_stdout module
       procfs_buffer procfs_buffer_size].
  assert (forall rest, c_str (text ++ NUL :: rest) = text) as Hc.
  { intros rest. apply c_str_app. subst text. apply Forall_app. split.
    - apply fmt_signed_no_nul.
    - by repeat constructor. }
  unfold request_of. fold text. rewrite !Hc.
  split; [done|]. split; [done|].
  split; [by intros ?; rewrite unflushed_none|]. done.
Qed.

Lemma thread_prints_record_witness :
  let te := piped_thread_env 0 in
  let t := {| start_row := 0; end_row := 2 |} in
  let M := {| row := 2; col := 2; data := [[-7; -7]; [-7; -7]] |} in
  let w := print (chars "PID:4000" ++ [LF])
                 (set_m (Some M) (initial_world module_at_load)) in
  let p := {| pid := 4001; utime := 2000000; nvcsw := 1; nivcsw := 0 |} in
  wf_matrix matrix_a /\ wf_matrix matrix_b /\ col matrix_a = row matrix_b /\
  0 <= start_row t /\ end_row t <= row matrix_a /\
  find_task (tasks_now te) (fork_ret te) = Some p /\
  exists w',
    thread matrix_a matrix_b te t w = Some w' /\
    console w' =
      chars "PID:4000" ++ [LF] ++
      TAB :: chars "ThreadID:4001 Time:2(ms) context switch times:1" ++ [LF] /\
    child_stdout w' = [chars "PID:4000" ++ [LF]].
Proof.
  intros te t M w p.
  assert (0 <= start_row t) as Hs by (cbn; lia).
  assert (end_row t <= row matrix_a) as He by (cbn; lia).
  assert (has_shape M (row matrix_a) (col matrix_b)) as Hshape
    by (repeat split; repeat constructor).
  assert (0 <= fork_ret te <= INT_MAX) as Hfork
    by (cbn; unfold INT_MAX; lia).
  split; [exact wf_matrix_a|]. split; [exact wf_matrix_b|].
  split; [reflexivity|]. split; [exact Hs|]. split; [exact He|].
  split; [reflexivity|].
  destruct (thread_prints_record matrix_a matrix_b te t w M p
              wf_matrix_a wf_matrix_b eq_refl Hs He eq_refl Hfork eq_refl
              eq_refl Hshape wf_module_at_load eq_refl)
    as (w' & Hrun & Hcon & Hout & _).
  exists w'. split; [exact Hrun|]. rewrite Hcon, Hout.
  split; vm_compute; reflexivity.
Defined.

Lemma thread_prints_request_on_miss_witness :
  let te := {| pipe_ok := true; fork_ret := 4001;
               stack_junk := fun _ => "x"%char; stdout_pending := 4096%nat;
               open_ok := true;
               tasks_now := [ {| pid := 1; utime := 0; nvcsw := 0;
                                 nivcsw := 0 |} ] |} in
  let t := {| start_row := 0; end_row := 2 |} in
  let M := {| row := 2; col := 2; data := [[-7; -7]; [-7; -7]] |} in
  let w := print (chars "PID:4000" ++ [LF])
                 (set_m (Some M) (initial_world module_at_load)) in
  wf_matrix matrix_a /\ wf_matrix matrix_b /\ col matrix_a = row matrix_b /\
  0 <= start_row t /\ end_row t <= row matrix_a /\
  find_task (tasks_now te) (fork_ret te) = None /\
  exists w',
    thread matrix_a matrix_b te t w = Some w' /\
    console w' = chars "PID:4000" ++ [LF] ++ TAB :: chars "4001" ++ [LF] /\
    child_stdout w' = [chars "PID:4000" ++ [LF]].
Proof.
  intros te t M w.
  assert (0 <= start_row t) as Hs by (cbn; lia).
  assert (end_row t <= row matrix_a) as He by (cbn; lia).
  assert (has_shape M (row matrix_a) (col matrix_b)) as Hshape
    by (repeat split; repeat constructor).
  assert (0 <= fork_ret te <= INT_MAX) as Hfork
    by (cbn; unfold INT_MAX; lia).
  split; [exact wf_matrix_a|]. split; [exact wf_matrix_b|].
  split; [reflexivity|]. split; [exact Hs|]. split; [exact He|].
  split; [reflexivity|].
  destruct (thread_prints_request_on_miss matrix_a matrix_b te t w M
              wf_matrix_a wf_matrix_b eq_refl Hs He eq_refl Hfork eq_refl
              eq_refl Hshape wf_module_at_load eq_refl)
    as (w' & Hrun & Hcon & Hout & _).
  exists w'. split; [exact Hrun|]. rewrite Hcon, Hout.
  split; vm_compute; reflexivity.
Defined.

(** ** multiply(): workers that fail, no workers, no module *)

Lemma thread_not_ok A B te t w :
  worker_ok te = false ->
  exists text, thread A B te t w = Some (print text w).
Proof.
  unfold worker_ok, thread. intros Hok.
  destruct (pipe_ok te); cbn [negb andb] in *; [|by eexists].
  destruct (fork_ret te <? 0); [by eexists|done].
Qed.

Lemma get_cell_alloc os rows cols r c :
  0 <= r < rows -> 0 <= c < cols ->
  get_cell (alloc_matrix os rows cols) r c = Some (uninit_cell os r c).
Proof.
  intros Hr Hc. unfold get_cell, alloc_matrix. cbn [data].
  destruct (decide (0 <= r /\ 0 <= c)) as [_|]; [|lia].
  change (map ?f ?l) with (f <$> l). rewrite list_lookup_fmap.
  rewrite lookup_seqZ_lt by lia. cbn [fmap option_fmap option_map mbind
                                      option_bind].
  rewrite list_lookup_fmap, lookup_seqZ_lt by lia. cbn.
  do 2 f_equal; lia.
Qed.

(** The workers of [args] run in turn, some of them failing at [pipe] or
    [fork]: the cells of the others are computed, the rest of [m] is as it
    was. *)
Lemma threads_effect_partial os g (done_ : Z -> Z -> Prop) args w M M0 :
  wf_matrix (m1 g) -> wf_matrix (m2 g) -> col (m1 g) = row (m2 g) ->
  (forall nt, nt ∈ args ->
     0 <= start_row nt.2 /\ end_row nt.2 <= row (m1 g) /\
     fork_ret (thread_os os nt.1) <= INT_MAX) ->
  m w = Some M -> has_shape M (row (m1 g)) (col (m2 g)) ->
  wf_procfs (module w) ->
  (forall r c, done_ r c ->
     get_cell M r c = Some (to_int (math_dot (m1 g) (m2 g) r c))) ->
  (forall r c, ~ done_ r c -> get_cell M r c = get_cell M0 r c) ->
  exists w' M',
    for_each (run_thread os g) args w = Some w' /\
    m w' = Some M' /\ has_shape M' (row (m1 g)) (col (m2 g)) /\
    wf_procfs (module w') /\
    totalTime w' = totalTime w /\ result_txt w' = result_txt w /\
    spawned w' = spawned w ++ map snd args /\
    (forall r c,
       done_ r c \/
       (exists nt, nt ∈ args /\ worker_ok (thread_os os nt.1) = true /\
                   (r, c) ∈ task_cells (col (m2 g)) nt.2) ->
       get_cell M' r c = Some (to_int (math_dot (m1 g) (m2 g) r c))) /\
    (forall r c,
       ~ done_ r c ->
       (forall nt, nt ∈ args -> worker_ok (thread_os os nt.1) = true ->
          (r, c) ∉ task_cells (col (m2 g)) nt.2) ->
       get_cell M' r c = get_cell M0 r c).
Proof.
  intros HA HB Hdim. revert done_ w M.
  induction args as [|nt args IH];
    intros done_ w M Hargs Hm Hshape Hwf Hdone Hrest.
  - exists w, M. cbn [for_each map]. rewrite app_nil_r.
    do 7 (split; [done|]). split.
    + intros r c [Hd|(nt & Hin & _)]; [by apply Hdone|].
      by apply not_elem_of_nil in Hin.
    + intros r c Hnd _. by apply Hrest.
  - destruct (Hargs nt) as (Hs & He & Hmax); [apply list_elem_of_here|].
    assert (forall nt', nt' ∈ args ->
              0 <= start_row nt'.2 /\ end_row nt'.2 <= row (m1 g) /\
              fork_ret (thread_os os nt'.1) <= INT_MAX) as Hargs'
      by (intros; apply Hargs; by apply list_elem_of_further).
    destruct (worker_ok (thread_os os nt.1)) eqn:Hok.
    + assert (pipe_ok (thread_os os nt.1) = true /\
              0 <= fork_ret (thread_os os nt.1)) as [Hpipe Hfork].
      { unfold worker_ok in Hok. apply andb_true_iff in Hok as [? Hf].
        split; [done|]. destruct (Z.ltb_spec (fork_ret (thread_os os nt.1)) 0);
          [done|lia]. }
      destruct (thread_effect (m1 g) (m2 g) (thread_os os nt.1) nt.2 w M
                  HA HB Hdim Hs He Hpipe ltac:(lia) Hm Hshape Hwf)
        as (w1 & M1 & Hthread & Hm1 & Hshape1 & Hwf1 & Ht1 & Hres1 & Hsp1
            & Hget1).
      destruct (IH (fun r c => done_ r c \/
                               (r, c) ∈ task_cells (col (m2 g)) nt.2)
                   {| m := m w1; totalTime := totalTime w1;
                      console := console w1; result_txt := result_txt w1;
                      spawned := spawned w1 ++ [nt.2]; module := module w1;
                      child_stdout := child_stdout w1 |}
                   M1)
        as (w' & M' & Hrun & Hm' & Hshape' & Hwf' & Ht' & Hres' & Hsp'
            & Hget' & Hkeep'); try done.
      { intros r c Hrc. rewrite Hget1.
        destruct (decide ((r, c) ∈ task_cells (col (m2 g)) nt.2)); [done|].
        destruct Hrc as [Hd|?]; [by apply Hdone|done]. }
      { intros r c Hrc. rewrite Hget1.
        destruct (decide ((r, c) ∈ task_cells (col (m2 g)) nt.2)) as [Hin|];
          [exfalso; apply Hrc; by right|].
        apply Hrest. intros Hd. apply Hrc. by left. }
      assert (run_thread os g w nt =
              Some {| m := m w1; totalTime := totalTime w1;
                      console := console w1; result_txt := result_txt w1;
                      spawned := spawned w1 ++ [nt.2]; module := module w1;
                      child_stdout := child_stdout w1 |})
        as Hstep by (unfold run_thread; by rewrite Hthread).
      exists w', M'. cbn [for_each]. rewrite Hstep.
      cbn [mbind option_bind]. rewrite Hrun.
      split; [done|]. split; [done|]. split; [done|]. split; [done|].
      split; [by rewrite Ht'|]. split; [by rewrite Hres'|].
      split. { rewrite Hsp'. cbn [spawned map]. rewrite Hsp1.
               by rewrite <- app_assoc. }
      split.
      * intros r c [Hd|(nt' & Hin & Hok' & Hcell)]; apply Hget'.
        -- by left; left.
        -- apply elem_of_cons in Hin as [->|Hin]; [by left; right|].
           right. by exists nt'.
      * intros r c Hnd Hout. apply Hkeep'.
        -- intros [Hd|Hin]; [done|].
           by apply (Hout nt (list_elem_of_here _ _) Hok).
        -- intros nt' Hin. apply Hout. by apply list_elem_of_further.
    + destruct (thread_not_ok (m1 g) (m2 g) (thread_os os nt.1) nt.2 w Hok)
        as [text Hthread].
      destruct (IH done_
                   {| m := m w; totalTime := totalTime w;
                      console := console w ++ text;
                      result_txt := result_txt w;
                      spawned := spawned w ++ [nt.2]; module := module w;
                      child_stdout := child_stdout w |}
                   M)
        as (w' & M' & Hrun & Hm' & Hshape' & Hwf' & Ht' & Hres' & Hsp'
            & Hget' & Hkeep'); try done.
      assert (run_thread os g w nt =
              Some {| m := m w; totalTime := totalTime w;
                      console := console w ++ text;
                      result_txt := result_txt w;
                      spawned := spawned w ++ [nt.2]; module := module w;
                      child_stdout := child_stdout w |})
        as Hstep by (unfold run_thread; by rewrite Hthread).
      exists w', M'. cbn [for_each]. rewrite Hstep.
      cbn [mbind option_bind]. rewrite Hrun.
      split; [done|]. split; [done|]. split; [done|]. split; [done|].
      split; [done|]. split; [done|].
      split. { rewrite Hsp'. cbn [spawned map]. by rewrite <- app_assoc. }
      split.
      * intros r c [Hd|(nt' & Hin & Hok' & Hcell)]; apply Hget'.
        -- by left.
        -- apply elem_of_cons in Hin as [->|Hin]; [congruence|].
           right. by exists nt'.
      * intros r c Hnd Hout. apply Hkeep'; [done|].
        intros nt' Hin. apply Hout. by apply list_elem_of_further.
Qed.

(** X10.  A worker whose [pipe] or [fork] fails is fatal to that worker
    only: [multiply] still returns, and [m] holds the product (modulo
    [2^32]) in the rows of the workers that got their pipe and child, and
    what [malloc] left there in the rows of the others. *)
Theorem multiply_failed_workers os g w :
  wf_matrix (m1 g) -> wf_matrix (m2 g) -> col (m1 g) = row (m2 g) ->
  1 <= n_thread g <= INT_MAX ->
  wf_procfs (module w) ->
  (forall n, 0 <= n < n_thread g ->
     fork_ret (thread_os os n) <= INT_MAX /\ early os n = false) ->
  exists w' M,
    multiply os g w = Some w' /\ m w' = Some M /\
    has_shape M (row (m1 g)) (col (m2 g)) /\
    forall n r c,
      0 <= n < n_thread g ->
      nth_start (row (m1 g)) (n_thread g) n <= r
        < nth_start (row (m1 g)) (n_thread g) (n + 1) ->
      0 <= c < col (m2 g) ->
      get_cell M r c =
        if worker_ok (thread_os os n)
        then Some (to_int (math_dot (m1 g) (m2 g) r c))
        else Some (uninit_cell os r c).
Proof.
  intros HA HB Hdim Hn Hwf Henv.
  pose proof HA as (HrowA & _). pose proof HB as (_ & HcolB & _).
  assert (forall n, 0 <= n < n_thread g -> early os n = false) as Hearly
    by (intros n Hn'; by destruct (Henv n Hn') as (_ & ?)).
  unfold multiply, multiply_with.
  destruct (Z.eqb_spec (col (m1 g)) (row (m2 g))) as [_|]; [|done].
  cbn [negb]. rewrite alloc_succeeds by lia.
  destruct (Z.ltb_spec (n_thread g) 0); [lia|].
  set (w0 := print _ (set_m _ w)).
  set (args := thread_args os (partition (row (m1 g)) (n_thread g))).
  assert (forall nt, nt ∈ args ->
            0 <= nt.1 < n_thread g /\
            nt.2 = {| start_row := nth_start (row (m1 g)) (n_thread g) nt.1;
                      end_row := nth_start (row (m1 g)) (n_thread g)
                                           (nt.1 + 1) |}) as Helem
    by (intros nt Hin; exact (thread_args_elem os _ _ nt HrowA Hn Hearly Hin)).
  assert (forall nt, nt ∈ args ->
            0 <= start_row nt.2 /\ end_row nt.2 <= row (m1 g) /\
            fork_ret (thread_os os nt.1) <= INT_MAX) as Hargs.
  { intros nt Hin. destruct (Helem nt Hin) as [Hnt Heq].
    destruct (Henv nt.1 Hnt) as (Hfork & _).
    rewrite Heq. cbn [start_row end_row].
    pose proof (nth_start_bound _ _ HrowA Hn nt.1 ltac:(lia)).
    pose proof (nth_start_bound _ _ HrowA Hn (nt.1 + 1) ltac:(lia)).
    split; [lia|]. split; [lia|]. done. }
  destruct (threads_effect_partial os g (fun _ _ => False) args w0
              (alloc_matrix os (row (m1 g)) (col (m2 g)))
              (alloc_matrix os (row (m1 g)) (col (m2 g)))
              HA HB Hdim Hargs eq_refl (alloc_matrix_shape _ _ _) Hwf)
    as (w1 & M1 & Hrun & Hm1 & Hshape1 & Hwf1 & _ & _ & _ & Hget & Hkeep);
    [done|done|].
  rewrite Hrun. cbn [mbind option_bind].
  destruct (write_result_spec os
              {| m := m w1;
                 totalTime := to_int (to_long (tv_sec (endTime os)
                                               - tv_sec (startTime os)));
                 console := console w1; result_txt := result_txt w1;
                 spawned := spawned w1; module := module w1;
                 child_stdout := child_stdout w1 |}
              M1 _ _ Hm1 Hshape1)
    as (w' & Hw' & Hm' & _).
  exists w', M1. split; [exact Hw'|]. cbn [m] in Hm'.
  split; [by rewrite Hm'|]. split; [done|].
  intros n r c Hn' Hr Hc.
  assert ((Z.of_nat (Z.to_nat n),
           thread_arg os (Z.of_nat (Z.to_nat n))
             {| start_row := nth_start (row (m1 g)) (n_thread g)
                               (Z.of_nat (Z.to_nat n));
                end_row := nth_start (row (m1 g)) (n_thread g)
                             (Z.of_nat (Z.to_nat n) + 1) |}) ∈ args) as Hin.
  { unfold args, thread_args.
    eapply (elem_of_lookup_imap_2
              (fun i t => (Z.of_nat i, thread_arg os (Z.of_nat i) t))).
    apply partition_lookup_Some; [done|done|lia]. }
  rewrite Z2Nat.id in Hin by lia.
  unfold thread_arg in Hin. rewrite Hearly in Hin by done.
  destruct (worker_ok (thread_os os n)) eqn:Hok.
  - apply Hget. right. eexists. split; [exact Hin|]. cbn [fst snd].
    split; [done|]. by apply elem_of_task_cells.
  - rewrite Hkeep; [|tauto|].
    + apply get_cell_alloc; [|done].
      pose proof (nth_start_bound _ _ HrowA Hn n ltac:(lia)).
      pose proof (nth_start_bound _ _ HrowA Hn (n + 1) ltac:(lia)). lia.
    + intros nt Hnt Hok' [[Hr1 Hr2] _]%elem_of_task_cells.
      destruct (Helem nt Hnt) as [Hrange Heq].
      rewrite Heq in Hr1, Hr2. cbn [start_row end_row] in Hr1, Hr2.
      assert (nt.1 <> n) as Hne
        by (intros Heqn; rewrite Heqn in Hok'; congruence).
      destruct (Z.lt_ge_cases nt.1 n).
      * pose proof (nth_start_mono _ _ HrowA Hn (nt.1 + 1) n ltac:(lia)).
        lia.
      * pose proof (nth_start_mono _ _ HrowA Hn (n + 1) nt.1 ltac:(lia)).
        lia.
Qed.

Lemma multiply_failed_workers_witness :
  let g := {| n_thread := 2; m1 := matrix_a; m2 := matrix_b |} in
  wf_matrix matrix_a /\ wf_matrix matrix_b /\ col matrix_a = row matrix_b /\
  1 <= 2 <= INT_MAX /\ wf_procfs module_at_load /\
  exists w' M,
    multiply (faulty_os noon noon) g (initial_world module_at_load)
      = Some w' /\
    m w' = Some M /\
    get_cell M 0 0 = Some 19 /\ get_cell M 0 1 = Some 22 /\
    get_cell M 1 0 = Some (-7) /\ get_cell M 1 1 = Some (-7).
Proof.
  set (g := {| n_thread := 2; m1 := matrix_a; m2 := matrix_b |}).
  assert (1 <= 2 <= INT_MAX) as Hn by (unfold INT_MAX; lia).
  assert (forall n, 0 <= n < n_thread g ->
            fork_ret (thread_os (faulty_os noon noon) n) <= INT_MAX /\
            early (faulty_os noon noon) n = false) as Henv.
  { intros n Hn'. cbn in *. unfold INT_MAX. split; [lia|reflexivity]. }
  split; [exact wf_matrix_a|]. split; [exact wf_matrix_b|].
  split; [reflexivity|]. split; [exact Hn|].
  split; [exact wf_module_at_load|].
  destruct (multiply_failed_workers (faulty_os noon noon) g
              (initial_world module_at_load)
              wf_matrix_a wf_matrix_b eq_refl Hn wf_module_at_load Henv)
    as (w' & M & Hrun & Hm & _ & Hget).
  exists w', M. split; [exact Hrun|]. split; [exact Hm|].
  split; [|split; [|split]].
  - rewrite (Hget 0 0 0); [reflexivity|cbn; lia|vm_compute|cbn; lia].
    split; [discriminate|reflexivity].
  - rewrite (Hget 0 0 1); [reflexivity|cbn; lia|vm_compute|cbn; lia].
    split; [discriminate|reflexivity].
  - rewrite (Hget 1 1 0); [reflexivity|cbn; lia|vm_compute|cbn; lia].
    split; [discriminate|reflexivity].
  - rewrite (Hget 1 1 1); [reflexivity|cbn; lia|vm_compute|cbn; lia].
    split; [discriminate|reflexivity].
Defined.

(** X11.  A worker count of 0 (what [atoi] makes of an argument that is
    no number) is not refused: once the rows of the result are allocated,
    [multiply] creates no thread, computes nothing, and writes the cells
    of [m] to result.txt as [malloc] left them. *)
Theorem multiply_no_workers os g w :
  col (m1 g) = row (m2 g) ->
  alloc_fails (row (m1 g)) (col (m2 g)) = false ->
  n_thread g = 0 -> fopen_ok os = true ->
  let M := alloc_matrix os (row (m1 g)) (col (m2 g)) in
  exists text,
    result_text M = Some text /\
    multiply os g w =
    Some {| m := Some M;
            totalTime := to_int (to_long (tv_sec (endTime os)
                                          - tv_sec (startTime os)));
            console := console w ++ chars "PID:" ++ fmt_signed (getpid os)
                       ++ [LF];
            result_txt := Some text; spawned := spawned w;
            module := module w; child_stdout := child_stdout w |}.
Proof.
  intros Hdim Halloc Hn Hopen M.
  destruct (result_text_is_Some M _ _ (alloc_matrix_shape os _ _))
    as [text Htext].
  exists text. split; [done|].
  unfold multiply, multiply_with.
  destruct (Z.eqb_spec (col (m1 g)) (row (m2 g))) as [_|]; [|done].
  rewrite Halloc, Hn. cbn [negb for_each mbind option_bind].
  change (0 <? 0) with false. cbv iota.
  change (partition (row (m1 g)) 0) with (@nil Task).
  cbn [thread_args imap for_each mbind option_bind].
  unfold write_result. rewrite Hopen.
  cbn [negb print set_m m mbind option_bind]. fold M. rewrite Htext.
  done.
Qed.

Lemma multiply_no_workers_witness :
  let g := {| n_thread := atoi (chars "two"); m1 := matrix_a;
              m2 := matrix_b |} in
  col (m1 g) = row (m2 g) /\
  alloc_fails (row (m1 g)) (col (m2 g)) = false /\ n_thread g = 0 /\
  fopen_ok (example_os noon noon) = true /\
  exists w',
    multiply (example_os noon noon) g (initial_world module_at_load)
      = Some w' /\
    m w' = Some {| row := 2; col := 2; data := [[-7; -7]; [-7; -7]] |} /\
    spawned w' = [] /\
    result_txt w' = Some (chars "2 2" ++ [LF] ++ chars "-7 -7 " ++ [LF]
                          ++ chars "-7 -7 " ++ [LF]).
Proof.
  intros g.
  split; [reflexivity|]. split; [reflexivity|]. split; [reflexivity|].
  split; [reflexivity|].
  destruct (multiply_no_workers (example_os noon noon) g
              (initial_world module_at_load) eq_refl eq_refl eq_refl eq_refl)
    as (text & Htext & Hrun).
  eexists. split; [exact Hrun|]. cbn [m spawned result_txt].
  split; [reflexivity|]. split; [reflexivity|].
  rewrite <- Htext. vm_compute. reflexivity.
Defined.







(** ** Concurrency: the mutex, and runs of the workers *)

Lemma insert_keeps_is_Some {X : Type} (l : list X) i j x :
  is_Some (l !! j) -> is_Some (<[i := x]> l !! j).
Proof.
  intros H. apply lookup_lt_is_Some. rewrite length_insert.
  by apply lookup_lt_is_Some.
Qed.

Lemma step_lock_inv ev s s' :
  lock_inv s -> step true ev s = Some s' -> lock_inv s'.
Proof.
  intros [Hin Hex] Hstep.
  destruct ev as [i|i tasks|i|i]; cbn [step] in Hstep;
    (destruct (callers s !! i) as [c|] eqn:Hc; [|done]);
    cbn [mbind option_bind] in Hstep.
  - destruct (c_pc c) eqn:Hpc; cbn in Hstep; try done.
    destruct (bool_decide (mutex s = None)) eqn:Hm; [|done].
    apply bool_decide_eq_true in Hm. injection Hstep as <-.
    split; cbn [callers mutex].
    + intros j cj Hj Hcs. destruct (decide (i = j)) as [<-|Hne]; [done|].
      rewrite list_lookup_insert_ne in Hj by done.
      rewrite (Hin j cj Hj Hcs) in Hm. done.
    + intros j [= <-]. apply insert_keeps_is_Some. by rewrite Hc.
  - destruct (c_pc c) eqn:Hpc; cbn in Hstep; try done.
    destruct (proc_request (c_pid c)) as [request|]; [|done].
    cbn [mbind option_bind] in Hstep.
    destruct (proc_write tasks request (c_pos c) (chan s)) as [[pos st]|];
      [|done].
    cbn [mbind option_bind] in Hstep. injection Hstep as <-.
    assert (mutex s = Some i) as Hmi by (apply (Hin i c Hc); by left).
    split; cbn [callers mutex].
    + intros j cj Hj Hcs. destruct (decide (i = j)) as [<-|Hne]; [done|].
      rewrite list_lookup_insert_ne in Hj by done. by apply (Hin j cj).
    + intros j Hj. apply insert_keeps_is_Some. by apply Hex.
  - destruct (c_pc c) eqn:Hpc; cbn in Hstep; try done.
    destruct (proc_read (c_buf c) (c_pos c) (chan s)) as [[pos answer]|];
      [|done].
    cbn [mbind option_bind] in Hstep. injection Hstep as <-.
    assert (mutex s = Some i) as Hmi
      by (apply (Hin i c Hc); by right; left).
    split; cbn [callers mutex set_caller].
    + intros j cj Hj Hcs. destruct (decide (i = j)) as [<-|Hne]; [done|].
      rewrite list_lookup_insert_ne in Hj by done. by apply (Hin j cj).
    + intros j Hj. apply insert_keeps_is_Some. by apply Hex.
  - destruct (c_pc c) eqn:Hpc; cbn in Hstep; try done.
    injection Hstep as <-.
    assert (mutex s = Some i) as Hmi
      by (apply (Hin i c Hc); by right; right).
    split; cbn [callers mutex].
    + intros j cj Hj Hcs. destruct (decide (i = j)) as [<-|Hne].
      * rewrite list_lookup_insert_eq in Hj by (by eapply lookup_lt_Some).
        injection Hj as <-. by destruct Hcs as [?|[?|?]].
      * rewrite list_lookup_insert_ne in Hj by done.
        rewrite (Hin j cj Hj Hcs) in Hmi. by injection Hmi.
    + done.
Qed.

Lemma run_lock_inv evs s s' :
  lock_inv s -> run true evs s = Some s' -> lock_inv s'.
Proof.
  revert s. induction evs as [|ev evs IH]; intros s Hinv Hrun.
  - cbn in Hrun. by injection Hrun as <-.
  - cbn [run for_each] in Hrun.
    destruct (step true ev s) as [s1|] eqn:Hstep; [|done].
    cbn [mbind option_bind] in Hrun. apply (IH s1); [|done].
    by eapply step_lock_inv.
Qed.

Lemma start_lock_inv pids st : lock_inv (start pids st).
Proof.
  split; cbn [start callers mutex]; [|done].
  intros i c Hi Hcs. change (map ?f pids) with (f <$> pids) in Hi.
  rewrite list_lookup_fmap in Hi.
  destruct (pids !! i); [|done]. injection Hi as <-.
  by destruct Hcs as [?|[?|?]].
Qed.

(** X13.  The mutex of lines 165 and 180 keeps the critical section to
    one thread: in no state the callers can reach, in any interleaving,
    are two of them between [pthread_mutex_lock] and
    [pthread_mutex_unlock] at once. *)
Theorem critical_section_exclusive pids st evs s i j ci cj :
  run true evs (start pids st) = Some s ->
  callers s !! i = Some ci -> callers s !! j = Some cj ->
  in_critical_section ci -> in_critical_section cj ->
  i = j /\ mutex s = Some i.
Proof.
  intros Hrun Hi Hj Hci Hcj.
  destruct (run_lock_inv evs _ s (start_lock_inv pids st) Hrun) as [Hin _].
  pose proof (Hin i ci Hi Hci) as Hmi.
  pose proof (Hin j cj Hj Hcj) as Hmj.
  rewrite Hmi in Hmj. by injection Hmj as ->.
Qed.

Lemma critical_section_exclusive_witness :
  let tasks := [ {| pid := 100; utime := 7000000; nvcsw := 1; nivcsw := 2 |};
                 {| pid := 200; utime := 9000000; nvcsw := 3; nivcsw := 4 |} ] in
  let evs := [ Lock 1; Write 1 tasks; Read 1; Unlock 1; Lock 0; Write 0 tasks ] in
  exists s c,
    run true evs (start [100; 200] module_at_load) = Some s /\
    callers s !! 0%nat = Some c /\ in_critical_section c /\
    mutex s = Some 0%nat /\
    run true (evs ++ [Lock 1]) (start [100; 200] module_at_load) = None.
Proof.
  intros tasks evs.
  destruct (run true evs (start [100; 200] module_at_load)) as [s|] eqn:Hrun;
    [|vm_compute in Hrun; discriminate Hrun].
  destruct (callers s !! 0%nat) as [c|] eqn:Hc.
  2:{ exfalso. revert Hc. vm_compute in Hrun. injection Hrun as <-.
      vm_compute. discriminate. }
  assert (in_critical_section c) as Hcs.
  { revert Hc. vm_compute in Hrun. injection Hrun as <-.
    intros [= <-]. right. by left. }
  exists s, c. split; [reflexivity|]. split; [exact Hc|]. split; [exact Hcs|].
  split.
  - exact (proj2 (critical_section_exclusive [100; 200] module_at_load evs s
                    0%nat 0%nat c c Hrun Hc Hc Hcs Hcs)).
  - vm_compute. reflexivity.
Defined.

(** X14.  The callers never block one another for good: in every state
    they can reach (the handler finding a match for each identifier
    written), as long as one of them has not finished, some event can be
    taken: the holder of the mutex can take its next step, and when
    nobody holds it any caller that has not finished can lock. *)
Theorem callers_never_stuck pids st evs s k c :
  wf_procfs st -> Forall is_int pids ->
  always_matched pids evs ->
  run true evs (start pids st) = Some s ->
  callers s !! k = Some c -> c_pc c <> AtEnd ->
  exists ev s', step true ev s = Some s'.
Proof.
  intros Hwf Hpids Hm Hrun Hk Hpc.
  pose proof (run_inv [] pids evs _ _ (start_inv pids st Hwf Hpids) Hm Hrun)
    as (Hwfs & Hp & Hall).
  destruct (run_lock_inv evs _ s (start_lock_inv pids st) Hrun) as [Hin Hex].
  destruct (mutex s) as [i|] eqn:Hmx.
  - destruct (Hex i eq_refl) as [ci Hci].
    destruct (Hall i ci Hci) as [Hint Hci_ok].
    destruct (c_pc ci) eqn:Hpci.
    + by destruct Hci_ok.
    + destruct Hci_ok as [_ Hpos].
      destruct (transaction_total [] (c_pid ci) (chan s) Hwfs Hint)
        as (pos & st' & _ & _ & Hw & _).
      exists (Write i []). cbn [step]. rewrite Hci.
      cbn [mbind option_bind]. rewrite Hpci. cbn [pc_eqb].
      rewrite proc_request_spec. cbn [mbind option_bind].
      rewrite Hpos, Hw. cbn. by eexists.
    + destruct Hci_ok as (_ & Hbuf & Hpos & tasks & p & rest & _ & _ & Hchan).
      pose proof (fmt_signed_length (c_pid ci)) as Hl.
      destruct (proc_read_spec (c_pid ci) p (c_pos ci) rest)
        as (answer & pos' & Hr & _); [lia|by rewrite <- Hchan|].
      exists (Read i). cbn [step]. rewrite Hci.
      cbn [mbind option_bind]. rewrite Hpci. cbn [pc_eqb].
      rewrite Hbuf, Hchan, Hr. cbn. by eexists.
    + exists (Unlock i). cbn [step]. rewrite Hci.
      cbn [mbind option_bind]. rewrite Hpci. cbn. by eexists.
    + by destruct Hci_ok.
  - destruct (c_pc c) eqn:Hpck; try done.
    + exists (Lock k). cbn [step]. rewrite Hk.
      cbn [mbind option_bind]. rewrite Hpck, Hmx. cbn. by eexists.
    + pose proof (Hin k c Hk ltac:(by left)). congruence.
    + pose proof (Hin k c Hk ltac:(by right; left)). congruence.
    + pose proof (Hin k c Hk ltac:(by right; right)). congruence.
Qed.

Lemma callers_never_stuck_witness :
  let tasks := [ {| pid := 100; utime := 7000000; nvcsw := 1; nivcsw := 2 |};
                 {| pid := 200; utime := 9000000; nvcsw := 3; nivcsw := 4 |} ] in
  let evs := [ Lock 1; Write 1 tasks ] in
  wf_procfs module_at_load /\ Forall is_int [100; 200] /\
  always_matched [100; 200] evs /\
  exists s c,
    run true evs (start [100; 200] module_at_load) = Some s /\
    callers s !! 0%nat = Some c /\ c_pc c = AtLock /\
    step true (Lock 0) s = None /\
    exists ev s', step true ev s = Some s'.
Proof.
  intros tasks evs.
  assert (Forall is_int [100; 200]) as Hpids.
  { repeat constructor; unfold INT_MIN, INT_MAX; lia. }
  assert (always_matched [100; 200] evs) as Hm.
  { intros i tasks' id Hin Hi.
    assert (tasks' = tasks /\ i = 1%nat) as [-> ->].
    { cbn in Hin. intuition (try discriminate);
        match goal with H : Write _ _ = Write _ _ |- _ => injection H as <- <- end;
        auto. }
    injection Hi as <-. eexists. vm_compute. reflexivity. }
  split; [exact wf_module_at_load|]. split; [exact Hpids|].
  split; [exact Hm|].
  destruct (run true evs (start [100; 200] module_at_load)) as [s|] eqn:Hrun;
    [|vm_compute in Hrun; discriminate Hrun].
  destruct (callers s !! 0%nat) as [c|] eqn:Hc.
  2:{ exfalso. revert Hc. vm_compute in Hrun. injection Hrun as <-.
      vm_compute. discriminate. }
  assert (c_pc c = AtLock) as Hpc.
  { revert Hc. vm_compute in Hrun. injection Hrun as <-.
    intros [= <-]. reflexivity. }
  exists s, c. split; [reflexivity|]. split; [exact Hc|]. split; [exact Hpc|].
  split.
  - pose proof Hrun as Hrun'. vm_compute in Hrun'. injection Hrun' as <-.
    vm_compute. reflexivity.
  - apply (callers_never_stuck [100; 200] module_at_load evs s 0%nat c
             wf_module_at_load Hpids Hm Hrun Hc).
    rewrite Hpc. discriminate.
Defined.

Lemma sum_list_zero {X : Type} (f : X -> nat) l i x :
  sum_list (map f l) = 0%nat -> l !! i = Some x -> f x = 0%nat.
Proof.
  revert i. induction l as [|y l IH]; intros [|i] Hs Hi; try done.
  - cbn in Hi, Hs. injection Hi as ->. lia.
  - cbn in Hi, Hs. apply (IH i); [lia|done].
Qed.

Lemma sum_list_all_zero {X : Type} (f : X -> nat) l :
  Forall (fun x => f x = 0%nat) l -> sum_list (map f l) = 0%nat.
Proof. induction 1 as [|x l Hx _ IH]; [done|]. cbn. by rewrite Hx. Qed.

Lemma sum_list_positive {X : Type} (f : X -> nat) l :
  sum_list (map f l) <> 0%nat ->
  exists i x, l !! i = Some x /\ f x <> 0%nat.
Proof.
  induction l as [|y l IH]; intros Hs; [done|].
  destruct (decide (f y = 0%nat)) as [Hy|Hy].
  - destruct IH as (i & x & Hi & Hx); [cbn in Hs; lia|].
    by exists (S i), x.
  - by exists 0%nat, y.
Qed.

Lemma work_left_start cols ts junk M :
  work_left (work_start cols ts junk M) =
  (2 * sum_list (map (fun t => length (task_cells cols t)) ts))%nat.
Proof.
  unfold work_left, work_start. cbn [crew_workers].
  assert (forall (f : nat -> Task -> worker),
            (forall i t, (length (w_child_todo (f i t))
                          + length (w_parent_todo (f i t))
                          = 2 * length (task_cells cols t))%nat) ->
            sum_list (map (fun w => (length (w_child_todo w)
                                     + length (w_parent_todo w))%nat)
                          (imap f ts))
            = (2 * sum_list (map (fun t => length (task_cells cols t)) ts))%nat)
    as Hgen.
  { induction ts as [|t ts IH]; intros f Hf; [done|].
    cbn [imap map]. cbn. rewrite (IH (f ∘ S)) by (intros; apply Hf).
    specialize (Hf 0%nat t). lia. }
  apply Hgen. intros i t. cbn. lia.
Qed.

Section CrewRuns.
Variables A B : Matrix.
Variable ts : list Task.
Variable junk : nat -> nat -> ascii.
Variable M0 : Matrix.
Hypothesis HA : wf_matrix A.
Hypothesis HB : wf_matrix B.
Hypothesis Hdim : col A = row B.
Hypothesis Hts : Forall (fun t => 0 <= start_row t /\ end_row t <= row A) ts.
Hypothesis Hshape : has_shape M0 (row A) (col B).

Lemma work_left_zero evs s :
  work_run A B evs (work_start (col B) ts junk (Some M0)) = Some s ->
  all_collected s <-> work_left s = 0%nat.
Proof.
  intros Hrun.
  destruct (work_run_inv A B ts junk M0 HA HB Hdim Hts evs _ s
              (work_start_inv A B ts junk M0 Hshape) Hrun)
    as (M & Hm & HshapeM & Hkeep & Hlen & Hall).
  split.
  - intros Hdone. unfold work_left.
    assert (Forall (fun w => (length (w_child_todo w)
                              + length (w_parent_todo w))%nat = 0%nat)
                   (crew_workers s)) as Hz.
    { apply Forall_lookup. intros i w Hw.
      destruct (ts !! i) as [t|] eqn:Ht.
      2:{ apply lookup_lt_Some in Hw. apply lookup_ge_None in Ht. lia. }
      destruct (Hall i w t Hw Ht) as (pre & mid & pend & _ & Hpt & _).
      rewrite (Hdone i w Hw) in Hpt. symmetry in Hpt.
      apply app_eq_nil in Hpt as [_ ->]. by rewrite (Hdone i w Hw). }
    by apply sum_list_all_zero.
  - intros Hz i w Hw.
    pose proof (sum_list_zero _ _ i w Hz Hw) as Hw0. cbn in Hw0.
    destruct (w_parent_todo w); [done|]. cbn in Hw0. lia.
Qed.

Lemma work_run_snoc evs ev s s' :
  work_run A B evs s = Some s' ->
  work_run A B (evs ++ [ev]) s = work_step A B ev s'.
Proof.
  intros Hrun. unfold work_run in *. rewrite for_each_app, Hrun.
  cbn [mbind option_bind for_each]. by destruct (work_step A B ev s').
Qed.

Lemma workers_finish_from n evs s :
  work_left s = n ->
  work_run A B evs (work_start (col B) ts junk (Some M0)) = Some s ->
  exists evs' s',
    work_run A B (evs ++ evs') (work_start (col B) ts junk (Some M0))
      = Some s' /\
    all_collected s'.
Proof.
  revert evs s. induction n as [|n IH]; intros evs s Hn Hrun.
  - exists [], s. rewrite app_nil_r. split; [done|].
    by apply (work_left_zero evs).
  - destruct (sum_list_positive
                (fun w => (length (w_child_todo w)
                           + length (w_parent_todo w))%nat)
                (crew_workers s)) as (i & w & Hw & Hpos).
    { unfold work_left in Hn. lia. }
    destruct (work_run_inv A B ts junk M0 HA HB Hdim Hts evs _ s
                (work_start_inv A B ts junk M0 Hshape) Hrun)
      as (M & Hm & HshapeM & Hkeep & Hlen & Hall).
    destruct (ts !! i) as [t|] eqn:Ht.
    2:{ apply lookup_lt_Some in Hw. apply lookup_ge_None in Ht. lia. }
    assert (w_parent_todo w <> []) as Htodo.
    { destruct (Hall i w t Hw Ht) as (pre & mid & pend & _ & Hpt & _).
      intros Hnil. rewrite Hnil in Hpt. symmetry in Hpt.
      apply app_eq_nil in Hpt as [_ Hc]. rewrite Hnil, Hc in Hpos.
      by cbn in Hpos. }
    assert (exists ev s1, work_step A B ev s = Some s1) as (ev & s1 & Hstep).
    { destruct (crew_progress A B ts junk M0 HA HB Hdim Hts evs s i w
                  Hshape Hrun Hw Htodo) as [[_ [s1 H1]]|[_ [s1 H1]]];
        by eexists _, _. }
    assert (work_run A B (evs ++ [ev])
              (work_start (col B) ts junk (Some M0)) = Some s1) as Hrun1
      by (by rewrite (work_run_snoc evs ev _ s Hrun)).
    assert (work_left s1 = n) as Hn1.
    { pose proof (work_run_length A B [ev] s s1) as Hl.
      cbn [work_run for_each] in Hl. rewrite Hstep in Hl.
      specialize (Hl eq_refl). cbn [length] in Hl. lia. }
    destruct (IH (evs ++ [ev]) s1 Hn1 Hrun1) as (evs' & s' & Hrun' & Hdone).
    exists (ev :: evs'), s'. split; [|done].
    by rewrite <- app_assoc in Hrun'.
Qed.

End CrewRuns.

(** X15.  The pipe protocol cannot get stuck: from every state the
    children and threads can reach, in any interleaving of their passes,
    there is a way on to the state in which each thread has collected all
    its cells. *)
Theorem workers_can_finish A B ts junk M0 evs s :
  wf_matrix A -> wf_matrix B -> col A = row B ->
  Forall (fun t => 0 <= start_row t /\ end_row t <= row A) ts ->
  has_shape M0 (row A) (col B) ->
  work_run A B evs (work_start (col B) ts junk (Some M0)) = Some s ->
  exists evs' s',
    work_run A B (evs ++ evs') (work_start (col B) ts junk (Some M0))
      = Some s' /\
    all_collected s'.
Proof.
  intros HA HB Hdim Hts Hshape Hrun.
  by apply (workers_finish_from A B ts junk M0 HA HB Hdim Hts Hshape
              (work_left s) evs s).
Qed.

(** X16.  However the passes of the children and of the threads
    interleave, a run that ends with every cell collected consists of
    exactly one pass of a child and one of its thread for each cell of
    each task: twice the number of cells, no retry and no pass left
    out. *)
Theorem complete_run_length A B ts junk M0 evs s :
  wf_matrix A -> wf_matrix B -> col A = row B ->
  Forall (fun t => 0 <= start_row t /\ end_row t <= row A) ts ->
  has_shape M0 (row A) (col B) ->
  work_run A B evs (work_start (col B) ts junk (Some M0)) = Some s ->
  all_collected s ->
  length evs =
    (2 * sum_list (map (fun t => length (task_cells (col B) t)) ts))%nat /\
  forall evs', evs' <> [] -> work_run A B evs' s = None.
Proof.
  intros HA HB Hdim Hts Hshape Hrun Hdone.
  pose proof (proj1 (work_left_zero A B ts junk M0 HA HB Hdim Hts Hshape
                       evs s Hrun) Hdone) as Hz.
  pose proof (work_run_length A B evs _ s Hrun) as Hlen.
  rewrite work_left_start, Hz in Hlen. split; [lia|].
  intros evs' Hne. destruct (work_run A B evs' s) as [s'|] eqn:Hrun'; [|done].
  pose proof (work_run_length A B evs' s s' Hrun') as Hl.
  destruct evs'; [done|]. cbn [length] in Hl. lia.
Qed.

Lemma workers_can_finish_witness :
  let M0 := {| row := 2; col := 2; data := [[-7; -7]; [-7; -7]] |} in
  let start := work_start (col matrix_b) (partition 2 2) (fun _ _ => "x"%char)
                 (Some M0) in
  wf_matrix matrix_a /\ wf_matrix matrix_b /\ col matrix_a = row matrix_b /\
  Forall (fun t => 0 <= start_row t /\ end_row t <= row matrix_a)
         (partition 2 2) /\
  has_shape M0 (row matrix_a) (col matrix_b) /\
  exists s,
    work_run matrix_a matrix_b [ChildCell 1; ChildCell 0; ParentCell 1] start
      = Some s /\
    exists evs' s',
      work_run matrix_a matrix_b
        ([ChildCell 1; ChildCell 0; ParentCell 1] ++ evs') start = Some s' /\
      all_collected s'.
Proof.
  intros M0 start.
  assert (Forall (fun t => 0 <= start_row t /\ end_row t <= row matrix_a)
                 (partition 2 2)) as Hts.
  { change (partition 2 2) with [ {| start_row := 0; end_row := 1 |};
                                  {| start_row := 1; end_row := 2 |} ].
    repeat constructor; cbn; lia. }
  assert (has_shape M0 (row matrix_a) (col matrix_b)) as Hshape
    by (repeat split; repeat constructor).
  split; [exact wf_matrix_a|]. split; [exact wf_matrix_b|].
  split; [reflexivity|]. split; [exact Hts|]. split; [exact Hshape|].
  destruct (work_run matrix_a matrix_b
              [ChildCell 1; ChildCell 0; ParentCell 1] start)
    as [s|] eqn:Hrun; [|vm_compute in Hrun; discriminate Hrun].
  exists s. split; [reflexivity|].
  exact (workers_can_finish matrix_a matrix_b (partition 2 2)
           (fun _ _ => "x"%char) M0
           [ChildCell 1; ChildCell 0; ParentCell 1] s
           wf_matrix_a wf_matrix_b eq_refl Hts Hshape Hrun).
Defined.

Lemma complete_run_length_witness :
  let M0 := {| row := 2; col := 2; data := [[-7; -7]; [-7; -7]] |} in
  let start := work_start (col matrix_b) (partition 2 2) (fun _ _ => "x"%char)
                 (Some M0) in
  let evs := [ ChildCell 1; ChildCell 0; ParentCell 1; ChildCell 1;
               ChildCell 0; ParentCell 0; ParentCell 1; ParentCell 0 ] in
  wf_matrix matrix_a /\ wf_matrix matrix_b /\ col matrix_a = row matrix_b /\
  Forall (fun t => 0 <= start_row t /\ end_row t <= row matrix_a)
         (partition 2 2) /\
  has_shape M0 (row matrix_a) (col matrix_b) /\
  exists s,
    work_run matrix_a matrix_b evs start = Some s /\ all_collected s /\
    length evs = 8%nat /\
    work_run matrix_a matrix_b [ParentCell 0] s = None.
Proof.
  intros M0 start evs.
  assert (Forall (fun t => 0 <= start_row t /\ end_row t <= row matrix_a)
                 (partition 2 2)) as Hts.
  { change (partition 2 2) with [ {| start_row := 0; end_row := 1 |};
                                  {| start_row := 1; end_row := 2 |} ].
    repeat constructor; cbn; lia. }
  assert (has_shape M0 (row matrix_a) (col matrix_b)) as Hshape
    by (repeat split; repeat constructor).
  split; [exact wf_matrix_a|]. split; [exact wf_matrix_b|].
  split; [reflexivity|]. split; [exact Hts|]. split; [exact Hshape|].
  destruct (work_run matrix_a matrix_b evs start) as [s|] eqn:Hrun;
    [|vm_compute in Hrun; discriminate Hrun].
  assert (all_collected s) as Hdone.
  { pose proof Hrun as Hrun'. vm_compute in Hrun'. injection Hrun' as <-.
    intros [|[|i]] w Hw; cbn in Hw; try discriminate Hw;
      injection Hw as <-; reflexivity. }
  exists s. split; [reflexivity|]. split; [exact Hdone|].
  destruct (complete_run_length matrix_a matrix_b (partition 2 2)
              (fun _ _ => "x"%char) M0 evs s
              wf_matrix_a wf_matrix_b eq_refl Hts Hshape Hrun Hdone)
    as [Hlen Hstop].
  split; [exact Hlen|]. apply Hstop. discriminate.
Defined.

(** ** The matrix files: load_matric(), write_result(), main() *)

Lemma skip_space_blank ws : blank ws -> skip_space ws = [].
Proof. induction 1 as [|c ws Hc _ IH]; [done|]. cbn. by rewrite Hc. Qed.

Lemma skip_space_app ws s : blank ws -> skip_space (ws ++ s) = skip_space s.
Proof. induction 1 as [|c ws Hc _ IH]; [done|]. cbn. by rewrite Hc. Qed.

Lemma scan_fmt_unsigned_ahead n rest :
  0 <= n <= ULLONG_MAX -> no_digit_ahead rest ->
  exists k, k <> 0%nat /\
    scan_digits 0 0 (fmt_unsigned n ++ rest) = (n, k, rest).
Proof.
  intros Hn Hrest. destruct rest as [|c rest].
  - unfold fmt_unsigned. exists (length (dec_digits 20 n [])). split.
    + destruct (dec_digits_length 20 n) as [_ Hne].
      destruct (dec_digits 20 n []); [by destruct Hne|done].
    + rewrite scan_digits_app by (apply dec_digits_are_digits; lia).
      rewrite dec_digits_value by (unfold ULLONG_MAX in Hn; cbn; lia).
      cbn [scan_digits]. f_equal.
  - by apply scan_fmt_unsigned.
Qed.

(** [fscanf] reads back what [%d] printed, after any white space, when
    no digit follows. *)
Lemma fscanf_d_number ws v rest :
  blank ws -> is_int v -> no_digit_ahead rest ->
  fscanf_d (ws ++ fmt_signed v ++ rest) = (Some v, rest).
Proof.
  intros Hws Hv Hrest. unfold fscanf_d. rewrite skip_space_app by done.
  assert (clamp_long v = v) as Hclamp.
  { unfold clamp_long, LONG_MIN, LONG_MAX.
    unfold is_int, INT_MIN, INT_MAX in Hv. lia. }
  unfold fmt_signed. destruct (Z.ltb_spec v 0).
  - cbn [app skip_space]. change (isspace "-") with false. cbv iota.
    change (Ascii.eqb "-" "-") with true. cbn [orb]. cbv iota.
    destruct (scan_fmt_unsigned_ahead (- v) rest) as (k & Hk & ->); [|done|].
    { unfold is_int, INT_MIN, ULLONG_MAX in *. lia. }
    destruct (decide (k = 0%nat)); [done|].
    by rewrite Z.opp_involutive, Hclamp, to_int_id.
  - destruct (fmt_unsigned_first v) as (d & ds & Heq & Hd); [done|].
    destruct (is_digit_not_special d Hd) as (Hsp & Hm & Hp & _).
    rewrite Heq. cbn [app skip_space]. rewrite Hsp, Hm, Hp. cbn [orb].
    cbv iota.
    change (d :: ds ++ rest) with ((d :: ds) ++ rest). rewrite <- Heq.
    destruct (scan_fmt_unsigned_ahead v rest) as (k & Hk & ->); [|done|].
    { unfold is_int, INT_MAX, ULLONG_MAX in *. lia. }
    destruct (decide (k = 0%nat)); [done|].
    by rewrite Hclamp, to_int_id.
Qed.

(** At the end of the file, white space apart, nothing is stored. *)
Lemma fscanf_d_blank ws : blank ws -> fscanf_d ws = (None, []).
Proof. intros Hws. unfold fscanf_d. by rewrite skip_space_blank. Qed.

Lemma blank_no_digit ws rest :
  blank ws -> ws <> [] -> no_digit_ahead (ws ++ rest).
Proof.
  intros Hws Hne. destruct ws as [|c ws]; [done|]. cbn.
  inversion Hws as [|? ? Hc _]; subst.
  destruct (is_digit c) eqn:Hd; [|done].
  apply is_digit_not_special in Hd as [Hsp _]. congruence.
Qed.

Lemma alloc_rows_shape junk rows cols M :
  row M = rows -> col M = cols -> data M = alloc_rows junk rows cols ->
  has_shape M rows cols.
Proof.
  intros Hr Hc Hd. split; [done|]. split; [done|]. rewrite Hd.
  unfold alloc_rows. split.
  - by rewrite length_map, length_seqZ.
  - apply list.Forall_forall. intros cells Hin.
    apply list_elem_of_fmap in Hin as (r & -> & _).
    by rewrite length_map, length_seqZ.
Qed.

Lemma get_cell_alloc_rows junk rows cols r c :
  0 <= r < rows -> 0 <= c < cols ->
  get_cell {| row := rows; col := cols; data := alloc_rows junk rows cols |}
           r c = Some (junk r c).
Proof.
  intros Hr Hc. unfold get_cell, alloc_rows. cbn [data].
  destruct (decide (0 <= r /\ 0 <= c)) as [_|]; [|lia].
  change (map ?f ?l) with (f <$> l). rewrite list_lookup_fmap.
  rewrite lookup_seqZ_lt by lia. cbn [fmap option_fmap option_map mbind
                                      option_bind].
  rewrite list_lookup_fmap, lookup_seqZ_lt by lia. cbn.
  do 2 f_equal; lia.
Qed.

(** *** write_result(): the text of result.txt *)

Lemma result_line_form M rows cols r text :
  has_shape M rows cols -> 0 <= r < rows ->
  result_line M text r = Some (text ++ row_text M cols r).
Proof.
  intros Hshape Hr. pose proof Hshape as (_ & Hcol & _).
  unfold result_line, for_range, row_text. rewrite Hcol, Z.sub_0_r.
  assert (forall cs text,
            Forall (fun c => 0 <= c < cols) cs ->
            for_each (fun text c => v ← get_cell M r c;
                                    Some (text ++ fmt_signed v ++ chars " "))
                     cs text
            = Some (text ++ concat (map (fun c => fmt_signed (cell M r c)
                                                  ++ chars " ") cs)))
    as Hloop.
  { induction cs as [|c cs IH]; intros text' Hcs.
    - cbn. by rewrite app_nil_r.
    - apply Forall_cons_1 in Hcs as [Hc Hcs'].
      destruct (get_cell_in_shape M rows cols r c Hshape Hr Hc) as [v Hv].
      cbn [for_each map concat]. unfold cell. rewrite Hv.
      cbn [mbind option_bind default]. rewrite IH by done.
      by rewrite <- !app_assoc. }
  rewrite Hloop by (apply list.Forall_forall; intros c Hc%elem_of_seqZ; lia).
  cbn [mbind option_bind]. by rewrite <- app_assoc.
Qed.

Lemma result_text_form M rows cols :
  has_shape M rows cols ->
  result_text M =
  Some (fmt_signed rows ++ chars " " ++ fmt_signed cols ++ [LF] ++
        concat (map (row_text M cols) (seqZ 0 rows))).
Proof.
  intros Hshape. pose proof Hshape as (Hrow & Hcol & _).
  unfold result_text, for_range. rewrite Hrow, Hcol, Z.sub_0_r.
  assert (forall rs text,
            Forall (fun r => 0 <= r < rows) rs ->
            for_each (result_line M) rs text
            = Some (text ++ concat (map (row_text M cols) rs))) as Hloop.
  { induction rs as [|r rs IH]; intros text Hrs.
    - cbn. by rewrite app_nil_r.
    - apply Forall_cons_1 in Hrs as [Hr Hrs'].
      cbn [for_each map concat].
      rewrite (result_line_form M rows cols r text Hshape Hr).
      cbn [mbind option_bind]. rewrite IH by done.
      by rewrite <- !app_assoc. }
  rewrite Hloop by (apply list.Forall_forall; intros r Hr%elem_of_seqZ; lia).
  by rewrite <- !app_assoc.
Qed.

(** *** load_matric(): reading the cells *)

Lemma load_cell_number r c ws v rest M rows cols :
  blank ws -> is_int v -> no_digit_ahead rest ->
  has_shape M rows cols -> 0 <= r < rows -> 0 <= c < cols ->
  exists M',
    load_cell r (ws ++ fmt_signed v ++ rest, M) c = Some (rest, M') /\
    has_shape M' rows cols /\
    forall r' c', get_cell M' r' c' =
      if decide (r' = r /\ c' = c) then Some v else get_cell M r' c'.
Proof.
  intros Hws Hv Hrest Hshape Hr Hc.
  destruct (set_cell_in_shape M rows cols r c v Hshape Hr Hc)
    as (M' & Hset & Hshape' & Hget).
  exists M'. split; [|done]. unfold load_cell. cbn [fst snd].
  rewrite fscanf_d_number by done. rewrite Hset. done.
Qed.

Lemma load_row (v : Z -> Z) rows cols r cs ws rest M :
  blank ws -> has_shape M rows cols -> 0 <= r < rows ->
  Forall (fun c => 0 <= c < cols /\ is_int (v c)) cs ->
  exists ws' M',
    for_each (load_cell r) cs
      (ws ++ concat (map (fun c => fmt_signed (v c) ++ chars " ") cs)
          ++ LF :: rest, M)
    = Some (ws' ++ LF :: rest, M') /\
    blank ws' /\ has_shape M' rows cols /\
    forall r' c', get_cell M' r' c' =
      if decide (r' = r /\ c' ∈ cs) then Some (v c') else get_cell M r' c'.
Proof.
  intros Hws Hshape Hr Hcs. revert ws M Hws Hshape.
  induction Hcs as [|c cs [Hc Hv] _ IH]; intros ws M Hws Hshape.
  - exists ws, M. cbn. split; [done|]. split; [done|]. split; [done|].
    intros r' c'. rewrite decide_False; [done|].
    intros [_ Hin]. by apply not_elem_of_nil in Hin.
  - cbn [map concat for_each]. rewrite <- !app_assoc.
    change (chars " ") with [" "%char]. cbn [app].
    destruct (load_cell_number r c ws (v c)
                (" "%char :: concat (map (fun c0 => fmt_signed (v c0)
                                                    ++ [" "%char]) cs)
                 ++ LF :: rest) M rows cols Hws Hv eq_refl Hshape Hr Hc)
      as (M1 & Hcell & Hshape1 & Hget1).
    rewrite Hcell. cbn [mbind option_bind].
    destruct (IH [" "%char] M1) as (ws' & M' & Hrun & Hws' & Hshape' & Hget');
      [by repeat constructor|done|].
    change (chars " ") with [" "%char] in Hrun. cbn [app] in Hrun.
    exists ws', M'. split; [exact Hrun|]. split; [done|]. split; [done|].
    intros r' c'. rewrite Hget', Hget1.
    destruct (decide (r' = r /\ c' ∈ cs)) as [[-> Hin]|Hn].
    + rewrite decide_True; [done|]. split; [done|].
      by apply list_elem_of_further.
    + destruct (decide (r' = r /\ c' = c)) as [[-> ->]|Hn'].
      * rewrite decide_True; [done|]. split; [done|]. apply list_elem_of_here.
      * rewrite decide_False; [done|].
        intros [-> [->|Hin]%elem_of_cons]; tauto.
Qed.

Lemma for_range_0 {S : Type} n (body : S -> Z -> option S) s :
  for_range 0 n body s = for_each body (seqZ 0 n) s.
Proof. unfold for_range. by rewrite Z.sub_0_r. Qed.

Lemma load_rows (v : Z -> Z -> Z) rows cols rs ws M (T : Matrix) :
  blank ws -> has_shape M rows cols ->
  (forall r c, 0 <= r < rows -> 0 <= c < cols ->
     cell T r c = v r c /\ is_int (v r c)) ->
  Forall (fun r => 0 <= r < rows) rs ->
  exists ws' M',
    for_each (fun st r => for_range 0 cols (load_cell r) st) rs
      (ws ++ concat (map (row_text T cols) rs), M)
    = Some (ws', M') /\
    blank ws' /\ has_shape M' rows cols /\
    forall r' c', get_cell M' r' c' =
      if decide (r' ∈ rs /\ 0 <= c' < cols) then Some (v r' c')
      else get_cell M r' c'.
Proof.
  intros Hws Hshape Hv Hrs. revert ws M Hws Hshape.
  induction Hrs as [|r rs Hr _ IH]; intros ws M Hws Hshape.
  - exists ws, M. cbn. rewrite app_nil_r. split; [done|]. split; [done|].
    split; [done|]. intros r' c'. rewrite decide_False; [done|].
    intros [Hin _]. by apply not_elem_of_nil in Hin.
  - cbn [map concat for_each]. unfold row_text at 1.
    rewrite <- !app_assoc. cbn [app].
    assert (map (fun c => fmt_signed (cell T r c) ++ chars " ") (seqZ 0 cols)
            = map (fun c => fmt_signed (v r c) ++ chars " ") (seqZ 0 cols))
      as ->.
    { apply map_ext_in. intros c Hc%list_elem_of_In%elem_of_seqZ.
      by destruct (Hv r c Hr ltac:(lia)) as [-> _]. }
    destruct (load_row (v r) rows cols r (seqZ 0 cols) ws
                (concat (map (row_text T cols) rs)) M Hws Hshape Hr)
      as (ws1 & M1 & Hrow & Hws1 & Hshape1 & Hget1).
    { apply list.Forall_forall. intros c Hc%elem_of_seqZ.
      split; [lia|]. by apply Hv; lia. }
    rewrite for_range_0, Hrow. cbn [mbind option_bind].
    destruct (IH (ws1 ++ [LF]) M1) as (ws' & M' & Hrun & Hws' & Hshape' & Hget').
    { apply Forall_app. split; [done|]. by repeat constructor. }
    { done. }
    rewrite <- app_assoc in Hrun. cbn [app] in Hrun.
    exists ws', M'. split; [exact Hrun|]. split; [done|]. split; [done|].
    intros r' c'. rewrite Hget', Hget1.
    destruct (decide (r' ∈ rs /\ 0 <= c' < cols)) as [[Hin Hc']|Hn].
    + rewrite decide_True; [done|]. split; [|done].
      by apply list_elem_of_further.
    + destruct (decide (r' = r /\ c' ∈ seqZ 0 cols)) as [[-> Hc'%elem_of_seqZ]|Hn'].
      * rewrite decide_True; [done|]. split; [apply list_elem_of_here|lia].
      * rewrite decide_False; [done|].
        intros [[->|Hin]%elem_of_cons Hc'].
        -- apply Hn'. split; [done|]. apply elem_of_seqZ. lia.
        -- tauto.
Qed.

(** X17.  What [write_result] writes, [load_matric] reads back: a file
    holding the text of result.txt for a matrix of [int] cells loads as
    that very matrix, and nothing is printed. *)
Theorem load_matric_result_text ld filename w M text :
  wf_matrix M -> result_text M = Some text -> ld_file ld = Some text ->
  load_matric ld filename w = Some (Some M, w).
Proof.
  intros HM Htext Hfile.
  pose proof (wf_matrix_shape M HM) as Hshape.
  pose proof HM as (Hrow & Hcol & _).
  rewrite (result_text_form M _ _ Hshape) in Htext. injection Htext as <-.
  unfold load_matric. rewrite Hfile.
  change (chars " ") with [" "%char]. cbn [app].
  assert (is_int (row M) /\ is_int (col M)) as [Hir Hic]
    by (unfold is_int, INT_MIN; lia).
  set (body := concat (map (row_text M (col M)) (seqZ 0 (row M)))).
  pose proof (fscanf_d_number [] (row M)
                (" "%char :: fmt_signed (col M) ++ LF :: body)
                ltac:(constructor) Hir eq_refl) as H1.
  pose proof (fscanf_d_number [" "%char] (col M) (LF :: body)
                ltac:(by repeat constructor) Hic eq_refl) as H2.
  cbn [app] in H1, H2. rewrite H1, H2.
  cbn [default from_option id]. destruct (Z.ltb_spec (col M) 0); [lia|].
  rewrite andb_false_r, for_range_0.
  destruct (load_rows (cell M) (row M) (col M) (seqZ 0 (row M)) [LF]
              {| row := row M; col := col M;
                 data := alloc_rows (ld_cell ld) (row M) (col M) |} M)
    as (ws' & M' & Hrun & _ & Hshape' & Hget).
  { by repeat constructor. }
  { by apply (alloc_rows_shape (ld_cell ld)). }
  { intros r c Hr Hc. split; [done|].
    by destruct (get_cell_wf M r c HM Hr Hc) as (v & _ & Hv & ->). }
  { apply list.Forall_forall. intros r Hr%elem_of_seqZ. lia. }
  cbn [app] in Hrun. subst body. rewrite Hrun. cbn [mbind option_bind].
  do 3 f_equal. apply (matrix_ext _ _ (row M) (col M)); [done|done|].
  intros r c Hr Hc. rewrite Hget.
  rewrite decide_True by (split; [apply elem_of_seqZ; lia|done]).
  by destruct (get_cell_wf M r c HM Hr Hc) as (v & -> & _ & ->).
Qed.

Lemma load_matric_result_text_witness :
  let text := chars "2 2" ++ [LF] ++ chars "1 2 " ++ [LF] ++ chars "3 4 "
              ++ [LF] in
  let ld := {| ld_file := Some text; ld_row := 77; ld_col := 88;
               ld_cell := fun _ _ => -7 |} in
  wf_matrix matrix_a /\ result_text matrix_a = Some text /\
  load_matric ld (chars "m1.txt") (initial_world module_at_load)
    = Some (Some matrix_a, initial_world module_at_load).
Proof.
  intros text ld.
  assert (result_text matrix_a = Some text) as Htext
    by (vm_compute; reflexivity).
  split; [exact wf_matrix_a|]. split; [exact Htext|].
  exact (load_matric_result_text ld (chars "m1.txt")
           (initial_world module_at_load) matrix_a text
           wf_matrix_a Htext eq_refl).
Defined.

Lemma blank_no_digit_ahead ws : blank ws -> no_digit_ahead ws.
Proof.
  intros Hws. destruct ws as [|c ws]; [done|]. cbn.
  apply Forall_cons_1 in Hws as [Hc _].
  destruct (is_digit c) eqn:Hd; [|done].
  apply is_digit_not_special in Hd as [Hsp _]. congruence.
Qed.

Lemma tokens_no_digit_ahead {X : Type} (sep text : X -> list ascii) xs tail :
  (forall x, blank (sep x) /\ sep x <> []) -> blank tail ->
  no_digit_ahead (concat (map (fun x => sep x ++ text x) xs) ++ tail).
Proof.
  intros Hsep Htail. destruct xs as [|x xs].
  - by apply blank_no_digit_ahead.
  - cbn [map concat]. rewrite <- !app_assoc.
    destruct (Hsep x) as [Hb Hne]. by apply blank_no_digit.
Qed.

(** The cells are read in the order of the loops from numbers separated
    by white space, wherever the lines break. *)
Lemma load_tokens (v : Z * Z -> Z) (sep : Z * Z -> list ascii)
    rows cols cs tail M :
  (forall rc, blank (sep rc) /\ sep rc <> []) -> blank tail ->
  has_shape M rows cols ->
  Forall (fun rc => 0 <= rc.1 < rows /\ 0 <= rc.2 < cols /\ is_int (v rc))
         cs ->
  exists M',
    for_each (fun st rc => load_cell rc.1 st rc.2) cs
      (concat (map (fun rc => sep rc ++ fmt_signed (v rc)) cs) ++ tail, M)
    = Some (tail, M') /\
    has_shape M' rows cols /\
    forall r c, get_cell M' r c =
      if decide ((r, c) ∈ cs) then Some (v (r, c)) else get_cell M r c.
Proof.
  intros Hsep Htail Hshape Hcs. revert M Hshape.
  induction Hcs as [|[r0 c0] cs (Hr & Hc & Hv) _ IH]; intros M Hshape.
  - exists M. cbn. split; [done|]. split; [done|].
    intros r c. rewrite decide_False; [done|]. apply not_elem_of_nil.
  - cbn [fst snd] in Hr, Hc. cbn [map concat for_each fst snd].
    rewrite <- !app_assoc.
    destruct (load_cell_number r0 c0 (sep (r0, c0)) (v (r0, c0))
                (concat (map (fun rc => sep rc ++ fmt_signed (v rc)) cs)
                 ++ tail) M rows cols)
      as (M1 & Hcell & Hshape1 & Hget1); try done.
    { by destruct (Hsep (r0, c0)). }
    { by apply tokens_no_digit_ahead. }
    rewrite Hcell. cbn [mbind option_bind].
    destruct (IH M1 Hshape1) as (M' & Hrun & Hshape' & Hget').
    exists M'. split; [done|]. split; [done|].
    intros r c. rewrite Hget', Hget1.
    destruct (decide ((r, c) ∈ cs)) as [Hin|Hnin].
    + rewrite decide_True; [done|]. by apply list_elem_of_further.
    + destruct (decide (r = r0 /\ c = c0)) as [[-> ->]|Hne].
      * rewrite decide_True; [done|]. apply list_elem_of_here.
      * rewrite decide_False; [done|].
        intros [Heq|Hin]%elem_of_cons; [|done].
        injection Heq as -> ->. tauto.
Qed.

(** Once the numbers have run out, the cells keep their contents. *)
Lemma load_nothing cs tail M :
  blank tail ->
  exists tail',
    for_each (fun st rc => load_cell rc.1 st rc.2) cs (tail, M)
    = Some (tail', M) /\ blank tail'.
Proof.
  revert tail. induction cs as [|rc cs IH]; intros tail Htail.
  - by exists tail.
  - assert (load_cell rc.1 (tail, M) rc.2 = Some ([], M)) as Hstep
      by (unfold load_cell; cbn [fst snd]; by rewrite fscanf_d_blank).
    cbn [for_each]. rewrite Hstep. cbn [mbind option_bind].
    apply IH. constructor.
Qed.

Lemma load_loops rows cols st :
  for_range 0 rows (fun st r => for_range 0 cols (load_cell r) st) st =
  for_each (fun st rc => load_cell rc.1 st rc.2)
           (task_cells cols {| start_row := 0; end_row := rows |}) st.
Proof.
  unfold for_range, task_cells. cbn [start_row end_row].
  rewrite !Z.sub_0_r. apply (for_each_nested load_cell).
Qed.

(** X18.  [load_matric] reads numbers, not lines, and checks nothing: the
    first two numbers of the file are the dimensions and the numbers after
    them fill the cells in row-major order, whatever white space (blanks,
    line breaks) separates them; when the file ends early, the cells for
    which no number is left keep what [malloc] left in them, and no error
    is reported. *)
Theorem load_matric_tokens
    ld filename w rows cols (v : Z -> Z -> Z) (sep : Z * Z -> list ascii)
    ws0 ws1 k tail :
  let cells := task_cells cols {| start_row := 0; end_row := rows |} in
  ld_file ld =
    Some (ws0 ++ fmt_signed rows ++ ws1 ++ fmt_signed cols ++
          concat (map (fun rc => sep rc ++ fmt_signed (v rc.1 rc.2))
                      (take k cells)) ++ tail) ->
  0 <= rows <= INT_MAX -> 0 <= cols <= INT_MAX ->
  blank ws0 -> blank ws1 -> ws1 <> [] ->
  (forall rc, blank (sep rc) /\ sep rc <> []) ->
  (forall r c, is_int (v r c)) ->
  blank tail ->
  exists M,
    load_matric ld filename w = Some (Some M, w) /\
    has_shape M rows cols /\
    forall r c, 0 <= r < rows -> 0 <= c < cols ->
      get_cell M r c =
        if decide ((r, c) ∈ take k cells) then Some (v r c)
        else Some (ld_cell ld r c).
Proof.
  intros cells Hfile Hrows Hcols Hws0 Hws1 Hne Hsep Hv Htail.
  unfold load_matric. rewrite Hfile.
  set (body := concat _ ++ tail).
  assert (no_digit_ahead body) as Hbody
    by (by apply (tokens_no_digit_ahead sep
                    (fun rc => fmt_signed (v rc.1 rc.2)))).
  rewrite (fscanf_d_number ws0 rows)
    by (done || (unfold is_int, INT_MIN; lia) || by apply blank_no_digit).
  pose proof (fscanf_d_number ws1 cols body Hws1
                ltac:(unfold is_int, INT_MIN; lia) Hbody) as H2.
  rewrite H2. cbn [default from_option id].
  destruct (Z.ltb_spec cols 0); [lia|]. rewrite andb_false_r.
  rewrite load_loops.
  assert (task_cells cols {| start_row := 0; end_row := rows |}
          = take k cells ++ drop k cells) as Hsplit
    by (symmetry; apply take_drop).
  set (M0 := {| row := rows; col := cols;
                data := alloc_rows (ld_cell ld) rows cols |}).
  assert (has_shape M0 rows cols) as Hshape0
    by (by apply (alloc_rows_shape (ld_cell ld))).
  rewrite Hsplit, for_each_app.
  destruct (load_tokens (fun rc => v rc.1 rc.2) sep rows cols (take k cells)
              tail M0 Hsep Htail Hshape0)
    as (M1 & Hrun1 & Hshape1 & Hget1).
  { apply list.Forall_forall. intros [r c] Hin%elem_of_take.
    destruct Hin as (i & Hin & _). apply list_elem_of_lookup_2 in Hin.
    apply elem_of_task_cells in Hin as [[Hr1 Hr2] Hc].
    cbn [start_row end_row fst snd] in *. split; [lia|]. split; [done|].
    apply Hv. }
  subst body. rewrite Hrun1. cbn [mbind option_bind].
  destruct (load_nothing (drop k cells) tail M1 Htail)
    as (tail' & Hrun2 & _).
  rewrite Hrun2. cbn [mbind option_bind].
  exists M1. split; [done|]. split; [done|].
  intros r c Hr Hc. rewrite Hget1.
  destruct (decide ((r, c) ∈ take k cells)); [done|].
  by apply get_cell_alloc_rows.
Qed.

Lemma load_matric_tokens_witness :
  let ld := {| ld_file := Some (chars "2 2  1 2" ++ [LF] ++ chars "3" ++ [LF]);
               ld_row := 77; ld_col := 88; ld_cell := fun _ _ => -7 |} in
  let v := fun r c : Z => Z.max 0 (Z.min 9 (2 * r + c + 1)) in
  let sep := fun rc : Z * Z =>
    if (rc.1 =? 0) && (rc.2 =? 0) then chars "  "
    else if rc.2 =? 0 then [LF] else chars " " in
  0 <= 2 <= INT_MAX /\ blank [" "%char] /\
  (forall rc, blank (sep rc) /\ sep rc <> []) /\
  (forall r c, is_int (v r c)) /\
  exists M,
    load_matric ld (chars "m1.txt") (initial_world module_at_load)
      = Some (Some M, initial_world module_at_load) /\
    get_cell M 0 0 = Some 1 /\ get_cell M 0 1 = Some 2 /\
    get_cell M 1 0 = Some 3 /\ get_cell M 1 1 = Some (-7).
Proof.
  intros ld v sep.
  assert (0 <= 2 <= INT_MAX) as H2 by (unfold INT_MAX; lia).
  assert (blank [" "%char]) as Hb by (by repeat constructor).
  assert (forall rc, blank (sep rc) /\ sep rc <> []) as Hsep.
  { intros rc. unfold sep.
    destruct ((rc.1 =? 0) && (rc.2 =? 0)); [|destruct (rc.2 =? 0)];
      (split; [by repeat constructor|discriminate]). }
  assert (forall r c, is_int (v r c)) as Hv
    by (intros r c; unfold v, is_int, INT_MIN, INT_MAX; lia).
  split; [exact H2|]. split; [exact Hb|]. split; [exact Hsep|].
  split; [exact Hv|].
  destruct (load_matric_tokens ld (chars "m1.txt")
              (initial_world module_at_load) 2 2 v sep [] [" "%char] 3 [LF]
              eq_refl H2 H2 ltac:(constructor) Hb ltac:(discriminate)
              Hsep Hv ltac:(by repeat constructor))
    as (M & Hload & _ & Hget).
  exists M. split; [exact Hload|].
  split; [|split; [|split]].
  - rewrite (Hget 0 0) by lia. reflexivity.
  - rewrite (Hget 0 1) by lia. reflexivity.
  - rewrite (Hget 1 0) by lia. reflexivity.
  - rewrite (Hget 1 1) by lia. reflexivity.
Defined.

(** *** load_matric() and main() *)

(** The loops of lines 84-88 stay inside the rows allocated for them. *)
Lemma load_cells_total rows cols cs st :
  has_shape st.2 rows cols ->
  Forall (fun rc => 0 <= rc.1 < rows /\ 0 <= rc.2 < cols) cs ->
  exists st',
    for_each (fun st rc => load_cell rc.1 st rc.2) cs st = Some st' /\
    has_shape st'.2 rows cols.
Proof.
  revert st. induction cs as [|rc cs IH]; intros [s M] Hshape Hcs.
  - by exists (s, M).
  - apply Forall_cons_1 in Hcs as [[Hr Hc] Hcs']. cbn [snd] in Hshape.
    assert (exists st1, load_cell rc.1 (s, M) rc.2 = Some st1 /\
                        has_shape st1.2 rows cols) as (st1 & Hstep & Hshape1).
    { unfold load_cell. cbn [fst snd]. destruct (fscanf_d s) as [[v|] rest].
      - destruct (set_cell_in_shape M rows cols rc.1 rc.2 v Hshape Hr Hc)
          as (M' & -> & Hshape' & _).
        by exists (rest, M').
      - by exists (rest, M). }
    cbn [for_each]. rewrite Hstep. cbn [mbind option_bind]. by apply IH.
Qed.

(** [load_matric] always returns: NULL after one of its two messages, or
    a matrix after printing nothing. *)
Lemma load_matric_outcome ld filename w :
  exists r w',
    load_matric ld filename w = Some (r, w') /\
    match ld_file ld with
    | None =>
        r = None /\
        w' = print (chars "File not found: " ++ filename ++ [LF]) w
    | Some _ =>
        (r = None /\ w' = print (chars "Malloc failed." ++ [LF]) w) \/
        (is_Some r /\ w' = w)
    end.
Proof.
  unfold load_matric. destruct (ld_file ld) as [text|]; [|by eexists _, _].
  destruct (fscanf_d text) as [orow s1].
  destruct (fscanf_d s1) as [ocol s2].
  set (rows := default (ld_row ld) orow).
  set (cols := default (ld_col ld) ocol).
  destruct ((0 <? rows) && (cols <? 0)).
  { eexists _, _. split; [done|]. by left. }
  rewrite load_loops.
  destruct (load_cells_total rows cols
              (task_cells cols {| start_row := 0; end_row := rows |})
              (s2, {| row := rows; col := cols;
                      data := alloc_rows (ld_cell ld) rows cols |}))
    as ([s' M'] & Hrun & _).
  { by apply (alloc_rows_shape (ld_cell ld)). }
  { apply list.Forall_forall. intros [r c] Hin%elem_of_task_cells.
    unfold in_task in Hin. cbn [start_row end_row fst snd] in *. lia. }
  rewrite Hrun. cbn [mbind option_bind].
  eexists _, _. split; [done|]. right. by split; [eexists|].
Qed.

(** X19.  When a matrix file cannot be opened, [main] prints
    "File not found: " and the name for it, tries the other file all the
    same, and returns without multiplying: no thread is created, [m],
    [totalTime], result.txt and the module stay as they were, and no
    "PID:" or "Elapsed Time:" line is printed -- after the message of the
    first file comes at most the message of the second. *)
Theorem main_argv_missing_file os ld1 ld2 prog a1 a2 a3 w :
  ld_file ld1 = None \/ ld_file ld2 = None ->
  exists w' msg1 msg2,
    main_argv os ld1 ld2 [prog; a1; a2; a3] w = Some w' /\
    console w' = console w ++ msg1 ++ msg2 /\
    (ld_file ld1 = None -> msg1 = chars "File not found: " ++ a2 ++ [LF]) /\
    (ld_file ld1 <> None -> msg1 = [] \/ msg1 = chars "Malloc failed." ++ [LF]) /\
    (ld_file ld2 = None -> msg2 = chars "File not found: " ++ a3 ++ [LF]) /\
    (ld_file ld2 <> None -> msg2 = [] \/ msg2 = chars "Malloc failed." ++ [LF]) /\
    m w' = m w /\ totalTime w' = totalTime w /\
    result_txt w' = result_txt w /\ spawned w' = spawned w /\
    module w' = module w.
Proof.
  intros Hmissing. unfold main_argv.
  destruct (load_matric_outcome ld1 a2 w) as (r1 & w1 & -> & H1).
  cbn [mbind option_bind].
  destruct (load_matric_outcome ld2 a3 w1) as (r2 & w2 & -> & H2).
  cbn [mbind option_bind].
  assert (main os 4 a1 r1 r2 w2 = Some w2) as ->.
  { unfold main. change (4 =? 4) with true. cbn [negb].
    destruct r1 as [A|]; [|done]. destruct r2 as [B|]; [|done].
    destruct Hmissing as [Hnone|Hnone].
    - rewrite Hnone in H1. by destruct H1.
    - rewrite Hnone in H2. by destruct H2. }
  assert (exists msg1,
            w1 = print msg1 w /\
            (ld_file ld1 = None ->
             msg1 = chars "File not found: " ++ a2 ++ [LF]) /\
            (ld_file ld1 <> None ->
             msg1 = [] \/ msg1 = chars "Malloc failed." ++ [LF]))
    as (msg1 & -> & Hm1a & Hm1b).
  { destruct (ld_file ld1) as [t1|].
    - destruct H1 as [[_ ->]|[_ ->]].
      + eexists. split; [done|]. split; [done|]. by right.
      + exists []. split; [|split; [done|by left]].
        destruct w. unfold print. cbn. by rewrite app_nil_r.
    - destruct H1 as [_ ->]. eexists. by split; [|split]. }
  assert (exists msg2,
            w2 = print msg2 (print msg1 w) /\
            (ld_file ld2 = None ->
             msg2 = chars "File not found: " ++ a3 ++ [LF]) /\
            (ld_file ld2 <> None ->
             msg2 = [] \/ msg2 = chars "Malloc failed." ++ [LF]))
    as (msg2 & -> & Hm2a & Hm2b).
  { destruct (ld_file ld2) as [t2|].
    - destruct H2 as [[_ ->]|[_ ->]].
      + eexists. split; [done|]. split; [done|]. by right.
      + exists []. split; [|split; [done|by left]].
        unfold print. cbn. by rewrite app_nil_r.
    - destruct H2 as [_ ->]. eexists. by split; [|split]. }
  exists (print msg2 (print msg1 w)), msg1, msg2.
  split; [done|]. cbn [print console m totalTime result_txt spawned module].
  rewrite <- app_assoc. done.
Qed.

Lemma main_argv_missing_file_witness :
  let gone := {| ld_file := None; ld_row := 0; ld_col := 0;
                 ld_cell := fun _ _ => 0 |} in
  exists w',
    main_argv (example_os noon noon) gone gone
      [chars "./MT_matrix"; chars "2"; chars "m1.txt"; chars "m2.txt"]
      (initial_world module_at_load) = Some w' /\
    console w' = chars "File not found: m1.txt" ++ [LF] ++
                 chars "File not found: m2.txt" ++ [LF] /\
    m w' = None /\ result_txt w' = None /\ spawned w' = [].
Proof.
  intros gone.
  destruct (main_argv_missing_file (example_os noon noon) gone gone
              (chars "./MT_matrix") (chars "2") (chars "m1.txt")
              (chars "m2.txt") (initial_world module_at_load)
              (or_introl eq_refl))
    as (w' & msg1 & msg2 & Hmain & Hcon & Hm1 & _ & Hm2 & _ & Hm & _ & Hres
        & Hsp & _).
  exists w'. split; [exact Hmain|].
  rewrite Hcon, (Hm1 eq_refl), (Hm2 eq_refl).
  split; [reflexivity|]. split; [exact Hm|]. split; [exact Hres|exact Hsp].
Defined.

(** X20.  A file that announces a negative number of columns and at
    least one row is refused with "Malloc failed.": [load_matric] returns
    NULL for it, the request for the first row having failed. *)
Theorem load_matric_negative_columns ld filename w rows cols ws0 ws1 tail :
  ld_file ld =
    Some (ws0 ++ fmt_signed rows ++ ws1 ++ fmt_signed cols ++ tail) ->
  0 < rows <= INT_MAX -> INT_MIN <= cols < 0 ->
  blank ws0 -> blank ws1 -> no_digit_ahead tail ->
  load_matric ld filename w =
    Some (None, print (chars "Malloc failed." ++ [LF]) w).
Proof.
  intros Hfile Hrows Hcols Hws0 Hws1 Htail.
  unfold load_matric. rewrite Hfile.
  assert (no_digit_ahead (ws1 ++ fmt_signed cols ++ tail)) as Hahead.
  { destruct ws1 as [|c ws1]; [|by apply blank_no_digit].
    cbn [app]. unfold fmt_signed. destruct (Z.ltb_spec cols 0); [|lia].
    reflexivity. }
  rewrite (fscanf_d_number ws0 rows)
    by (done || (unfold is_int, INT_MIN, INT_MAX in *; lia)).
  rewrite (fscanf_d_number ws1 cols)
    by (done || (unfold is_int, INT_MIN, INT_MAX in *; lia)).
  cbn [default from_option id].
  destruct (Z.ltb_spec 0 rows); [|lia].
  destruct (Z.ltb_spec cols 0); [|lia]. done.
Qed.

Lemma load_matric_negative_columns_witness :
  let ld := {| ld_file := Some (chars "2 -3" ++ [LF] ++ chars "1 2 3" ++ [LF]);
               ld_row := 0; ld_col := 0; ld_cell := fun _ _ => 0 |} in
  0 < 2 <= INT_MAX /\ INT_MIN <= -3 < 0 /\
  load_matric ld (chars "m1.txt") (initial_world module_at_load) =
    Some (None, print (chars "Malloc failed." ++ [LF])
                  (initial_world module_at_load)).
Proof.
  intros ld.
  assert (0 < 2 <= INT_MAX) as Hr by (unfold INT_MAX; lia).
  assert (INT_MIN <= -3 < 0) as Hc by (unfold INT_MIN; lia).
  split; [exact Hr|]. split; [exact Hc|].
  exact (load_matric_negative_columns ld (chars "m1.txt")
           (initial_world module_at_load) 2 (-3) [] [" "%char]
           (LF :: chars "1 2 3" ++ [LF])
           eq_refl Hr Hc ltac:(constructor) ltac:(by repeat constructor)
           eq_refl).
Defined.

(** *** From the matrix files to result.txt *)

Lemma multiply_result_file order os g w w' M :
  multiply_with order os g w = Some w' ->
  col (m1 g) = row (m2 g) ->
  alloc_fails (row (m1 g)) (col (m2 g)) = false -> 0 <= n_thread g ->
  fopen_ok os = true ->
  m w' = Some M ->
  exists text, result_txt w' = Some text /\ result_text M = Some text.
Proof.
  intros Hrun Hdim Halloc Hn Hfopen Hm. unfold multiply_with in Hrun.
  destruct (Z.eqb_spec (col (m1 g)) (row (m2 g))); [|done].
  cbn [negb] in Hrun. rewrite Halloc in Hrun.
  destruct (Z.ltb_spec (n_thread g) 0); [lia|].
  destruct (for_each _ _ _) as [w1|]; [|done].
  cbn [mbind option_bind] in Hrun. unfold write_result in Hrun.
  rewrite Hfopen in Hrun. cbn [negb m] in Hrun.
  destruct (m w1) as [M1|]; [|done]. cbn [mbind option_bind] in Hrun.
  destruct (result_text M1) as [text|] eqn:Htext; [|done].
  cbn [mbind option_bind] in Hrun. injection Hrun as <-.
  cbn [m result_txt] in *. injection Hm as <-. by exists text.
Qed.

(** The matrix [multiply] leaves in [m] holds [int] cells. *)
Lemma product_wf A B M :
  wf_matrix A -> wf_matrix B ->
  row M = row A -> col M = col B ->
  data M = map (fun r => map (fun c => to_int (math_dot A B r c))
                             (seqZ 0 (col B)))
               (seqZ 0 (row A)) ->
  wf_matrix M.
Proof.
  intros (HrowA & _) (_ & HcolB & _) Hrow Hcol Hdata.
  unfold wf_matrix. rewrite Hrow, Hcol, Hdata.
  split; [done|]. split; [done|].
  split; [by rewrite length_map, length_seqZ|].
  apply list.Forall_forall. intros cells Hin.
  apply list_elem_of_fmap in Hin as (r & -> & _).
  split; [by rewrite length_map, length_seqZ|].
  apply list.Forall_forall. intros v Hin.
  apply list_elem_of_fmap in Hin as (c & -> & _). apply to_int_range.
Qed.

(** X21.  From the files to result.txt and back: when the two files hold
    what [write_result] prints for matrices [A] and [B] that can be
    multiplied, the workers' [pipe] and [fork] calls succeed and
    result.txt can be created, [main] writes to result.txt the text of
    the product of [A] and [B] (each cell modulo [2^32]), and that text
    is itself a matrix file: [load_matric] reads it back as the matrix
    [m] holds. *)
Theorem main_argv_result_loads
    os ld1 ld2 prog a1 a2 a3 A B textA textB w :
  wf_matrix A -> wf_matrix B -> col A = row B ->
  result_text A = Some textA -> ld_file ld1 = Some textA ->
  result_text B = Some textB -> ld_file ld2 = Some textB ->
  1 <= atoi a1 <= INT_MAX -> fopen_ok os = true ->
  wf_procfs (module w) ->
  (forall n, 0 <= n < atoi a1 ->
     pipe_ok (thread_os os n) = true /\
     0 <= fork_ret (thread_os os n) <= INT_MAX /\
     early os n = false) ->
  exists w' M text,
    main_argv os ld1 ld2 [prog; a1; a2; a3] w = Some w' /\
    m w' = Some M /\ row M = row A /\ col M = col B /\
    data M = map (fun r => map (fun c => to_int (math_dot A B r c))
                               (seqZ 0 (col B)))
                 (seqZ 0 (row A)) /\
    result_txt w' = Some text /\ result_text M = Some text /\
    forall ld filename w2,
      ld_file ld = Some text ->
      load_matric ld filename w2 = Some (Some M, w2).
Proof.
  intros HA HB Hdim HtA Hf1 HtB Hf2 Hn Hfopen Hwf Henv.
  unfold main_argv.
  rewrite (load_matric_result_text ld1 a2 w A textA HA HtA Hf1).
  cbn [mbind option_bind].
  rewrite (load_matric_result_text ld2 a3 w B textB HB HtB Hf2).
  cbn [mbind option_bind].
  set (g := {| n_thread := atoi a1; m1 := A; m2 := B |}).
  destruct (multiply_with_spec (fun l => l) os g w)
    as (w1 & M & Hrun & Hm & Hrow & Hcol & Hdata & _); try done.
  destruct (multiply_result_file _ os g w w1 M Hrun Hdim
              ltac:(apply alloc_succeeds; destruct HB as (_ & ? & _); cbn; lia)
              ltac:(cbn; lia) Hfopen Hm) as (text & Hres & Htext).
  unfold main. change (4 =? 4) with true. cbn [negb].
  fold g. unfold multiply. rewrite Hrun. cbn [mbind option_bind].
  eexists _, M, text. split; [done|].
  cbn [print m result_txt]. do 6 (split; [done|]).
  intros ld filename w2 Hfile.
  apply (load_matric_result_text ld filename w2 M text); [|done..].
  by apply (product_wf A B).
Qed.

Lemma main_argv_result_loads_witness :
  let textA := chars "2 2" ++ [LF] ++ chars "1 2 " ++ [LF] ++ chars "3 4 "
               ++ [LF] in
  let textB := chars "2 2" ++ [LF] ++ chars "5 6 " ++ [LF] ++ chars "7 8 "
               ++ [LF] in
  let ld1 := {| ld_file := Some textA; ld_row := 77; ld_col := 88;
                ld_cell := fun _ _ => -7 |} in
  let ld2 := {| ld_file := Some textB; ld_row := 77; ld_col := 88;
                ld_cell := fun _ _ => -7 |} in
  wf_matrix matrix_a /\ wf_matrix matrix_b /\
  result_text matrix_a = Some textA /\ result_text matrix_b = Some textB /\
  1 <= atoi (chars "2") <= INT_MAX /\
  exists w',
    main_argv (example_os noon noon) ld1 ld2
      [chars "./MT_matrix"; chars "2"; chars "m1.txt"; chars "m2.txt"]
      (initial_world module_at_load) = Some w' /\
    result_txt w' = Some (chars "2 2" ++ [LF] ++ chars "19 22 " ++ [LF] ++
                          chars "43 50 " ++ [LF]).
Proof.
  intros textA textB ld1 ld2.
  assert (1 <= atoi (chars "2") <= INT_MAX) as Hn
    by (change (atoi (chars "2")) with 2; unfold INT_MAX; lia).
  assert (forall n, 0 <= n < atoi (chars "2") ->
            pipe_ok (thread_os (example_os noon noon) n) = true /\
            0 <= fork_ret (thread_os (example_os noon noon) n) <= INT_MAX /\
            early (example_os noon noon) n = false) as Henv.
  { intros n Hn'. change (atoi (chars "2")) with 2 in Hn'. cbn.
    unfold INT_MAX. split; [reflexivity|]. split; [lia|reflexivity]. }
  split; [exact wf_matrix_a|]. split; [exact wf_matrix_b|].
  split; [reflexivity|]. split; [reflexivity|]. split; [exact Hn|].
  destruct (main_argv_result_loads (example_os noon noon) ld1 ld2
              (chars "./MT_matrix") (chars "2") (chars "m1.txt")
              (chars "m2.txt") matrix_a matrix_b textA textB
              (initial_world module_at_load)
              wf_matrix_a wf_matrix_b eq_refl eq_refl eq_refl eq_refl eq_refl
              Hn eq_refl wf_module_at_load Henv)
    as (w' & M & text & Hmain & _ & Hrow & Hcol & Hdata & Hres & Htext & _).
  exists w'. split; [exact Hmain|]. rewrite Hres, <- Htext.
  destruct M as [rowM colM dataM]. cbn [row col data] in Hrow, Hcol, Hdata.
  rewrite Hrow, Hcol, Hdata. reflexivity.
Defined.

(** *** write_result(): result.txt cannot be created *)

(** X22.  When result.txt cannot be created, the product is computed all
    the same: [m] holds it (each cell modulo [2^32]), [write_result]
    prints "Cannot create file result.txt." after the workers' lines and
    leaves result.txt as it was, and [main] goes on to print the elapsed
    time. *)
Theorem main_cannot_create_result os argv1 A B w :
  wf_matrix A -> wf_matrix B -> col A = row B ->
  1 <= atoi argv1 <= INT_MAX -> fopen_ok os = false ->
  wf_procfs (module w) ->
  (forall n, 0 <= n < atoi argv1 ->
     pipe_ok (thread_os os n) = true /\
     0 <= fork_ret (thread_os os n) <= INT_MAX /\
     early os n = false) ->
  exists w' M before,
    main os 4 argv1 (Some A) (Some B) w = Some w' /\
    m w' = Some M /\ row M = row A /\ col M = col B /\
    data M = map (fun r => map (fun c => to_int (math_dot A B r c))
                               (seqZ 0 (col B)))
                 (seqZ 0 (row A)) /\
    result_txt w' = result_txt w /\
    console w' =
      before ++ chars "Cannot create file result.txt." ++ [LF] ++ [LF] ++
      chars "Elapsed Time: " ++
      fmt_signed (to_int (to_long (tv_sec (endTime os)
                                   - tv_sec (startTime os)))) ++
      chars " (s)" ++ [LF].
Proof.
  intros HA HB Hdim Hn Hfopen Hwf Henv.
  pose proof HA as (HrowA & _). pose proof HB as (_ & HcolB & _).
  set (g := {| n_thread := atoi argv1; m1 := A; m2 := B |}).
  assert (forall n, 0 <= n < n_thread g -> early os n = false) as Hearly
    by (intros n Hn'; by destruct (Henv n Hn') as (_ & _ & ?)).
  unfold main. change (4 =? 4) with true. cbn [negb]. fold g.
  unfold multiply, multiply_with. cbn [m1 m2 n_thread g].
  destruct (Z.eqb_spec (col A) (row B)) as [_|]; [|done].
  cbn [negb]. rewrite alloc_succeeds by lia.
  destruct (Z.ltb_spec (atoi argv1) 0); [lia|].
  set (w0 := print _ (set_m _ w)).
  set (args := thread_args os (partition (row A) (atoi argv1))).
  assert (forall nt, nt ∈ args ->
            0 <= start_row nt.2 /\ end_row nt.2 <= row (m1 g) /\
            pipe_ok (thread_os os nt.1) = true /\
            0 <= fork_ret (thread_os os nt.1) <= INT_MAX) as Hargs.
  { intros nt Hin.
    destruct (thread_args_elem os _ _ nt HrowA Hn Hearly Hin) as [Hnt Heq].
    destruct (Henv nt.1 Hnt) as (Hpipe & Hfork & _).
    rewrite Heq. cbn [start_row end_row m1 g].
    pose proof (nth_start_bound _ _ HrowA Hn nt.1 ltac:(lia)).
    pose proof (nth_start_bound _ _ HrowA Hn (nt.1 + 1) ltac:(lia)).
    split; [lia|]. split; [lia|]. by split. }
  destruct (threads_effect os g (fun _ _ => False) args
              w0 (alloc_matrix os (row A) (col B))
              HA HB Hdim Hargs eq_refl (alloc_matrix_shape _ _ _) Hwf)
    as (w1 & M1 & Hrun & Hm1 & Hshape1 & _ & _ & Hres1 & _ & Hget); [done|].
  rewrite Hrun. cbn [mbind option_bind].
  unfold write_result. rewrite Hfopen. cbn [negb mbind option_bind].
  eexists _, M1, (console w1). split; [done|].
  cbn [print m totalTime console result_txt].
  split; [done|]. destruct Hshape1 as (HrowM & HcolM & Hrest).
  cbn [m1 m2 g] in HrowM, HcolM.
  split; [done|]. split; [done|]. split.
  { apply (shape_ext M1 (row A) (col B)
             (fun r c => to_int (math_dot A B r c))); [done|].
    intros r c Hr Hc. apply Hget. right.
    destruct (thread_args_cover os _ _ r HrowA Hn Hearly Hr)
      as (nt & Hin & Hrt).
    exists nt. split; [done|]. by apply elem_of_task_cells. }
  split; [done|]. by rewrite <- !app_assoc.
Qed.

Lemma main_cannot_create_result_witness :
  let os := {| getpid := 4000; uninit_cell := fun _ _ => -7;
               uninit_end_row := fun _ => 0; early := fun _ => false;
               thread_os := example_thread_env; fopen_ok := false;
               startTime := noon; endTime := noon |} in
  wf_matrix matrix_a /\ wf_matrix matrix_b /\
  1 <= atoi (chars "2") <= INT_MAX /\
  exists w' M before,
    main os 4 (chars "2") (Some matrix_a) (Some matrix_b)
      (initial_world module_at_load) = Some w' /\
    m w' = Some M /\ data M = [[19; 22]; [43; 50]] /\
    result_txt w' = None /\
    console w' = before ++ chars "Cannot create file result.txt." ++ [LF] ++
                 [LF] ++ chars "Elapsed Time: 0 (s)" ++ [LF].
Proof.
  intros os.
  assert (1 <= atoi (chars "2") <= INT_MAX) as Hn
    by (change (atoi (chars "2")) with 2; unfold INT_MAX; lia).
  assert (forall n, 0 <= n < atoi (chars "2") ->
            pipe_ok (thread_os os n) = true /\
            0 <= fork_ret (thread_os os n) <= INT_MAX /\
            early os n = false) as Henv.
  { intros n Hn'. change (atoi (chars "2")) with 2 in Hn'. cbn.
    unfold INT_MAX. split; [reflexivity|]. split; [lia|reflexivity]. }
  split; [exact wf_matrix_a|]. split; [exact wf_matrix_b|].
  split; [exact Hn|].
  destruct (main_cannot_create_result os (chars "2") matrix_a matrix_b
              (initial_world module_at_load)
              wf_matrix_a wf_matrix_b eq_refl Hn eq_refl wf_module_at_load
              Henv)
    as (w' & M & before & Hmain & Hm & _ & _ & Hdata & Hres & Hcon).
  exists w', M, before. split; [exact Hmain|]. split; [exact Hm|].
  split; [rewrite Hdata; reflexivity|]. split; [exact Hres|exact Hcon].
Defined.
